(** * ElasticSearchQuerier: scroll pagination with retrying requests

    A shallow embedding of the four entry points of the repository

    - [Refactored]  : refactored/main.go
    - [Client], [Processor], [Modular] : client/elasticsearch.go,
      processor/processor.go and the main.go that drives them
    - [Monolith]    : the single-file main.go with its own processHits

    together with the parts of their collaborators that the programs rely
    on: the decoded JSON values of encoding/json, the retry loop of
    cenkalti/backoff v4.3.0 and a scripted search engine. *)

From Stdlib Require Import ZArith List String Ascii Bool Lia QArith Qround.
From Stdlib Require Import PrimFloat FloatOps SpecFloat FloatAxioms.
Import ListNotations.

Set Warnings "-register-all".

Open Scope string_scope.
Open Scope list_scope.
Open Scope Z_scope.

(* ================================================================= *)
(** ** Go's [int] on a 64-bit platform *)

Module GoInt.

Definition min_int : Z := - 2 ^ 63.
Definition max_int : Z := 2 ^ 63 - 1.

(** Two's complement wrap-around of a mathematical result. *)
Definition wrap (z : Z) : Z := (z + 2 ^ 63) mod 2 ^ 64 - 2 ^ 63.

Definition add (a b : Z) : Z := wrap (a + b).
Definition sub (a b : Z) : Z := wrap (a - b).

(** [a / b] truncates toward zero; a zero divisor panics ([None]). *)
Definition div (a b : Z) : option Z :=
  if b =? 0 then None else Some (wrap (Z.quot a b)).

(** [int(f)] for a float64 [f]: truncation toward zero when the result
    fits; outside the range the conversion is implementation-defined and
    amd64's CVTTSD2SQ yields the smallest int. *)
Definition of_float64 (f : float) : Z :=
  match Prim2SF f with
  | S754_zero _ => 0
  | S754_finite s m e =>
      let v := if 0 <=? e then Z.pos m * 2 ^ e
               else Z.quot (Z.pos m) (2 ^ (- e)) in
      let v := if s then - v else v in
      if (min_int <=? v) && (v <=? max_int) then v else min_int
  | S754_infinity _ | S754_nan => min_int
  end.

End GoInt.

(* ================================================================= *)
(** ** Values produced by encoding/json when decoding into [interface{}] *)

Module Json.

(** [nil], [bool], [float64], [string], [[]interface{}] and
    [map[string]interface{}].  A map is kept as an association list that
    is read through [lookup]: the first binding of a key is the map's. *)
Inductive value : Type :=
| JNull
| JBool (b : bool)
| JNumber (f : float)
| JString (s : string)
| JArray (items : list value)
| JObject (fields : list (string * value)).

Definition object : Type := list (string * value).

(** [m[k]]: the value and the comma-ok flag folded into an option. *)
Fixpoint lookup (k : string) (m : object) : option value :=
  match m with
  | [] => None
  | (k', v) :: rest => if String.eqb k k' then Some v else lookup k rest
  end.

(** Type assertions [x.(T)] with the comma-ok form: [None] is [ok = false].
    A missing key yields the nil interface, which fails every assertion. *)
Definition as_string (x : option value) : option string :=
  match x with Some (JString s) => Some s | _ => None end.

Definition as_object (x : option value) : option object :=
  match x with Some (JObject m) => Some m | _ => None end.

Definition as_array (x : option value) : option (list value) :=
  match x with Some (JArray l) => Some l | _ => None end.

Definition as_float64 (x : option value) : option float :=
  match x with Some (JNumber f) => Some f | _ => None end.

(** json.Marshal refuses a float64 that is not finite. *)
Definition finite (f : float) : bool :=
  match Prim2SF f with
  | S754_infinity _ | S754_nan => false
  | _ => true
  end.

Fixpoint marshalable (v : value) : bool :=
  match v with
  | JNumber f => finite f
  | JArray items => forallb marshalable items
  | JObject fields => forallb (fun kv => marshalable (snd kv)) fields
  | _ => true
  end.

(** Decoding a response body into a [map[string]interface{}] variable.
    A body is [None] when it is not JSON at all.  The literal [null]
    sets the variable to the nil map, which reads as the empty one;
    anything but an object is a type error.  Decoding into a map that
    already has entries keeps the entries the new object does not
    mention. *)
Definition decode_into (old : object) (body : option value) : option object :=
  match body with
  | Some (JObject m) => Some (m ++ old)
  | Some JNull => Some []
  | _ => None
  end.

(** *** How encoding/json matches an object key to a struct field *)

(** The upper-case form of an ASCII letter. *)
Definition upper (c : ascii) : ascii :=
  let n := N_of_ascii c in
  if ((97 <=? n) && (n <=? 122))%N then ascii_of_N (n - 32) else c.

(** foldName: ASCII letters are taken to upper case and every other rune
    to the smallest rune of its simple case-folding orbit.  Strings are
    UTF-8; the two runes that fold to an ASCII letter are the long s
    (U+017F, to S) and the Kelvin sign (U+212A, to K).  The other runes
    outside ASCII fold to runes outside ASCII: their bytes are kept, which
    leaves every comparison with a folded ASCII name as it is. *)
Fixpoint foldName (s : string) : string :=
  match s with
  | EmptyString => EmptyString
  | String "197" (String "191" rest) => String "S" (foldName rest)
  | String "226" (String "132" (String "170" rest)) => String "K" (foldName rest)
  | String c rest => String (upper c) (foldName rest)
  end.

(** A key is taken for the field named [name], the only field of its
    struct, when it is the name or folds to what the name folds to. *)
Definition matches (name key : string) : bool :=
  String.eqb key name || String.eqb (foldName key) (foldName name).

(** The bindings of a map, each key once. *)
Fixpoint distinct (fields : object) : object :=
  match fields with
  | [] => []
  | (k, v) :: rest =>
      (k, v) :: filter (fun kv => negb (String.eqb k (fst kv))) (distinct rest)
  end.

(** json.Marshal writes the keys of a map in sorted order. *)
Fixpoint insert (kv : string * value) (l : object) : object :=
  match l with
  | [] => [kv]
  | kv' :: rest =>
      if String.leb (fst kv) (fst kv') then kv :: l else kv' :: insert kv rest
  end.

Definition sorted (l : object) : object := fold_right insert [] l.

(** What the decoder of a struct hands to the field named [name] when it
    reads the encoding of the map [fields]: the values of the keys taken
    for the field, in the order of the encoding. *)
Definition entries (name : string) (fields : object) : list value :=
  map snd (sorted (distinct (filter (fun kv => matches name (fst kv)) fields))).

End Json.

Import Json.

(* ================================================================= *)
(** ** The world the programs run in *)

Module Env.

(** *** The engine's side of the wire *)

Record Response : Type := mkResponse
  { StatusCode : Z;
    Body : option value }.

(** esapi.Response.IsError *)
Definition IsError (r : Response) : bool := 299 <? StatusCode r.

Inductive Reply : Type :=
| Unreachable (why : string)      (* the transport returned an error *)
| Replied (r : Response).

(** One request as the engine sees it.  Durations are in nanoseconds,
    as in [time.Duration]. *)
Inductive Call : Type :=
| CSearch (index query : string) (size : Z) (scroll : Z)
| CScroll (scrollID : string) (scroll : Z)
| CClearScroll (scrollID : string).

Record Exchange : Type := mkExchange
  { latency : Z;
    reply : Reply }.

(** *** Go errors, kept symbolic *)

Inductive Error : Type :=
| ETransport (why : string)
| ECanceled                                   (* ctx.Err() *)
| ENew (msg : string)                         (* errors.New, fmt.Errorf(msg) *)
| EResponse (prefix : string) (r : Response)  (* text built from res.String() *)
| EWrap (prefix : string) (e : Error)         (* fmt.Errorf(prefix + ": %w", e) *)
| EDecode                                     (* json decoding failed *)
| EWrite.                                     (* the file refused a write *)

(** What [fmt.Sprintf("%s\n", x)] hands to the file: the text of a string
    operand, or fmt's bad-verb rendering of any other operand, which is
    kept as the operand itself. *)
Inductive Line : Type :=
| Text (s : string)
| BadVerb (v : value).

Definition Sprintf_s (v : value) : Line :=
  match v with JString s => Text s | _ => BadVerb v end.

Inductive LogLine : Type :=
| Say (msg : string)
| SayInt (msg : string) (n : Z)
| SayInts (msg : string) (n m : Z)
| SayErr (msg : string) (e : Error)
| SayResponse (msg : string) (r : Response).

(** The context a request or a retry loop is governed by: the background
    context is never done, the cancellable one is done from [cancelAt]
    on. *)
Inductive Context : Type := Background | Cancellable.

(** Everything a program does to the outside, in the order it does it: a
    request with the times it was issued and answered, a line written to
    the output file, a line logged. *)
Inductive Effect : Type :=
| Request (issued returned : Z) (c : Call) (answer : Reply)
| Write (l : Line)
| Log (l : LogLine).

Record World : Type := mkWorld
  { clock : Z;                     (* nanoseconds *)
    cancelAt : option Z;           (* when the shutdown signal cancels ctx *)
    engine : list Exchange;        (* what the engine will answer, in order *)
    dice : list Z;                 (* the random source of the backoff *)
    journal : list Effect;         (* what was done so far, oldest first *)
    quota : option nat }.          (* writes the file still accepts *)

Definition set_clock (t : Z) (w : World) : World :=
  mkWorld t (cancelAt w) (engine w) (dice w) (journal w) (quota w).

Definition record (e : Effect) (w : World) : World :=
  mkWorld (clock w) (cancelAt w) (engine w) (dice w) (journal w ++ [e]) (quota w).

(** The journal read one kind of effect at a time. *)
Definition calls (j : list Effect) : list Call :=
  flat_map (fun e => match e with Request _ _ c _ => [c] | _ => [] end) j.

Definition written (j : list Effect) : list Line :=
  flat_map (fun e => match e with Write l => [l] | _ => [] end) j.

Definition logged (j : list Effect) : list LogLine :=
  flat_map (fun e => match e with Log l => [l] | _ => [] end) j.

(** *** Results and the monad the programs are written in *)

Inductive Abort : Type :=
| Panicked                (* a failed type assertion *)
| Exited (code : Z)       (* log.Fatalf *)
| OutOfFuel.

Inductive Res (A : Type) : Type :=
| Ret (a : A)
| Halt (why : Abort).
Arguments Ret {A} a.
Arguments Halt {A} why.

Definition M (A : Type) : Type := World -> Res A * World.

Definition ret {A} (a : A) : M A := fun w => (Ret a, w).

Definition bind {A B} (c : M A) (k : A -> M B) : M B :=
  fun w =>
    match c w with
    | (Ret a, w') => k a w'
    | (Halt why, w') => (Halt why, w')
    end.

Definition halt {A} (why : Abort) : M A := fun w => (Halt why, w).

End Env.

Import Env.

Notation "x <- c ;; k" := (bind c (fun x => k))
  (at level 61, c at next level, right associativity).
Notation "' pat <- c ;; k" := (bind c (fun x => match x with pat => k end))
  (at level 61, pat pattern, c at next level, right associativity).
Notation "c ;;; k" := (bind c (fun _ => k))
  (at level 61, right associativity).

Module Sys.

(** [ctx.Err() != nil] *)
Definition done (ctx : Context) (w : World) : bool :=
  match ctx, cancelAt w with
  | Cancellable, Some c => c <=? clock w
  | _, _ => false
  end.

Definition ctxErr (ctx : Context) : M bool := fun w => (Ret (done ctx w), w).

Definition now : M Z := fun w => (Ret (clock w), w).

(** One call of the client and what it returns, after the exchange's
    latency: the engine's response, or the error of a transport that
    failed.  The script decides, whatever the context the call is bound
    to: the context's error, which the client returns for a call that is
    in flight when its context is cancelled or that is made after it, is
    one of the answers a script can give.  An engine that has nothing left
    to say is unreachable. *)
Definition roundTrip (c : Call) : M Reply := fun w =>
  match engine w with
  | [] =>
      let r := Unreachable "connection refused" in
      (Ret r, record (Request (clock w) (clock w) c r) w)
  | x :: rest =>
      let back := clock w + Z.max 0 (latency x) in
      (Ret (reply x),
       mkWorld back (cancelAt w) rest (dice w)
               (journal w ++ [Request (clock w) back c (reply x)])
               (quota w))
  end.

(** The client's calls return [(res, err)]. *)
Definition perform (c : Call) : M (Response + Error) :=
  r <- roundTrip c ;;
  match r with
  | Unreachable why => ret (inr (ETransport why))
  | Replied res => ret (inl res)
  end.

(** [select] between [ctx.Done()] and a timer of [d] nanoseconds: [true]
    when the timer fired.  A context that is done by the time the timer
    would fire wins, at the moment it became done. *)
Definition sleep (ctx : Context) (d : Z) : M bool := fun w =>
  let wake := clock w + Z.max 0 d in
  match ctx, cancelAt w with
  | Cancellable, Some c =>
      if c <=? wake then (Ret false, set_clock (Z.max (clock w) c) w)
      else (Ret true, set_clock wake w)
  | _, _ => (Ret true, set_clock wake w)
  end.

(** The next draw of the random source. *)
Definition roll : M (option Z) := fun w =>
  match dice w with
  | [] => (Ret None, w)
  | d :: rest =>
      (Ret (Some d),
       mkWorld (clock w) (cancelAt w) (engine w) rest (journal w) (quota w))
  end.

(** One more than the answers the engine still holds: no loop that
    consumes an answer per round can run longer. *)
Definition patience : M nat := fun w => (Ret (S (List.length (engine w))), w).

Definition say (l : LogLine) : M unit := fun w =>
  (Ret tt, record (Log l) w).

(** log.Fatalf: print, then os.Exit(1). *)
Definition fatal {A} (l : LogLine) : M A :=
  say l ;;; halt (Exited 1).

Definition panic {A} : M A := halt Panicked.

(** file.WriteString(line + "\n") *)
Definition WriteString (l : Line) : M (option Error) := fun w =>
  match quota w with
  | Some O => (Ret (Some EWrite), w)
  | q =>
      (Ret None,
       mkWorld (clock w) (cancelAt w) (engine w) (dice w)
               (journal w ++ [Write l]) (option_map Nat.pred q))
  end.

End Sys.

(* ================================================================= *)
(** ** github.com/cenkalti/backoff/v4, as much of it as the programs use *)

Module Backoff.

Definition Millisecond : Z := 1000000.
Definition Second : Z := 1000 * Millisecond.
Definition Minute : Z := 60 * Second.

(** The exported fields and the two private ones the policy keeps
    between calls. *)
Record ExponentialBackOff : Type := mkExp
  { InitialInterval : Z;
    RandomizationFactor : Q;
    Multiplier : Q;
    MaxInterval : Z;
    MaxElapsedTime : Z;
    currentInterval : Z;
    startTime : Z }.

Definition set_current (c : Z) (b : ExponentialBackOff) : ExponentialBackOff :=
  mkExp (InitialInterval b) (RandomizationFactor b) (Multiplier b)
        (MaxInterval b) (MaxElapsedTime b) c (startTime b).

(** Reset: back to the initial interval, the budget counted from now. *)
Definition Reset (b : ExponentialBackOff) : M ExponentialBackOff :=
  t <- Sys.now ;;
  ret (mkExp (InitialInterval b) (RandomizationFactor b) (Multiplier b)
             (MaxInterval b) (MaxElapsedTime b) (InitialInterval b) t).

(** NewExponentialBackOff: the library's defaults, then Reset. *)
Definition NewExponentialBackOff : M ExponentialBackOff :=
  Reset (mkExp (500 * Millisecond) (1 # 2) (3 # 2)
               (60 * Second) (15 * Minute) 0 0).

(** The half-width of the randomised interval around [cur]. *)
Definition delta (b : ExponentialBackOff) : Z :=
  Qfloor (RandomizationFactor b * inject_Z (currentInterval b)).

(** getRandomValueFromInterval: any duration between [cur - delta] and
    [cur + delta]; the draw decides which.  Without a randomisation
    factor the interval itself is returned. *)
Definition getRandomValueFromInterval (b : ExponentialBackOff) (draw : option Z) : Z :=
  if Qeq_bool (RandomizationFactor b) 0 then currentInterval b
  else
    let lo := currentInterval b - delta b in
    let hi := currentInterval b + delta b in
    match draw with
    | None => currentInterval b
    | Some d => Z.max lo (Z.min hi d)
    end.

(** incrementCurrentInterval: multiply, without passing MaxInterval. *)
Definition incrementCurrentInterval (b : ExponentialBackOff) : ExponentialBackOff :=
  if Qle_bool (inject_Z (MaxInterval b) / Multiplier b)
              (inject_Z (currentInterval b))
  then set_current (MaxInterval b) b
  else set_current (Qfloor (inject_Z (currentInterval b) * Multiplier b)) b.

(** ExponentialBackOff.NextBackOff; [None] is the Stop value. *)
Definition NextBackOffExp (b : ExponentialBackOff)
  : M (option Z * ExponentialBackOff) :=
  t <- Sys.now ;;
  let elapsed := t - startTime b in
  draw <- Sys.roll ;;
  let next := getRandomValueFromInterval b draw in
  let b' := incrementCurrentInterval b in
  if negb (MaxElapsedTime b =? 0) && (MaxElapsedTime b <? elapsed + next)
  then ret (None, b')
  else ret (Some next, b').

(** A policy as Retry receives it: bare, or wrapped by WithContext. *)
Inductive BackOff : Type :=
| Bare (b : ExponentialBackOff)
| WithContext (b : ExponentialBackOff) (ctx : Context).

Definition getContext (b : BackOff) : Context :=
  match b with Bare _ => Background | WithContext _ ctx => ctx end.

Definition policy (b : BackOff) : ExponentialBackOff :=
  match b with Bare e | WithContext e _ => e end.

Definition with_policy (b : BackOff) (e : ExponentialBackOff) : BackOff :=
  match b with Bare _ => Bare e | WithContext _ ctx => WithContext e ctx end.

(** BackOff.NextBackOff: the context wrapper stops as soon as its
    context is done. *)
Definition NextBackOff (b : BackOff) : M (option Z * BackOff) :=
  match b with
  | Bare e =>
      '(next, e') <- NextBackOffExp e ;;
      ret (next, Bare e')
  | WithContext e ctx =>
      cancelled <- Sys.ctxErr ctx ;;
      if cancelled then ret (None, b)
      else
        '(next, e') <- NextBackOffExp e ;;
        ret (next, WithContext e' ctx)
  end.

(** An operation is a closure: [V] is what it keeps in the variables it
    captured. *)
Definition Operation (V : Type) : Type := V -> M (option Error * V).

(** The loop of Retry.  None of the programs returns a permanent error,
    so that branch is left out. *)
Fixpoint retry_loop {V} (fuel : nat) (operation : Operation V)
         (b : BackOff) (v : V) : M (option Error * V) :=
  match fuel with
  | O => halt OutOfFuel
  | S fuel' =>
      '(err, v') <- operation v ;;
      match err with
      | None => ret (None, v')
      | Some e =>
          '(next, b') <- NextBackOff b ;;
          match next with
          | None =>
              cancelled <- Sys.ctxErr (getContext b) ;;
              if cancelled then ret (Some ECanceled, v')
              else ret (Some e, v')
          | Some d =>
              fired <- Sys.sleep (getContext b) d ;;
              if fired then retry_loop fuel' operation b' v'
              else ret (Some ECanceled, v')
          end
      end
  end.

(** Every wait is at least the initial interval less its randomisation,
    and the waits add up to at most the budget: this many attempts are
    never exceeded. *)
Definition attempts (e : ExponentialBackOff) : nat :=
  let least := InitialInterval e - Qfloor (RandomizationFactor e * inject_Z (InitialInterval e)) in
  Z.to_nat (MaxElapsedTime e / least) + 2.

Definition Retry {V} (operation : Operation V) (b : BackOff) (v : V)
  : M (option Error * V) :=
  e <- Reset (policy b) ;;
  retry_loop (attempts e) operation (with_policy b e) v.

End Backoff.

(* ================================================================= *)
(** ** refactored/main.go *)

Module Refactored.

Import Backoff.

Record Config : Type := mkConfig
  { ElasticsearchURL : string;
    IndexName : string;
    QueryFile : string;
    OutputFile : string;
    BatchSize : Z;
    ScrollDuration : Z;
    InsecureTLS : bool }.

(** [Hit]: the only field is [Source.Title]. *)
Record Hit : Type := mkHit { Title : string }.

Record SearchResult : Type := mkSearchResult
  { ScrollID : string;
    TotalHits : Z;
    Hits : list Hit }.

(** *** retryWithBackoff *)

(** The closure [operation]; the captured [res] is a pointer, [None]
    when nil. *)
Definition operation (fn : M (Response + Error)) : Operation (option Response) :=
  fun _ =>
    r <- fn ;;
    match r with
    | inr err => ret (Some err, None)
    | inl res =>
        if IsError res then ret (Some (EResponse "" res), Some res)
        else ret (None, Some res)
    end.

Definition backoffCfg : M ExponentialBackOff :=
  b <- NewExponentialBackOff ;;
  ret (mkExp (1 * Second) (RandomizationFactor b) (Multiplier b)
             (30 * Second) (5 * Minute) (currentInterval b) (startTime b)).

Definition retryWithBackoff (ctx : Context) (fn : M (Response + Error))
  : M (option Response * option Error) :=
  cfg <- backoffCfg ;;
  let backoffCtx := WithContext cfg ctx in
  '(err, res) <- Retry (operation fn) backoffCtx None ;;
  match err with
  | Some e => ret (None, Some e)
  | None => ret (res, None)
  end.

(** *** parseSearchResponse and its helpers *)

Definition extractTotalHits (raw : object) : Z + Error :=
  match as_object (lookup "hits" raw) with
  | None => inr (ENew "hits not found in response")
  | Some hitsObj =>
      match as_object (lookup "total" hitsObj) with
      | None => inr (ENew "total hits not found in response")
      | Some totalObj =>
          match as_float64 (lookup "value" totalObj) with
          | None => inr (ENew "total hits value not found in response")
          | Some totalHits => inl (GoInt.of_float64 totalHits)
          end
      end
  end.

(** json.Marshal of a decoded value: the bytes are kept as the value. *)
Definition Marshal (h : value) : option value :=
  if marshalable h then Some h else None.

(** json.Unmarshal(hitBytes, &hit).  The bytes are the encoding of a
    decoded value, so an object has every key once, in sorted order.  A
    key is matched to the struct's field by its spelling or by its folded
    spelling, and a key that matches no field is ignored.  Every matching
    key is decoded into the field in turn: [null] leaves the field as it
    is, a value of the field's kind sets it (an object is decoded into the
    nested struct field by field, which keeps what it does not mention),
    and a value of any other kind is a type error, which json.Unmarshal
    reports once it has read the whole value. *)
Fixpoint decodeTitle (vs : list value) (title : string) : option string :=
  match vs with
  | [] => Some title
  | JNull :: rest => decodeTitle rest title
  | JString t :: rest => decodeTitle rest t
  | _ :: _ => None
  end.

Fixpoint decodeSource (vs : list value) (title : string) : option string :=
  match vs with
  | [] => Some title
  | JNull :: rest => decodeSource rest title
  | JObject source :: rest =>
      match decodeTitle (entries "title" source) title with
      | Some title' => decodeSource rest title'
      | None => None
      end
  | _ :: _ => None
  end.

Definition Unmarshal (hitBytes : value) : option Hit :=
  match hitBytes with
  | JNull => Some (mkHit "")
  | JObject fields => option_map mkHit (decodeSource (entries "_source" fields) "")
  | _ => None
  end.

Fixpoint decodeHits (hitsArray : list value) (hits : list Hit) : list Hit + Error :=
  match hitsArray with
  | [] => inl hits
  | h :: rest =>
      match Marshal h with
      | None => inr (EWrap "error marshaling hit" EDecode)
      | Some hitBytes =>
          match Unmarshal hitBytes with
          | None => inr (EWrap "error unmarshaling hit" EDecode)
          | Some hit => decodeHits rest (hits ++ [hit])
          end
      end
  end.

Definition extractHits (raw : object) : list Hit + Error :=
  match as_object (lookup "hits" raw) with
  | None => inr (ENew "hits not found in response")
  | Some hitsObj =>
      match as_array (lookup "hits" hitsObj) with
      | None => inr (ENew "hits array not found in response")
      | Some hitsArray => decodeHits hitsArray []
      end
  end.

(** The part of parseSearchResponse that follows the decoding of the
    body. *)
Definition parseRaw (raw : object) : SearchResult + Error :=
  match as_string (lookup "_scroll_id" raw) with
  | None => inr (ENew "scroll ID not found in response")
  | Some scrollID =>
      match extractTotalHits raw with
      | inr err => inr err
      | inl totalHits =>
          match extractHits raw with
          | inr err => inr err
          | inl hits => inl (mkSearchResult scrollID totalHits hits)
          end
      end
  end.

Definition parseSearchResponse (res : Response) : SearchResult + Error :=
  match decode_into [] (Body res) with
  | None => inr (EWrap "error parsing response body" EDecode)
  | Some raw => parseRaw raw
  end.

(** *** processHits *)

Fixpoint processHits (hits : list Hit) : M (option Error) :=
  match hits with
  | [] => ret None
  | hit :: rest =>
      if String.eqb (Title hit) "" then
        Sys.say (Say "Title field not found in this document.") ;;;
        processHits rest
      else
        err <- Sys.WriteString (Text (Title hit)) ;;
        match err with
        | Some e => ret (Some (EWrap "error writing to file" e))
        | None => processHits rest
        end
  end.

(** *** clearScroll *)

Definition clearScroll (ctx : Context) (scrollID : string) : M (option Error) :=
  r <- Sys.perform (CClearScroll scrollID) ;;
  match r with
  | inr err => ret (Some err)
  | inl res =>
      (if IsError res
       then Sys.say (SayResponse "Error in clear scroll response: %s" res)
       else ret tt) ;;;
      ret None
  end.

(** *** executeSearch *)

(** The [for] loop: [inl scrollID] when it is left by [break], with the
    scroll id held at that point, [inr err] when it is left by
    [return err]. *)
Fixpoint scrollLoop (fuel : nat) (ctx : Context) (cfg : Config)
         (scrollID : string) : M (string + Error) :=
  match fuel with
  | O => halt OutOfFuel
  | S fuel' =>
      cancelled <- Sys.ctxErr ctx ;;
      if cancelled then
        Sys.say (Say "Context cancelled, stopping scroll") ;;;
        ret (inl scrollID)
      else
        r <- Sys.perform (CScroll scrollID (ScrollDuration cfg)) ;;
        match r with
        | inr err => ret (inr (EWrap "scroll request failed" err))
        | inl res =>
            if IsError res then ret (inr (EResponse "scroll response error" res))
            else
              match parseSearchResponse res with
              | inr err => ret (inr err)
              | inl result =>
                  match Hits result with
                  | [] =>
                      Sys.say (Say "No more hits to process.") ;;;
                      ret (inl scrollID)
                  | _ :: _ =>
                      err <- processHits (Hits result) ;;
                      match err with
                      | Some e => ret (inr e)
                      | None => scrollLoop fuel' ctx cfg (ScrollID result)
                      end
                  end
              end
        end
  end.

(** What follows the loop: the release of the cursor, whose error is
    logged and dropped. *)
Definition finish (ctx : Context) (scrollID : string) : M (option Error) :=
  err <- clearScroll ctx scrollID ;;
  (match err with
   | Some e => Sys.say (SayErr "Error clearing scroll: %v" e)
   | None => ret tt
   end) ;;;
  ret None.

Definition executeSearch (ctx : Context) (query : string) (cfg : Config)
  : M (option Error) :=
  '(res, err) <- retryWithBackoff ctx
      (Sys.perform (CSearch (IndexName cfg) query (BatchSize cfg) (ScrollDuration cfg))) ;;
  match err with
  | Some e => ret (Some (EWrap "initial search failed" e))
  | None =>
      match res with
      | None => Sys.panic
      | Some res =>
          match parseSearchResponse res with
          | inr e => ret (Some e)
          | inl result =>
              Sys.say (SayInt "Total hits: %d" (TotalHits result)) ;;;
              werr <- processHits (Hits result) ;;
              match werr with
              | Some e => ret (Some e)
              | None =>
                  fuel <- Sys.patience ;;
                  r <- scrollLoop fuel ctx cfg (ScrollID result) ;;
                  match r with
                  | inr e => ret (Some e)
                  | inl scrollID => finish ctx scrollID
                  end
              end
          end
      end
  end.

End Refactored.

(* ================================================================= *)
(** ** The page count both older entry points report *)

(** [(total + batchSize - 1) / batchSize] on Go ints; [None] is the panic
    of a division by zero. *)
Definition totalPages (total batchSize : Z) : option Z :=
  GoInt.div (GoInt.sub (GoInt.add total batchSize) 1) batchSize.

(* ================================================================= *)
(** ** client/elasticsearch.go *)

Module Client.

Import Backoff.

(** The wrapped engine client is the scripted engine of the world. *)
Record ESClient : Type := mkESClient
  { scrollDuration : Z;
    batchSize : Z;
    indexName : string }.

Definition NewESClient (scrollDuration batchSize : Z) (indexName : string) : ESClient :=
  mkESClient scrollDuration batchSize indexName.

Record ScrollResult : Type := mkScrollResult
  { ScrollID : string;
    Hits : list object;
    Total : Z }.

Definition newBackoffConfig : M ExponentialBackOff :=
  b <- NewExponentialBackOff ;;
  ret (mkExp (1 * Second) (RandomizationFactor b) (Multiplier b)
             (30 * Second) (5 * Minute) (currentInterval b) (startTime b)).

Definition handleESResponse (r : Response + Error) : option Error :=
  match r with
  | inr err => Some (EWrap "elasticsearch request failed" err)
  | inl res =>
      if IsError res then Some (EResponse "elasticsearch response error" res)
      else None
  end.

(** The closure both InitialSearch and Scroll hand to Retry; [res] is
    assigned by every call. *)
Definition attempt (c : Call) : Operation (option Response) :=
  fun _ =>
    r <- Sys.perform c ;;
    ret (handleESResponse r, match r with inl res => Some res | inr _ => None end).

(** A type assertion without the comma-ok form panics when it fails. *)
Definition must {A} (x : option A) : M A :=
  match x with Some a => ret a | None => Sys.panic end.

Fixpoint sources (hits : list value) : M (list object) :=
  match hits with
  | [] => ret []
  | hit :: rest =>
      hitMap <- must (as_object (Some hit)) ;;
      source <- must (as_object (lookup "_source" hitMap)) ;;
      more <- sources rest ;;
      ret (source :: more)
  end.

Definition parseScrollResponse (body : option value) : M (ScrollResult + Error) :=
  match decode_into [] body with
  | None => ret (inr (EWrap "failed to parse response" EDecode))
  | Some result =>
      match as_string (lookup "_scroll_id" result) with
      | None => ret (inr (ENew "scroll ID not found in response"))
      | Some scrollID =>
          hitsObj <- must (as_object (lookup "hits" result)) ;;
          totalObj <- must (as_object (lookup "total" hitsObj)) ;;
          value <- must (as_float64 (lookup "value" totalObj)) ;;
          let total := GoInt.of_float64 value in
          hits <- must (as_array (lookup "hits" hitsObj)) ;;
          processedHits <- sources hits ;;
          ret (inl (mkScrollResult scrollID processedHits total))
      end
  end.

Definition InitialSearch (c : ESClient) (ctx : Context) (query : string)
  : M (ScrollResult + Error) :=
  backoffConfig <- newBackoffConfig ;;
  '(err, res) <- Retry
      (attempt (CSearch (indexName c) query (batchSize c) (scrollDuration c)))
      (Bare backoffConfig) None ;;
  match err with
  | Some e => ret (inr (EWrap "initial search failed" e))
  | None =>
      res <- must res ;;
      parseScrollResponse (Body res)
  end.

Definition Scroll (c : ESClient) (ctx : Context) (scrollID : string)
  : M (ScrollResult + Error) :=
  backoffConfig <- newBackoffConfig ;;
  '(err, res) <- Retry
      (attempt (CScroll scrollID (scrollDuration c)))
      (Bare backoffConfig) None ;;
  match err with
  | Some e => ret (inr (EWrap "scroll request failed" e))
  | None =>
      res <- must res ;;
      parseScrollResponse (Body res)
  end.

Definition ClearScroll (c : ESClient) (ctx : Context) (scrollID : string)
  : M (option Error) :=
  r <- Sys.perform (CClearScroll scrollID) ;;
  match r with
  | inr err => ret (Some err)
  | inl _ => ret None
  end.

End Client.

(* ================================================================= *)
(** ** processor/processor.go *)

Module Processor.

Fixpoint ProcessHits (hits : list object) : M (option Error) :=
  match hits with
  | [] => ret None
  | hit :: rest =>
      match lookup "title" hit with
      | Some message =>
          err <- Sys.WriteString (Sprintf_s message) ;;
          match err with
          | Some e => ret (Some (EWrap "failed to write to file" e))
          | None => ProcessHits rest
          end
      | None => ProcessHits rest
      end
  end.

End Processor.

(* ================================================================= *)
(** ** The main.go that drives client and processor *)

Module Modular.

Import Backoff.

Record Config : Type := mkConfig
  { ElasticsearchURL : string;
    BatchSize : Z;
    ScrollDuration : Z;
    OutputPath : string;
    IndexName : string }.

(** config.NewConfig, for the address the environment names. *)
Definition NewConfig (url : string) : Config :=
  mkConfig url 6 Minute "/app/data/logs.txt" "sample_data".

Fixpoint pages (fuel : nat) (c : Client.ESClient) (ctx : Context)
         (result : Client.ScrollResult) (currentPage totalPages : Z)
  : M Client.ScrollResult :=
  match fuel with
  | O => halt OutOfFuel
  | S fuel' =>
      let currentPage := GoInt.add currentPage 1 in
      Sys.say (SayInts "Processing page %d of %d" currentPage totalPages) ;;;
      r <- Client.Scroll c ctx (Client.ScrollID result) ;;
      match r with
      | inr err => Sys.fatal (SayErr "Failed to scroll: %v" err)
      | inl result =>
          match Client.Hits result with
          | [] =>
              Sys.say (Say "No more hits to process") ;;;
              ret result
          | _ :: _ =>
              err <- Processor.ProcessHits (Client.Hits result) ;;
              match err with
              | Some e => Sys.fatal (SayErr "Failed to process hits: %v" e)
              | None => pages fuel' c ctx result currentPage totalPages
              end
          end
      end
  end.

(** [main], from the creation of the scroll client on; [queryStr] is the
    query text after the placeholder has been replaced. *)
Definition main (cfg : Config) (queryStr : string) : M unit :=
  let scrollClient :=
    Client.NewESClient (ScrollDuration cfg) (BatchSize cfg) (IndexName cfg) in
  let ctx := Background in
  r <- Client.InitialSearch scrollClient ctx queryStr ;;
  match r with
  | inr err => Sys.fatal (SayErr "Failed to perform initial search: %v" err)
  | inl result =>
      total <- Client.must (totalPages (Client.Total result) (BatchSize cfg)) ;;
      let currentPage := 1 in
      Sys.say (SayInts "Processing page %d of %d" currentPage total) ;;;
      err <- Processor.ProcessHits (Client.Hits result) ;;
      match err with
      | Some e => Sys.fatal (SayErr "Failed to process hits: %v" e)
      | None =>
          fuel <- Sys.patience ;;
          result <- pages fuel scrollClient ctx result currentPage total ;;
          err <- Client.ClearScroll scrollClient ctx (Client.ScrollID result) ;;
          match err with
          | Some e => Sys.say (SayErr "Warning: failed to clear scroll: %v" e)
          | None => ret tt
          end
      end
  end.

End Modular.

(* ================================================================= *)
(** ** The single-file main.go (the one that reads query.json) *)

Module Monolith.

Import Backoff.

Definition must {A} (x : option A) : M A :=
  match x with Some a => ret a | None => Sys.panic end.

(** processHits of this file: unchecked assertions, a fatal write error
    and a diagnostic for a record without the field. *)
Fixpoint eachHit (hits : list value) : M unit :=
  match hits with
  | [] => ret tt
  | hit :: rest =>
      hitMap <- must (as_object (Some hit)) ;;
      source <- must (as_object (lookup "_source" hitMap)) ;;
      match lookup "title" source with
      | Some message =>
          err <- Sys.WriteString (Sprintf_s message) ;;
          match err with
          | Some e => Sys.fatal (SayErr "Error writing to the file: %s" e)
          | None => eachHit rest
          end
      | None =>
          Sys.say (Say "Message field not found in this document.") ;;;
          eachHit rest
      end
  end.

Definition processHits (hits : list value) : M unit :=
  Sys.say (Say "Process the next batch of Hits") ;;;
  eachHit hits.

Definition backoffConfig : M ExponentialBackOff :=
  b <- NewExponentialBackOff ;;
  ret (mkExp (1 * Second) (RandomizationFactor b) (Multiplier b)
             (30 * Second) (5 * Minute) (currentInterval b) (startTime b)).

(** The two closures handed to Retry. *)
Definition searchOnce (query : string) (batchSize : Z) : Operation (option Response) :=
  fun _ =>
    r <- Sys.perform (CSearch "sample_data" query batchSize Minute) ;;
    match r with
    | inr err =>
        Sys.say (SayErr "Error getting response from Elasticsearch: %s" err) ;;;
        ret (Some err, None)
    | inl res =>
        if IsError res then
          Sys.say (SayResponse "Error in search response: %s" res) ;;;
          ret (Some (ENew "search response error"), Some res)
        else ret (None, Some res)
    end.

Definition scrollOnce (scrollID : string) : Operation (option Response) :=
  fun _ =>
    r <- Sys.perform (CScroll scrollID Minute) ;;
    match r with
    | inr err =>
        Sys.say (SayErr "Error during scroll: %s" err) ;;;
        ret (Some err, None)
    | inl res =>
        if IsError res then
          Sys.say (SayResponse "Error in scroll response: %s" res) ;;;
          ret (Some (ENew "scroll response error"), Some res)
        else ret (None, Some res)
    end.

(** [result["hits"].(map[string]interface{})["hits"].([]interface{})] *)
Definition hitsOf (result : object) : M (list value) :=
  hitsObj <- must (as_object (lookup "hits" result)) ;;
  must (as_array (lookup "hits" hitsObj)).

(** The loop over the remaining batches; [result] is the map every
    response is decoded into.  It yields the scroll id held when the
    loop is left. *)
Fixpoint batches (fuel : nat) (cfg : ExponentialBackOff) (result : object)
         (scrollID : string) (currentPage totalPages : Z) : M string :=
  match fuel with
  | O => halt OutOfFuel
  | S fuel' =>
      let currentPage := GoInt.add currentPage 1 in
      Sys.say (SayInts "Processing page %d of %d" currentPage totalPages) ;;;
      '(err, res) <- Retry (scrollOnce scrollID) (Bare cfg) None ;;
      match err with
      | Some e => Sys.fatal (SayErr "Failed to execute scroll request: %s" e)
      | None =>
          res <- must res ;;
          match decode_into result (Body res) with
          | None =>
              Sys.fatal (SayErr "Error parsing the scroll response body: %s" EDecode)
          | Some result =>
              hits <- hitsOf result ;;
              match hits with
              | [] =>
                  Sys.say (Say "No more hits to process.") ;;;
                  ret scrollID
              | _ :: _ =>
                  Sys.say (SayInts "Processing page %d of %d" currentPage totalPages) ;;;
                  processHits hits ;;;
                  match as_string (lookup "_scroll_id" result) with
                  | None => Sys.fatal (Say "Error retrieving scroll ID")
                  | Some scrollID =>
                      batches fuel' cfg result scrollID currentPage totalPages
                  end
              end
          end
      end
  end.

(** [main], from the choice of the batch size on; [query] is the text
    read from query.json. *)
Definition main (query : string) : M unit :=
  let batchSize := 6 in
  cfg <- backoffConfig ;;
  '(err, res) <- Retry (searchOnce query batchSize) (Bare cfg) None ;;
  match err with
  | Some e => Sys.fatal (SayErr "Failed to execute initial search request: %s" e)
  | None =>
      res <- must res ;;
      match decode_into [] (Body res) with
      | None => Sys.fatal (SayErr "Error parsing the response body: %s" EDecode)
      | Some result =>
          match as_string (lookup "_scroll_id" result) with
          | None => Sys.fatal (Say "Error retrieving scroll ID")
          | Some scrollID =>
              hitsObj <- must (as_object (lookup "hits" result)) ;;
              totalObj <- must (as_object (lookup "total" hitsObj)) ;;
              value <- must (as_float64 (lookup "value" totalObj)) ;;
              let totalHits := GoInt.of_float64 value in
              totalPages <- must (totalPages totalHits batchSize) ;;
              Sys.say (SayInts "Total hits: %d, Total pages: %d" totalHits totalPages) ;;;
              let currentPage := 1 in
              Sys.say (SayInts "Processing page %d of %d" currentPage totalPages) ;;;
              hits <- hitsOf result ;;
              processHits hits ;;;
              fuel <- Sys.patience ;;
              scrollID <- batches fuel cfg result scrollID currentPage totalPages ;;
              r <- Sys.perform (CClearScroll scrollID) ;;
              match r with
              | inr e => Sys.fatal (SayErr "Error clearing scroll: %s" e)
              | inl _ => ret tt
              end
          end
      end
  end.

End Monolith.

(* ================================================================= *)
(** * Specification vocabulary *)

(** ** Vocabulary: the response parser *)

(** What a well-formed response object holds. *)
Definition has_cursor (raw : object) (s : string) : Prop :=
  lookup "_scroll_id" raw = Some (JString s).

Definition has_total (raw : object) (f : float) : Prop :=
  exists hitsObj totalObj,
    lookup "hits" raw = Some (JObject hitsObj)
    /\ lookup "total" hitsObj = Some (JObject totalObj)
    /\ lookup "value" totalObj = Some (JNumber f).

Definition has_records (raw : object) (records : list value) : Prop :=
  exists hitsObj,
    lookup "hits" raw = Some (JObject hitsObj)
    /\ lookup "hits" hitsObj = Some (JArray records).

(** What a record holds for its document: the values under the keys
    that spell [_source], in any letter case, in the order of the keys. *)
Definition documents (fields : object) : list value := entries "_source" fields.

(** What the documents that are objects hold for the title, likewise. *)
Definition titles (fields : object) : list value :=
  flat_map (fun document => match document with
                            | JObject source => entries "title" source
                            | _ => []
                            end) (documents fields).

Definition object_or_null (v : value) : bool :=
  match v with JNull | JObject _ => true | _ => false end.

Definition string_or_null (v : value) : bool :=
  match v with JNull | JString _ => true | _ => false end.

(** The last string among some values, the empty string when there is
    none. *)
Definition last_string (vs : list value) : string :=
  fold_left (fun t v => match v with JString s => s | _ => t end) vs "".

(** The records the Hit structure accepts, with the title it ends up
    holding: [null], and an object in which every document is an object
    or [null] and every title a string or [null].  A record that has no
    document, or whose documents have no title, is accepted with the
    empty title. *)
Inductive accepts : value -> Refactored.Hit -> Prop :=
| accepts_null :
    accepts JNull (Refactored.mkHit "")
| accepts_record fields :
    marshalable (JObject fields) = true ->
    forallb object_or_null (documents fields) = true ->
    forallb string_or_null (titles fields) = true ->
    accepts (JObject fields) (Refactored.mkHit (last_string (titles fields))).

Definition well_formed (raw : object) (r : Refactored.SearchResult) : Prop :=
  exists f records,
    has_cursor raw (Refactored.ScrollID r)
    /\ has_total raw f
    /\ Refactored.TotalHits r = GoInt.of_float64 f
    /\ has_records raw records
    /\ Forall2 accepts records (Refactored.Hits r).


(** ** Sample engines *)

Module Sample.

(** A record whose document carries the title [t], and one whose document
    carries another field only. *)
Definition titled (t : string) : value :=
  JObject [("_source", JObject [("title", JString t)])].

Definition untitled : value :=
  JObject [("_source", JObject [("body", JString "no title here")])].

(** A well-formed page: cursor, total and records. *)
Definition page (cursor : string) (total : float) (records : list value) : Reply :=
  Replied (mkResponse 200
    (Some (JObject
             [("_scroll_id", JString cursor);
              ("hits", JObject [("total", JObject [("value", JNumber total)]);
                                ("hits", JArray records)])]))).

Definition acknowledged : Reply :=
  Replied (mkResponse 200 (Some (JObject [("succeeded", JBool true)]))).

(** Every answer takes a millisecond. *)
Definition answers (replies : list Reply) : list Exchange :=
  map (mkExchange Backoff.Millisecond) replies.

(** A fresh run: time zero, no shutdown signal, a fair random source that
    is never consulted beyond its end, an empty output file that accepts
    every write. *)
Definition fresh (replies : list Reply) : World :=
  mkWorld 0 None (answers replies) [] [] None.

Definition cfg : Refactored.Config :=
  Refactored.mkConfig "http://localhost:9200" "sample_data" "query.json"
                      "data/logs.txt" 6 Backoff.Minute false.

(** One record, then the empty page under a new cursor, then the
    acknowledgement of the release. *)
Definition renewed_cursor : list Reply :=
  [page "c0" 1 [titled "a"]; page "c1" 1 []; acknowledged].

(** One record, a connection reset during the first scroll, then the
    empty page. *)
Definition flaky_scroll : list Reply :=
  [page "c0" 1 [titled "a"]; Unreachable "connection reset";
   page "c0" 1 []; acknowledged].

(** One record, the empty page, and a release that cannot reach the
    engine. *)
Definition failed_release : list Reply :=
  [page "c0" 1 [titled "a"]; page "c0" 1 []; Unreachable "connection reset"].

End Sample.

(** ** Vocabulary: what a run leaves behind *)

(** The result of a run, the requests it issued, the lines it wrote and
    what it logged. *)
Definition observe {A} (run : Res A * World)
  : Res A * list Call * list Line * list LogLine :=
  (fst run, calls (journal (snd run)), written (journal (snd run)),
   logged (journal (snd run))).

(** ** Vocabulary: the retrying executor *)

Module Executor.

Import Backoff.

(** The policy all three entry points build: the library's randomisation
    and multiplier, the intervals and the budget the programs set, and an
    interval within its bounds. *)
Definition tuned (e : ExponentialBackOff) : Prop :=
  InitialInterval e = 1 * Second
  /\ RandomizationFactor e = 1 # 2
  /\ Multiplier e = 3 # 2
  /\ MaxInterval e = 30 * Second
  /\ MaxElapsedTime e = 5 * Minute
  /\ 1 * Second <= currentInterval e <= 30 * Second.

(** The same, as the programs leave it before Retry resets the private
    fields. *)
Definition configured (e : ExponentialBackOff) : Prop :=
  InitialInterval e = 1 * Second
  /\ RandomizationFactor e = 1 # 2
  /\ Multiplier e = 3 # 2
  /\ MaxInterval e = 30 * Second
  /\ MaxElapsedTime e = 5 * Minute.

(** The policy as Reset leaves it at time [t]. *)
Definition reset_at (t : Z) (e : ExponentialBackOff) : ExponentialBackOff :=
  mkExp (InitialInterval e) (RandomizationFactor e) (Multiplier e)
        (MaxInterval e) (MaxElapsedTime e) (InitialInterval e) t.

(** The answer the engine gives to the next request. *)
Definition next_answer (w : World) : Reply :=
  match engine w with
  | [] => Unreachable "connection refused"
  | x :: _ => reply x
  end.

(** The time that answer arrives. *)
Definition back (w : World) : Z :=
  match engine w with
  | [] => clock w
  | x :: _ => clock w + Z.max 0 (latency x)
  end.

(** An answer that ends the retrying: a response that is no error. *)
Definition succeeded (a : Reply) : bool :=
  match a with
  | Replied r => negb (IsError r)
  | Unreachable _ => false
  end.

(** The world with some lines logged. *)
Definition noted (notes : list LogLine) (w : World) : World :=
  mkWorld (clock w) (cancelAt w) (engine w) (dice w)
          (journal w ++ map Log notes) (quota w).

(** A logged line that reports an error or a response. *)
Definition is_report (l : LogLine) : Prop :=
  match l with
  | SayErr _ _ | SayResponse _ _ => True
  | _ => False
  end.

(** An operation that issues the request [c] once, may log what came
    back, keeps the response in its captured variable and fails exactly
    when there is no response or the response is an error. *)
Definition attempting (c : Call) (op : Operation (option Response)) : Prop :=
  forall v w, exists err res notes,
    op v w = (Ret (err, res), noted notes (snd (Sys.roundTrip c w)))
    /\ (err = None <-> succeeded (next_answer w) = true)
    /\ (forall r, next_answer w = Replied r -> res = Some r)
    /\ Forall is_report notes.

(** One round of Retry's loop: the attempt and, after a failure, the
    decision to give up ([inl]) or the wait before the next round
    ([inr]). *)
Definition round {V} (operation : Operation V) (b : BackOff) (v : V)
  : M ((option Error * V) + (BackOff * V)) :=
  '(err, v') <- operation v ;;
  match err with
  | None => ret (inl (None, v'))
  | Some e =>
      '(next, b') <- NextBackOff b ;;
      match next with
      | None =>
          cancelled <- Sys.ctxErr (getContext b) ;;
          if cancelled then ret (inl (Some ECanceled, v'))
          else ret (inl (Some e, v'))
      | Some d =>
          fired <- Sys.sleep (getContext b) d ;;
          if fired then ret (inr (b', v'))
          else ret (inl (Some ECanceled, v'))
      end
  end.

(** The time from which a run of Retry under the policy [b] is cancelled,
    if it ever is: a bare policy runs under the background context. *)
Definition guard (b : BackOff) (w : World) : option Z :=
  match getContext b with
  | Cancellable => cancelAt w
  | Background => None
  end.

(** What a round of a tuned policy around an attempting operation comes
    to, from the world [w] it starts in: success on an answer that is no
    failure, at the time of the answer; giving up after a failure, at the
    time of the answer or, when the wait was cut short, at the time the
    context was cancelled; or another round, after a wait of at least half
    a second that ends within the budget and before any cancellation. *)
Definition round_outcome (b : BackOff) (w : World)
           (x : (option Error * option Response) + (BackOff * option Response))
           (w' : World) : Prop :=
  match x with
  | inl (None, res) =>
      succeeded (next_answer w) = true
      /\ (forall r, next_answer w = Replied r -> res = Some r)
      /\ clock w' = back w
  | inl (Some e, _) =>
      succeeded (next_answer w) = false
      /\ (clock w' = back w
          \/ (e = ECanceled /\ getContext b = Cancellable
              /\ exists c0, cancelAt w = Some c0 /\ back w < c0 /\ clock w' = c0))
      /\ (5 * Minute < back w - startTime (policy b) + 45 * Second
          \/ exists c0, guard b w = Some c0)
  | inr (b', _) =>
      succeeded (next_answer w) = false
      /\ tuned (policy b')
      /\ getContext b' = getContext b
      /\ startTime (policy b') = startTime (policy b)
      /\ clock w' - startTime (policy b) <= 5 * Minute
      /\ back w + 500 * Millisecond <= clock w'
      /\ (getContext b = Cancellable ->
          forall c0, cancelAt w = Some c0 -> clock w' < c0)
  end.

(** The rounds of one call of Retry, from the policy, captured variables
    and world of a round to the result and the world it ends in. *)
Inductive retrying {V} (operation : Operation V)
  : BackOff -> V -> World -> option Error * V -> World -> Prop :=
| retrying_last b v w r w' :
    round operation b v w = (Ret (inl r), w') ->
    retrying operation b v w r w'
| retrying_again b v w b1 v1 w1 r w' :
    round operation b v w = (Ret (inr (b1, v1)), w1) ->
    retrying operation b1 v1 w1 r w' ->
    retrying operation b v w r w'.

(** The requests among some effects, with their times. *)
Definition is_request (e : Effect) : bool :=
  match e with Request _ _ _ _ => true | _ => false end.

Definition issued_at (e : Effect) : Z :=
  match e with Request t _ _ _ => t | _ => 0 end.

Definition answered_at (e : Effect) : Z :=
  match e with Request _ t _ _ => t | _ => 0 end.

Definition answer_in (e : Effect) : Reply :=
  match e with Request _ _ _ a => a | _ => Unreachable "" end.

(** An effect of an attempt at [c]: the request itself or a line logged
    about it. *)
Definition attempt_effect (c : Call) (e : Effect) : Prop :=
  match e with
  | Request _ _ c' _ => c' = c
  | Log l => is_report l
  | Write _ => False
  end.

(** A request issued within the budget that started at [start], and, when
    the run is cancelled from [c0] on, either the request issued at
    [first] or one issued before [c0]. *)
Definition within (start : Z) (cancelled : option Z) (first : Z) (e : Effect) : Prop :=
  is_request e = true ->
  issued_at e - start <= 5 * Minute
  /\ match cancelled with
     | Some c0 => issued_at e = first \/ issued_at e < c0
     | None => True
     end.

(** What one call of Retry adds to the journal and where it leaves the
    clock: failed attempts, then the last attempt, answered at [t'], and
    the lines logged about it; Retry returns when that answer arrives, or
    at the time of the cancellation that cut its wait short.  A first
    attempt that fails is not the last one when the run cannot be
    cancelled and the budget covers the longest wait. *)
Definition retry_summary (c : Call) (b : BackOff) (w : World)
           (r : option Error * option Response) (w' : World) : Prop :=
  exists pre t t' a notes,
    journal w' = journal w ++ pre ++ Request t t' c a :: map Log notes
    /\ Forall is_report notes
    /\ Forall (attempt_effect c) pre
    /\ Forall (fun e => succeeded (answer_in e) = false) pre
    /\ Forall (within (startTime (policy b)) (guard b w) (clock w))
              (pre ++ [Request t t' c a])
    /\ match r with
       | (None, res) => succeeded a = true /\ exists x, a = Replied x /\ res = Some x
       | (Some _, _) => succeeded a = false
       end
    /\ (clock w' = t'
        \/ (fst r = Some ECanceled
            /\ exists c0, guard b w = Some c0 /\ t' < c0 /\ clock w' = c0))
    /\ (succeeded (next_answer w) = false ->
        guard b w = None ->
        back w - startTime (policy b) + 45 * Second <= 5 * Minute ->
        pre <> []).

End Executor.

(** ** Vocabulary: the pagination loop of refactored/main.go *)

Module Paging.

Import Executor.

(** The time from which the context of a run is done, if ever. *)
Definition horizon (ctx : Context) (w : World) : option Z :=
  match ctx with
  | Cancellable => cancelAt w
  | Background => None
  end.

(** Issued before the context is done. *)
Definition before (cancelled : option Z) (t : Z) : Prop :=
  match cancelled with
  | Some c0 => t < c0
  | None => True
  end.

(** The page an answer to a scroll holds: a response that is no error and
    that the parser accepts. *)
Definition page_of (a : Reply) : option Refactored.SearchResult :=
  match a with
  | Replied res =>
      if IsError res then None
      else match Refactored.parseSearchResponse res with
           | inl result => Some result
           | inr _ => None
           end
  | Unreachable _ => None
  end.

(** A page result whose record list is empty. *)
Definition drained (a : Reply) : bool :=
  match page_of a with
  | Some result =>
      match Refactored.Hits result with
      | [] => true
      | _ :: _ => false
      end
  | None => false
  end.

(** What processHits does to the outside: lines written, and the
    diagnostic for a record without a title. *)
Definition is_output (e : Effect) : Prop :=
  match e with
  | Write _ => True
  | Log l => l = Say "Title field not found in this document."
  | Request _ _ _ _ => False
  end.

(** The journal of the loop that starts holding the cursor [id], and how
    the loop is left: [inl] by break, with the cursor held then, [inr] by
    return.  Every scroll is issued before the context is done. *)
Inductive paging (ttl : Z) (cancelled : option Z)
  : string -> list Effect -> string + Error -> Prop :=
| paging_stopped id :
    paging ttl cancelled id
           [Log (Say "Context cancelled, stopping scroll")] (inl id)
| paging_drained id t t' a :
    before cancelled t ->
    drained a = true ->
    paging ttl cancelled id
           [Request t t' (CScroll id ttl) a; Log (Say "No more hits to process.")]
           (inl id)
| paging_failed id t t' a e :
    before cancelled t ->
    page_of a = None ->
    paging ttl cancelled id [Request t t' (CScroll id ttl) a] (inr e)
| paging_unwritten id t t' a out e :
    before cancelled t ->
    drained a = false ->
    Forall is_output out ->
    paging ttl cancelled id (Request t t' (CScroll id ttl) a :: out) (inr e)
| paging_on id t t' a result out j x :
    before cancelled t ->
    page_of a = Some result ->
    drained a = false ->
    Forall is_output out ->
    paging ttl cancelled (Refactored.ScrollID result) j x ->
    paging ttl cancelled id (Request t t' (CScroll id ttl) a :: out ++ j) x.

(** The release of the cursor [id]: the request and what is logged about
    its failure. *)
Definition released (id : string) (fin : list Effect) : Prop :=
  exists t t' a notes,
    fin = Request t t' (CClearScroll id) a :: map Log notes
    /\ Forall is_report notes.

(** What executeSearch does after the attempts at the initial search, and
    the error it returns. *)
Inductive concluding (ttl : Z) (cancelled : option Z)
  : list Effect -> option Error -> Prop :=
| concluding_unparsed e :
    concluding ttl cancelled [] (Some e)
| concluding_unwritten n out e :
    Forall is_output out ->
    concluding ttl cancelled (Log (SayInt "Total hits: %d" n) :: out) (Some e)
| concluding_aborted n out id j e :
    Forall is_output out ->
    paging ttl cancelled id j (inr e) ->
    concluding ttl cancelled (Log (SayInt "Total hits: %d" n) :: out ++ j) (Some e)
| concluding_released n out id j id' fin :
    Forall is_output out ->
    paging ttl cancelled id j (inl id') ->
    released id' fin ->
    concluding ttl cancelled
               (Log (SayInt "Total hits: %d" n) :: out ++ j ++ fin) None.

(** An effect that is no scroll request, and one that is no plain
    remark in the log. *)
Definition no_scroll (e : Effect) : Prop :=
  match e with
  | Request _ _ (CScroll _ _) _ => False
  | _ => True
  end.


End Paging.

(** ** Vocabulary: the loop of the main.go that drives the client *)

Module Turning.

Import Executor.

(** A world in which nothing has happened; the parser of the client
    neither reads nor changes the world it runs in. *)
Definition nowhere : World := mkWorld 0 None [] [] [] None.

(** What parseScrollResponse makes of a body. *)
Definition parsed (body : option value) : Res (Client.ScrollResult + Error) :=
  fst (Client.parseScrollResponse body nowhere).

(** A page result whose record list is empty, as the client sees it. *)
Definition drained (a : Reply) : bool :=
  match a with
  | Replied x =>
      negb (IsError x)
      && match parsed (Body x) with
         | Ret (inl result) =>
             match Client.Hits result with
             | [] => true
             | _ :: _ => false
             end
         | _ => false
         end
  | Unreachable _ => false
  end.

(** An effect that is no request answered by an empty page. *)
Definition undrained (e : Effect) : Prop :=
  match e with
  | Request _ _ _ a => drained a = false
  | _ => True
  end.

(** A journal in which a request answered by an empty page is the last
    request, and whose run then satisfies [ok]. *)
Definition ends_when_drained (j : list Effect) (ok : Prop) : Prop :=
  forall pre t t' c a post,
    j = pre ++ Request t t' c a :: post ->
    drained a = true ->
    ok /\ calls post = [].

End Turning.

(** ** Vocabulary: what a run is expected to write *)

Module Ledger.

(** The lines processHits of refactored/main.go writes for a page: the
    titles that are not empty, in the order of the records. *)
Definition lines_of_hits (hits : list Refactored.Hit) : list Line :=
  map (fun hit => Text (Refactored.Title hit))
      (filter (fun hit => negb (String.eqb (Refactored.Title hit) "")) hits).

(** The number of records processHits logs as lacking the title. *)
Definition blanks (hits : list Refactored.Hit) : nat :=
  List.length (filter (fun hit => String.eqb (Refactored.Title hit) "") hits).

(** The lines the page in an answer stands for. *)
Definition page_lines (a : Reply) : list Line :=
  match Paging.page_of a with
  | Some result => lines_of_hits (Refactored.Hits result)
  | None => []
  end.

(** The lines the answers to the searches and scrolls of a journal stand
    for, in the order the answers arrived. *)
Definition expected (j : list Effect) : list Line :=
  flat_map (fun e => match e with
                     | Request _ _ (CClearScroll _) _ => []
                     | Request _ _ _ a => page_lines a
                     | _ => []
                     end) j.

(** The lines the client's processor writes for a page: the rendering of
    the title of every record that has one. *)
Definition lines_of_sources (hits : list object) : list Line :=
  flat_map (fun hit => match lookup "title" hit with
                       | Some message => [Sprintf_s message]
                       | None => []
                       end) hits.

(** The number of documents without the title key. *)
Definition untitled (sources : list object) : nat :=
  List.length (filter (fun source => match lookup "title" source with
                                     | None => true
                                     | Some _ => false
                                     end) sources).

End Ledger.

(** ** Vocabulary: the cursor a session holds *)

Module Session.

Import Paging.

(** The cursor held after the answer [a] to a scroll: the cursor of the
    page when the page has records, the cursor held before otherwise. *)
Definition advance (held : string) (a : Reply) : string :=
  match page_of a with
  | Some result =>
      match Refactored.Hits result with
      | [] => held
      | _ :: _ => Refactored.ScrollID result
      end
  | None => held
  end.

(** From the moment the cursor [held] is held: every scroll asks for the
    page after the cursor held at that point, with the scroll duration
    [ttl]; every release names the cursor held at that point; no search is
    issued. *)
Fixpoint threaded (ttl : Z) (held : string) (j : list Effect) : Prop :=
  match j with
  | [] => True
  | Request _ _ (CScroll id ttl') a :: rest =>
      id = held /\ ttl' = ttl /\ threaded ttl (advance held a) rest
  | Request _ _ (CClearScroll id) _ :: rest =>
      id = held /\ threaded ttl held rest
  | Request _ _ (CSearch _ _ _ _) _ :: _ => False
  | _ :: rest => threaded ttl held rest
  end.

(** A session: searches [c] until one is answered by a page, whose cursor
    is the one held from then on. *)
Fixpoint opened (c : Call) (ttl : Z) (j : list Effect) : Prop :=
  match j with
  | [] => True
  | Request _ _ c' a :: rest =>
      c' = c
      /\ match page_of a with
         | Some result => threaded ttl (Refactored.ScrollID result) rest
         | None => opened c ttl rest
         end
  | _ :: rest => opened c ttl rest
  end.

(** The releases among some requests. *)
Definition is_release (c : Call) : bool :=
  match c with
  | CClearScroll _ => true
  | _ => false
  end.

Definition releases (j : list Effect) : list Call :=
  filter is_release (calls j).

(** Requests that are at least [gap] apart: each is issued no earlier
    than [gap] after the answer to the one before it, the first after the
    answer at [last] if there is one. *)
Fixpoint spaced (gap : Z) (last : option Z) (j : list Effect) : Prop :=
  match j with
  | [] => True
  | Request t t' _ _ :: rest =>
      match last with
      | Some r => r + gap <= t
      | None => True
      end
      /\ t <= t'
      /\ spaced gap (Some t') rest
  | _ :: rest => spaced gap last rest
  end.

End Session.

(** ** Further sample engines *)

Module Scenario.

Import Sample.

(** Two pages with records, one of them with a record that has no title,
    each page under a cursor of its own; then the empty page and the
    acknowledgement of the release. *)
Definition two_pages : list Reply :=
  [page "c0" 3 [titled "a"; untitled; titled "b"];
   page "c1" 3 [titled "c"];
   page "c2" 3 [];
   acknowledged].

(** A page whose records have a title, an empty title, a null title, no
    title, and a title again. *)
Definition mixed : Reply :=
  page "c0" 5
       [titled "a"; titled "";
        JObject [("_source", JObject [("title", JNull)])];
        untitled; titled "b"].

(** What the two parsers make of that page. *)
Definition mixed_result : Refactored.SearchResult :=
  Refactored.mkSearchResult "c0" 5
    [Refactored.mkHit "a"; Refactored.mkHit ""; Refactored.mkHit "";
     Refactored.mkHit ""; Refactored.mkHit "b"].

Definition mixed_scroll : Client.ScrollResult :=
  Client.mkScrollResult "c0"
    [[("title", JString "a")]; [("title", JString "")];
     [("title", JNull)]; [("body", JString "no title here")];
     [("title", JString "b")]] 5.

(** The records of TestProcessHits in main_test.go, and their documents. *)
Definition test_hits : list value :=
  [titled "Test message 1"; titled "Test message 2"].

Definition test_sources : list object :=
  [[("title", JString "Test message 1")]; [("title", JString "Test message 2")]].

(** A page whose record keeps the title under a capitalised key. *)
Definition capitalised : Reply :=
  page "c0" 1 [JObject [("_source", JObject [("Title", JString "x")])]].




(** The body of an answer. *)
Definition body (a : Reply) : option value :=
  match a with
  | Replied r => Body r
  | Unreachable _ => None
  end.

(** What executeSearch of refactored/main.go does against [two_pages]. *)
Definition two_pages_journal : list Effect :=
  [Request 0 1000000 (CSearch "sample_data" "q" 6 Backoff.Minute)
           (page "c0" 3 [titled "a"; untitled; titled "b"]);
   Log (SayInt "Total hits: %d" 3);
   Write (Text "a");
   Log (Say "Title field not found in this document.");
   Write (Text "b");
   Request 1000000 2000000 (CScroll "c0" Backoff.Minute) (page "c1" 3 [titled "c"]);
   Write (Text "c");
   Request 2000000 3000000 (CScroll "c1" Backoff.Minute) (page "c2" 3 []);
   Log (Say "No more hits to process.");
   Request 3000000 4000000 (CClearScroll "c1") acknowledged].

End Scenario.

(** ** Vocabulary: an output file that stops accepting writes *)

Module Disk.

(** What a file with the write allowance [q] takes of the lines offered to
    it in turn: all of them when the allowance is unlimited, the first [n]
    when it is [n]. *)
Definition accepted (q : option nat) (lines : list Line) : list Line :=
  match q with
  | None => lines
  | Some n => firstn n lines
  end.

(** Whether the allowance covers the lines. *)
Definition fits (q : option nat) (lines : list Line) : bool :=
  match q with
  | None => true
  | Some n => (List.length lines <=? n)%nat
  end.

(** The allowance left after the accepted lines. *)
Definition left (q : option nat) (lines : list Line) : option nat :=
  option_map (fun n => (n - List.length lines)%nat) q.

(** A line that is the text of a title that is not empty. *)
Definition proper (l : Line) : bool :=
  match l with
  | Text s => negb (String.eqb s "")
  | BadVerb _ => false
  end.

End Disk.

(** ** Vocabulary: the response parser of the client *)

Module Pages.

(** A record the client's parser takes: an object whose document is the
    object [source]. *)
Definition documented (record : value) (source : object) : Prop :=
  exists fields,
    record = JObject fields /\ lookup "_source" fields = Some (JObject source).

(** What a response object the client's parser takes holds, against the
    result made of it. *)
Definition formed (raw : object) (r : Client.ScrollResult) : Prop :=
  exists f records,
    has_cursor raw (Client.ScrollID r)
    /\ has_total raw f
    /\ Client.Total r = GoInt.of_float64 f
    /\ has_records raw records
    /\ Forall2 documented records (Client.Hits r).

(** An object whose keys are spelt as the field [name] wherever they are
    taken for it. *)
Definition plain (name : string) (fields : object) : bool :=
  forallb (fun kv => implb (matches name (fst kv)) (String.eqb (fst kv) name)) fields.

(** A record whose document and title are under keys spelt [_source] and
    [title], not under the same names in another letter case. *)
Definition plainly_keyed (record : value) : bool :=
  match record with
  | JObject fields =>
      plain "_source" fields
      && match lookup "_source" fields with
         | Some (JObject source) => plain "title" source
         | _ => true
         end
  | _ => true
  end.

End Pages.

(** ** Vocabulary: a run of the main.go that drives the client *)

Module Rounds.

Import Executor Turning Ledger Disk.

(** The page an answer holds for the client: a response that is no error
    and that the client's parser makes a result of. *)
Definition page_of (a : Reply) : option Client.ScrollResult :=
  match a with
  | Replied x =>
      if IsError x then None
      else match parsed (Body x) with
           | Ret (inl result) => Some result
           | _ => None
           end
  | Unreachable _ => None
  end.

(** What one retried request adds to the journal: failed attempts at [c],
    then the attempt answered by [a], and what is logged about it. *)
Definition fetched (c : Call) (a : Reply) (f : list Effect) : Prop :=
  exists pre t t' notes,
    f = pre ++ Request t t' c a :: map Log notes
    /\ Forall (attempt_effect c) pre
    /\ Forall (fun e => succeeded (answer_in e) = false) pre
    /\ Forall is_report notes.

(** The lines of the page an answer holds. *)
Definition lines_of (a : Reply) : list Line :=
  match page_of a with
  | Some result => lines_of_sources (Client.Hits result)
  | None => []
  end.

(** The lines the answers to the searches and scrolls of a journal stand
    for, in the order the answers arrived. *)
Definition expected (j : list Effect) : list Line :=
  flat_map (fun e => match e with
                     | Request _ _ (CClearScroll _) _ => []
                     | Request _ _ _ a => lines_of a
                     | _ => []
                     end) j.

(** The journal of the loop over the remaining pages, entered holding the
    result whose cursor is [id] after page [cur] of [tot], with a file
    whose allowance is [q]; and how the loop is left: with the last
    result, by exit or by panic. *)
Inductive turning (ttl tot : Z)
  : option nat -> string -> Z -> list Effect -> Res Client.ScrollResult -> Prop :=
| turning_failed q id cur f a e :
    fetched (CScroll id ttl) a f ->
    page_of a = None ->
    turning ttl tot q id cur
            (Log (SayInts "Processing page %d of %d" (GoInt.add cur 1) tot)
               :: f ++ [Log (SayErr "Failed to scroll: %v" e)])
            (Halt (Exited 1))
| turning_panicked q id cur f a :
    fetched (CScroll id ttl) a f ->
    page_of a = None ->
    turning ttl tot q id cur
            (Log (SayInts "Processing page %d of %d" (GoInt.add cur 1) tot) :: f)
            (Halt Panicked)
| turning_drained q id cur f a page :
    fetched (CScroll id ttl) a f ->
    page_of a = Some page ->
    Client.Hits page = [] ->
    turning ttl tot q id cur
            (Log (SayInts "Processing page %d of %d" (GoInt.add cur 1) tot)
               :: f ++ [Log (Say "No more hits to process")])
            (Ret page)
| turning_unwritten q id cur f a page :
    fetched (CScroll id ttl) a f ->
    page_of a = Some page ->
    fits q (lines_of_sources (Client.Hits page)) = false ->
    turning ttl tot q id cur
            (Log (SayInts "Processing page %d of %d" (GoInt.add cur 1) tot)
               :: f ++ map Write (accepted q (lines_of_sources (Client.Hits page)))
               ++ [Log (SayErr "Failed to process hits: %v"
                               (EWrap "failed to write to file" EWrite))])
            (Halt (Exited 1))
| turning_on q id cur f a page j x :
    fetched (CScroll id ttl) a f ->
    page_of a = Some page ->
    Client.Hits page <> [] ->
    fits q (lines_of_sources (Client.Hits page)) = true ->
    turning ttl tot (left q (lines_of_sources (Client.Hits page)))
            (Client.ScrollID page) (GoInt.add cur 1) j x ->
    turning ttl tot q id cur
            (Log (SayInts "Processing page %d of %d" (GoInt.add cur 1) tot)
               :: f ++ map Write (lines_of_sources (Client.Hits page)) ++ j)
            x.

(** The release of the cursor [id], and the warning about a release that
    did not reach the engine. *)
Definition released (id : string) (fin : list Effect) : Prop :=
  exists t t' a,
    fin = Request t t' (CClearScroll id) a
          :: match a with
             | Unreachable why =>
                 [Log (SayErr "Warning: failed to clear scroll: %v" (ETransport why))]
             | Replied _ => []
             end.

(** The journal of [main] for the search [c], with a file whose allowance
    is [q], and how [main] ends. *)
Inductive session (c : Call) (ttl batchSize : Z) (q : option nat)
  : list Effect -> Res unit -> Prop :=
| session_failed f a e :
    fetched c a f ->
    page_of a = None ->
    session c ttl batchSize q
            (f ++ [Log (SayErr "Failed to perform initial search: %v" e)])
            (Halt (Exited 1))
| session_panicked f a :
    fetched c a f ->
    page_of a = None ->
    session c ttl batchSize q f (Halt Panicked)
| session_unpaged f a result :
    fetched c a f ->
    page_of a = Some result ->
    batchSize = 0 ->
    session c ttl batchSize q f (Halt Panicked)
| session_unwritten f a result tot :
    fetched c a f ->
    page_of a = Some result ->
    totalPages (Client.Total result) batchSize = Some tot ->
    fits q (lines_of_sources (Client.Hits result)) = false ->
    session c ttl batchSize q
            (f ++ Log (SayInts "Processing page %d of %d" 1 tot)
               :: map Write (accepted q (lines_of_sources (Client.Hits result)))
               ++ [Log (SayErr "Failed to process hits: %v"
                               (EWrap "failed to write to file" EWrite))])
            (Halt (Exited 1))
| session_stopped f a result tot j why :
    fetched c a f ->
    page_of a = Some result ->
    totalPages (Client.Total result) batchSize = Some tot ->
    fits q (lines_of_sources (Client.Hits result)) = true ->
    turning ttl tot (left q (lines_of_sources (Client.Hits result)))
            (Client.ScrollID result) 1 j (Halt why) ->
    session c ttl batchSize q
            (f ++ Log (SayInts "Processing page %d of %d" 1 tot)
               :: map Write (lines_of_sources (Client.Hits result)) ++ j)
            (Halt why)
| session_released f a result tot j last fin :
    fetched c a f ->
    page_of a = Some result ->
    totalPages (Client.Total result) batchSize = Some tot ->
    fits q (lines_of_sources (Client.Hits result)) = true ->
    turning ttl tot (left q (lines_of_sources (Client.Hits result)))
            (Client.ScrollID result) 1 j (Ret last) ->
    released (Client.ScrollID last) fin ->
    session c ttl batchSize q
            (f ++ Log (SayInts "Processing page %d of %d" 1 tot)
               :: map Write (lines_of_sources (Client.Hits result)) ++ j ++ fin)
            (Ret tt).

(** The cursor held after the answer [a] to a scroll: the cursor of the
    page it holds, if any. *)
Definition advance (held : string) (a : Reply) : string :=
  match page_of a with
  | Some result => Client.ScrollID result
  | None => held
  end.

(** From the moment the cursor [held] is held: every scroll asks for the
    page after the cursor held at that point, with the scroll duration
    [ttl]; every release names the cursor held at that point; no search
    is issued. *)
Fixpoint followed (ttl : Z) (held : string) (j : list Effect) : Prop :=
  match j with
  | [] => True
  | Request _ _ (CScroll id ttl') a :: rest =>
      id = held /\ ttl' = ttl /\ followed ttl (advance held a) rest
  | Request _ _ (CClearScroll id) _ :: rest =>
      id = held /\ followed ttl held rest
  | Request _ _ (CSearch _ _ _ _) _ :: _ => False
  | _ :: rest => followed ttl held rest
  end.

(** A session: searches [c] until one is answered by a page, whose cursor
    is the one held from then on. *)
Fixpoint opened (c : Call) (ttl : Z) (j : list Effect) : Prop :=
  match j with
  | [] => True
  | Request _ _ c' a :: rest =>
      c' = c
      /\ match page_of a with
         | Some result => followed ttl (Client.ScrollID result) rest
         | None => opened c ttl rest
         end
  | _ :: rest => opened c ttl rest
  end.

(** An exit that is announced: the last thing done is a log line that
    reports an error. *)
Definition announced (j : list Effect) : Prop :=
  exists j' msg e, j = j' ++ [Log (SayErr msg e)].

End Rounds.

(** ** The environment variables and the configuration read from them *)

Module Environ.

(** The process environment: the value of a variable that is set. *)
Definition environ : Type := string -> option string.

(** os.LookupEnv and os.Getenv: the latter gives the empty string for a
    variable that is not set. *)
Definition LookupEnv (env : environ) (key : string) : option string := env key.

Definition Getenv (env : environ) (key : string) : string :=
  match env key with
  | Some value => value
  | None => ""
  end.

(** getEnv of refactored/main.go. *)
Definition getEnv (env : environ) (key defaultValue : string) : string :=
  match LookupEnv env key with
  | Some value => value
  | None => defaultValue
  end.

(** getEnvWithDefault of config/config.go. *)
Definition getEnvWithDefault (env : environ) (key defaultValue : string) : string :=
  let value := Getenv env key in
  if negb (String.eqb value "") then value else defaultValue.

(** config.NewConfig *)
Definition NewConfig (env : environ) : Modular.Config :=
  Modular.NewConfig (getEnvWithDefault env "ELASTICSEARCH_URL" "http://localhost:9200").

(** parseFlags of refactored/main.go when no flag is given on the command
    line: every field is its default. *)
Definition parseFlags (env : environ) : Refactored.Config :=
  Refactored.mkConfig (getEnv env "ELASTICSEARCH_URL" "http://localhost:9200")
                      "sample_data" "query.json" "data/logs.txt"
                      100 (1 * Backoff.Minute) false.

End Environ.

(** ** Vocabulary: an answer that arrives when the context is done *)

Module Cancelling.

Import Paging Ledger Session.




End Cancelling.

(* ================================================================= *)
(** * Properties *)

(** ** Page count *)

Lemma wrap_small (z : Z) :
  GoInt.min_int <= z <= GoInt.max_int -> GoInt.wrap z = z.
Proof.
  unfold GoInt.wrap, GoInt.min_int, GoInt.max_int. intros H.
  rewrite Z.mod_small; lia.
Qed.

Lemma wrap_sub_wrap (a b : Z) :
  GoInt.wrap (GoInt.wrap a - b) = GoInt.wrap (a - b).
Proof.
  unfold GoInt.wrap. f_equal.
  replace ((a + 2 ^ 63) mod 2 ^ 64 - 2 ^ 63 - b + 2 ^ 63)
    with ((a + 2 ^ 63) mod 2 ^ 64 - b) by lia.
  rewrite Zminus_mod_idemp_l. f_equal. lia.
Qed.

Lemma Qceiling_make (n : Z) (p : positive) :
  Qceiling (n # p) = - ((- n) / Z.pos p).
Proof. reflexivity. Qed.

Lemma quot_ceiling (n p : Z) :
  0 <= n -> 0 < p -> Z.quot (n + p - 1) p = - ((- n) / p).
Proof.
  intros Hn Hp.
  rewrite Z.quot_div_nonneg by lia.
  pose proof (Z.div_mod (n + p - 1) p ltac:(lia)) as E1.
  pose proof (Z.mod_pos_bound (n + p - 1) p Hp) as B1.
  pose proof (Z.div_mod (- n) p ltac:(lia)) as E2.
  pose proof (Z.mod_pos_bound (- n) p Hp) as B2.
  nia.
Qed.

(** For a total N >= 0 and a page size P > 0 such that N + P - 1 fits
    Go's int, (N + P - 1) / P on ints is the ceiling of N / P. *)
Lemma totalPages_ceiling (N P : Z) :
  0 <= N -> 0 < P -> N + P - 1 <= GoInt.max_int ->
  totalPages N P = Some (Qceiling (N # Z.to_pos P)).
Proof.
  intros HN HP Hfit.
  unfold totalPages, GoInt.div, GoInt.sub, GoInt.add.
  unfold GoInt.max_int in Hfit.
  rewrite wrap_sub_wrap.
  rewrite (wrap_small (N + P - 1)) by (unfold GoInt.min_int, GoInt.max_int; lia).
  destruct (Z.eqb_spec P 0) as [->|_]; [lia|].
  f_equal.
  rewrite Qceiling_make, Z2Pos.id by lia.
  rewrite quot_ceiling by lia.
  apply wrap_small.
  assert (0 <= - (- N / P) <= N); [|unfold GoInt.min_int, GoInt.max_int; lia].
  pose proof (Z.div_mod (- N) P ltac:(lia)) as E2.
  pose proof (Z.mod_pos_bound (- N) P HP) as B2.
  nia.
Qed.

Lemma digits2_pos_bound (m : positive) : Z.pos m < 2 ^ Z.pos (digits2_pos m).
Proof.
  induction m as [m IH|m IH|]; cbn [digits2_pos]; [| |reflexivity];
    rewrite Pos2Z.inj_succ, Z.pow_succ_r by lia; lia.
Qed.

(** A float64 has a mantissa of 53 bits. *)
Lemma mantissa_bound (f : float) s m e :
  Prim2SF f = S754_finite s m e -> Z.pos m < 2 ^ 53.
Proof.
  intros Hf. pose proof (Prim2SF_valid f) as Hv. rewrite Hf in Hv.
  cbn [SpecFloat.valid_binary] in Hv. unfold bounded in Hv.
  apply andb_true_iff in Hv as (Hc & _).
  unfold canonical_mantissa, fexp in Hc. apply Z.eqb_eq in Hc.
  assert (Hd : Z.pos (digits2_pos m) <= 53) by (unfold prec in Hc; lia).
  pose proof (digits2_pos_bound m) as Hm.
  assert (2 ^ Z.pos (digits2_pos m) <= 2 ^ 53) by (apply Z.pow_le_mono_r; lia).
  lia.
Qed.

(** The largest int a float64 converts to is 2^63 - 1024: what fits below
    2^63 with 53 bits. *)
Lemma of_float64_bound (f : float) : GoInt.of_float64 f <= 2 ^ 63 - 1024.
Proof.
  unfold GoInt.of_float64.
  destruct (Prim2SF f) as [s|s| |s m e] eqn:Hf;
    try (unfold GoInt.min_int; lia).
  pose proof (mantissa_bound f s m e Hf) as Hm.
  cbv zeta.
  match goal with |- (if ?c then _ else _) <= _ => destruct c eqn:Hin end;
    [|unfold GoInt.min_int; lia].
  apply andb_true_iff in Hin as (_ & Hmax). apply Z.leb_le in Hmax.
  unfold GoInt.max_int in Hmax.
  destruct s; [|].
  - assert (0 <= (if 0 <=? e then Z.pos m * 2 ^ e else Z.pos m ÷ 2 ^ (- e))); [|lia].
    destruct (0 <=? e) eqn:He.
    + apply Z.leb_le in He. pose proof (Z.pow_pos_nonneg 2 e ltac:(lia) He). nia.
    + apply Z.leb_gt in He. apply Z.quot_pos; [lia|].
      apply Z.pow_pos_nonneg; lia.
  - destruct (0 <=? e) eqn:He.
    + apply Z.leb_le in He.
      destruct (Z_lt_le_dec e 10) as [Hlt|Hge].
      * assert (2 ^ e <= 2 ^ 9) by (apply Z.pow_le_mono_r; lia).
        pose proof (Z.pow_pos_nonneg 2 e ltac:(lia) He).
        assert (Z.pos m * 2 ^ e <= 2 ^ 53 * 2 ^ 9) by nia.
        assert (2 ^ 53 * 2 ^ 9 = 2 ^ 62) by reflexivity. lia.
      * assert (E : 2 ^ e = 2 ^ (e - 10) * 1024).
        { replace e with ((e - 10) + 10) at 1 by lia.
          rewrite Z.pow_add_r by lia. reflexivity. }
        rewrite E in *.
        pose proof (Z.pow_pos_nonneg 2 (e - 10) ltac:(lia) ltac:(lia)) as Hk.
        set (k := 2 ^ (e - 10)) in *.
        replace (Z.pos m * (k * 1024)) with (Z.pos m * k * 1024) in * by ring.
        set (j := Z.pos m * k) in *. lia.
    + apply Z.leb_gt in He.
      assert (Z.pos m ÷ 2 ^ (- e) <= Z.pos m).
      { rewrite Z.quot_div_nonneg; [|lia|apply Z.pow_pos_nonneg; lia].
        apply Z.div_le_upper_bound; [apply Z.pow_pos_nonneg; lia|].
        pose proof (Z.pow_pos_nonneg 2 (- e) ltac:(lia) ltac:(lia)). nia. }
      lia.
Qed.

(** C9.  The total the programs report is the conversion of the float64
    the engine's response holds, and the page size is 6.  For every such
    total N >= 0 and every page size P from 1 to 1024, the page count the
    programs compute, (N + P - 1) / P on Go's ints, is the ceiling of
    N / P: the sum cannot wrap around, for no float64 converts to more
    than 2^63 - 1024. *)
Theorem totalPages_reported (f : float) (P : Z) :
  0 <= GoInt.of_float64 f -> 0 < P <= 1024 ->
  totalPages (GoInt.of_float64 f) P
  = Some (Qceiling (GoInt.of_float64 f # Z.to_pos P)).
Proof.
  intros HN HP. apply totalPages_ceiling; [assumption|lia|].
  pose proof (of_float64_bound f). unfold GoInt.max_int. lia.
Qed.

Lemma totalPages_reported_witness :
  totalPages (GoInt.of_float64 13) 6
  = Some (Qceiling (GoInt.of_float64 13 # Z.to_pos 6)).
Proof.
  apply (totalPages_reported 13 6); [vm_compute; discriminate|lia].
Defined.

(** ** The response parser of refactored/main.go *)

Lemma as_string_some x s : as_string x = Some s <-> x = Some (JString s).
Proof.
  split; [|intros ->; reflexivity].
  destruct x as [[]|]; cbn; congruence.
Qed.

Lemma as_object_some x m : as_object x = Some m <-> x = Some (JObject m).
Proof.
  split; [|intros ->; reflexivity].
  destruct x as [[]|]; cbn; congruence.
Qed.

Lemma as_array_some x l : as_array x = Some l <-> x = Some (JArray l).
Proof.
  split; [|intros ->; reflexivity].
  destruct x as [[]|]; cbn; congruence.
Qed.

Lemma as_float64_some x f : as_float64 x = Some f <-> x = Some (JNumber f).
Proof.
  split; [|intros ->; reflexivity].
  destruct x as [[]|]; cbn; congruence.
Qed.

Lemma extractTotalHits_ok raw n :
  Refactored.extractTotalHits raw = inl n <->
  exists f, has_total raw f /\ n = GoInt.of_float64 f.
Proof.
  unfold Refactored.extractTotalHits, has_total. split.
  - destruct (as_object (lookup "hits" raw)) as [hitsObj|] eqn:E1; [|discriminate].
    destruct (as_object (lookup "total" hitsObj)) as [totalObj|] eqn:E2; [|discriminate].
    destruct (as_float64 (lookup "value" totalObj)) as [f|] eqn:E3; [|discriminate].
    intros [= <-]. exists f. split; [|reflexivity].
    exists hitsObj, totalObj.
    apply as_object_some in E1, E2. apply as_float64_some in E3. auto.
  - intros (f & (hitsObj & totalObj & E1 & E2 & E3) & ->).
    rewrite E1; cbn. rewrite E2; cbn. rewrite E3; cbn. reflexivity.
Qed.

Lemma decodeTitle_ok vs : forall t,
  Refactored.decodeTitle vs t
  = if forallb string_or_null vs
    then Some (fold_left (fun t v => match v with JString s => s | _ => t end) vs t)
    else None.
Proof.
  induction vs as [|v vs IH]; intros t; [reflexivity|].
  destruct v; cbn; try reflexivity; apply IH.
Qed.

Lemma decodeSource_ok ds : forall t,
  Refactored.decodeSource ds t
  = if forallb object_or_null ds
       && forallb string_or_null
            (flat_map (fun document => match document with
                                       | JObject source => entries "title" source
                                       | _ => []
                                       end) ds)
    then Some (fold_left (fun t v => match v with JString s => s | _ => t end)
                         (flat_map (fun document => match document with
                                                    | JObject source => entries "title" source
                                                    | _ => []
                                                    end) ds) t)
    else None.
Proof.
  induction ds as [|d ds IH]; intros t; [reflexivity|].
  destruct d as [ | | | | |source]; cbn [Refactored.decodeSource forallb object_or_null
                                        flat_map andb app]; try reflexivity.
  - apply IH.
  - rewrite decodeTitle_ok, forallb_app, fold_left_app.
    destruct (forallb string_or_null (entries "title" source)); cbn [andb].
    + apply IH.
    + destruct (forallb object_or_null ds); reflexivity.
Qed.

Lemma Unmarshal_accepts h hit :
  (exists bytes, Refactored.Marshal h = Some bytes
                 /\ Refactored.Unmarshal bytes = Some hit)
  <-> accepts h hit.
Proof.
  unfold Refactored.Marshal. split.
  - intros (bytes & Hm & Hu).
    destruct (marshalable h) eqn:Em; [|discriminate].
    injection Hm as <-.
    destruct h as [ | | | | |fields]; cbn in Hu; try discriminate.
    + injection Hu as <-. constructor.
    + rewrite decodeSource_ok in Hu.
      destruct (forallb object_or_null (entries "_source" fields)) eqn:Ed;
        [|discriminate].
      fold (documents fields) in Ed, Hu. fold (titles fields) in Hu.
      destruct (forallb string_or_null (titles fields)) eqn:Et; [|discriminate].
      cbn in Hu. injection Hu as <-. apply accepts_record; assumption.
  - intros H. destruct H as [ |fields Hm Hd Ht].
    + exists JNull. split; reflexivity.
    + exists (JObject fields). rewrite Hm. split; [reflexivity|].
      cbn [Refactored.Unmarshal]. rewrite decodeSource_ok.
      fold (documents fields). fold (titles fields). rewrite Hd, Ht. reflexivity.
Qed.

Lemma decodeHits_ok records : forall acc hits,
  Refactored.decodeHits records acc = inl hits <->
  exists more, hits = acc ++ more /\ Forall2 accepts records more.
Proof.
  induction records as [|h rest IH]; intros acc hits; cbn.
  - split.
    + intros [= <-]. exists []. rewrite app_nil_r. split; [reflexivity|constructor].
    + intros (more & -> & H). inversion H. now rewrite app_nil_r.
  - split.
    + destruct (Refactored.Marshal h) as [bytes|] eqn:Em; [|discriminate].
      destruct (Refactored.Unmarshal bytes) as [hit|] eqn:Eu; [|discriminate].
      intros H. apply IH in H as (more & -> & Hall).
      exists (hit :: more). rewrite <- app_assoc. split; [reflexivity|].
      constructor; [|assumption]. apply Unmarshal_accepts. eauto.
    + intros (more & -> & Hall). inversion Hall as [|? hit ? more' Hacc Hrest]; subst.
      apply Unmarshal_accepts in Hacc as (bytes & -> & ->).
      apply IH. exists more'. rewrite <- app_assoc. auto.
Qed.

Lemma extractHits_ok raw hits :
  Refactored.extractHits raw = inl hits <->
  exists records, has_records raw records /\ Forall2 accepts records hits.
Proof.
  unfold Refactored.extractHits, has_records. split.
  - destruct (as_object (lookup "hits" raw)) as [hitsObj|] eqn:E1; [|discriminate].
    destruct (as_array (lookup "hits" hitsObj)) as [records|] eqn:E2; [|discriminate].
    intros H. apply decodeHits_ok in H as (more & -> & Hall).
    apply as_object_some in E1. apply as_array_some in E2.
    exists records. split; [eauto|assumption].
  - intros (records & (hitsObj & E1 & E2) & Hall).
    rewrite E1; cbn. rewrite E2; cbn.
    apply decodeHits_ok. exists hits. auto.
Qed.

(** C4 (as amended).  On every decoded response object the parser of
    refactored/main.go returns the triple exactly when the object holds a
    cursor string, the nested numeric total and the array of records, and
    every record is one the Hit structure accepts: [null], or an object
    whose documents (the values under [_source], in any letter case) are
    objects or [null] and whose titles in them are strings or [null]; in
    every other case it returns an error value.  A record without a
    document is among the accepted ones: it becomes a record with an
    empty title. *)
Theorem parseRaw_characterised (raw : object) :
  (forall r, Refactored.parseRaw raw = inl r <-> well_formed raw r)
  /\ ((exists e, Refactored.parseRaw raw = inr e)
      <-> ~ exists r, well_formed raw r)
  /\ (forall fields, documents fields = [] ->
        marshalable (JObject fields) = true ->
        accepts (JObject fields) (Refactored.mkHit "")).
Proof.
  assert (Hok : forall r, Refactored.parseRaw raw = inl r <-> well_formed raw r).
  { intros r. unfold Refactored.parseRaw, well_formed, has_cursor. split.
    - destruct (as_string (lookup "_scroll_id" raw)) as [s|] eqn:Ec; [|discriminate].
      destruct (Refactored.extractTotalHits raw) as [n|] eqn:Et; [|discriminate].
      destruct (Refactored.extractHits raw) as [hits|] eqn:Eh; [|discriminate].
      intros [= <-]. cbn.
      apply as_string_some in Ec.
      apply extractTotalHits_ok in Et as (f & Hf & ->).
      apply extractHits_ok in Eh as (records & Hr & Hall).
      exists f, records. auto.
    - intros (f & records & Ec & Hf & Hn & Hr & Hall).
      rewrite Ec; cbn.
      assert (Et : Refactored.extractTotalHits raw = inl (Refactored.TotalHits r))
        by (apply extractTotalHits_ok; eauto).
      assert (Eh : Refactored.extractHits raw = inl (Refactored.Hits r))
        by (apply extractHits_ok; eauto).
      rewrite Et, Eh. destruct r; reflexivity. }
  split; [exact Hok|]. split.
  - split.
    + intros (e & He) (r & Hr). apply Hok in Hr. congruence.
    + intros Hno. destruct (Refactored.parseRaw raw) as [r|e] eqn:E.
      * exfalso. apply Hno. exists r. apply Hok. reflexivity.
      * eauto.
  - intros fields Hs Hm.
    assert (Ht : titles fields = []) by (unfold titles; rewrite Hs; reflexivity).
    change "" with (last_string []). rewrite <- Ht.
    apply accepts_record; [assumption|rewrite Hs; reflexivity|rewrite Ht; reflexivity].
Qed.

(** C4, the claim as stated fails: a response whose only record has no
    inner document is parsed without error, into one record with an empty
    title. *)
Lemma record_without_document_is_parsed :
  Refactored.parseSearchResponse
    (mkResponse 200
       (Some (JObject
                [("_scroll_id", JString "c0");
                 ("hits", JObject [("total", JObject [("value", JNumber 1)]);
                                   ("hits", JArray [JObject []])])])))
  = inl (Refactored.mkSearchResult "c0" 1 [Refactored.mkHit ""]).
Proof. vm_compute. reflexivity. Qed.

(** ** Where the entry points part ways *)

Lemma logged_app (j k : list Effect) : logged (j ++ k) = logged j ++ logged k.
Proof. apply flat_map_app. Qed.

Lemma written_app (j k : list Effect) : written (j ++ k) = written j ++ written k.
Proof. apply flat_map_app. Qed.

Lemma calls_app (j k : list Effect) : calls (j ++ k) = calls j ++ calls k.
Proof. apply flat_map_app. Qed.

Lemma ProcessHits_logs (hits : list object) (w : World) :
  logged (journal (snd (Processor.ProcessHits hits w))) = logged (journal w).
Proof.
  revert w. induction hits as [|hit rest IH]; intros w; cbn; [reflexivity|].
  destruct (lookup "title" hit) as [message|]; [|apply IH].
  unfold bind, Sys.WriteString.
  destruct (quota w) as [[|n]|]; cbn; try reflexivity;
    rewrite IH; cbn; rewrite logged_app; cbn; apply app_nil_r.
Qed.

(** C6 (code defect).  The processor of processor/processor.go never
    emits a diagnostic: whatever the records, the log is left as it was.
    On a record without the title followed by one with it, it writes the
    one line and logs nothing, where processHits of refactored/main.go
    logs the missing field. *)
Theorem ProcessHits_is_silent :
  (forall hits w, logged (journal (snd (Processor.ProcessHits hits w)))
                  = logged (journal w))
  /\ observe (Processor.ProcessHits
                [[("body", JString "no title here")]; [("title", JString "t")]]
                (Sample.fresh []))
     = (Ret None, [], [Text "t"], [])
  /\ observe (Refactored.processHits
                [Refactored.mkHit ""; Refactored.mkHit "t"] (Sample.fresh []))
     = (Ret None, [], [Text "t"],
        [Say "Title field not found in this document."]).
Proof.
  split; [exact ProcessHits_logs|].
  split; vm_compute; reflexivity.
Qed.

(** C7 (code defect).  The engine answers the scroll with an empty page
    under the new cursor c1.  refactored/main.go leaves its loop before it
    takes the cursor over and releases the old c0; the main.go that drives
    the client keeps the whole result and releases c1. *)
Theorem executeSearch_releases_stale_cursor :
  observe (Refactored.executeSearch Cancellable "q" Sample.cfg
             (Sample.fresh Sample.renewed_cursor))
  = (Ret None,
     [CSearch "sample_data" "q" 6 Backoff.Minute;
      CScroll "c0" Backoff.Minute;
      CClearScroll "c0"],
     [Text "a"],
     [SayInt "Total hits: %d" 1; Say "No more hits to process."])
  /\ calls (journal (snd (Modular.main (Modular.NewConfig "http://localhost:9200") "q"
                             (Sample.fresh Sample.renewed_cursor))))
     = [CSearch "sample_data" "q" 6 Backoff.Minute;
        CScroll "c0" Backoff.Minute;
        CClearScroll "c1"].
Proof. split; vm_compute; reflexivity. Qed.

(** C2 (code defect).  The first scroll meets a connection reset and the
    engine would answer the next one.  refactored/main.go issues the
    scroll once, outside the retrying executor, and returns the failure
    with the engine's answers unread; the client of
    client/elasticsearch.go retries the scroll and the run completes. *)
Theorem executeSearch_scroll_is_not_retried :
  observe (Refactored.executeSearch Cancellable "q" Sample.cfg
             (Sample.fresh Sample.flaky_scroll))
  = (Ret (Some (EWrap "scroll request failed" (ETransport "connection reset"))),
     [CSearch "sample_data" "q" 6 Backoff.Minute;
      CScroll "c0" Backoff.Minute],
     [Text "a"],
     [SayInt "Total hits: %d" 1])
  /\ engine (snd (Refactored.executeSearch Cancellable "q" Sample.cfg
                    (Sample.fresh Sample.flaky_scroll)))
     = Sample.answers [Sample.page "c0" 1 []; Sample.acknowledged]
  /\ observe (Modular.main (Modular.NewConfig "http://localhost:9200") "q"
                (Sample.fresh Sample.flaky_scroll))
     = (Ret tt,
        [CSearch "sample_data" "q" 6 Backoff.Minute;
         CScroll "c0" Backoff.Minute;
         CScroll "c0" Backoff.Minute;
         CClearScroll "c0"],
        [Text "a"],
        [SayInts "Processing page %d of %d" 1 1;
         SayInts "Processing page %d of %d" 2 1;
         Say "No more hits to process"]).
Proof. repeat split; vm_compute; reflexivity. Qed.

(** C3 (code defect).  The release of the cursor cannot reach the engine.
    The single-file main.go ends the process through log.Fatalf, with
    exit status 1; refactored/main.go and the main.go that drives the
    client log the failure and end normally.  The line written before is
    in the file in all three. *)
Theorem main_release_failure_is_fatal :
  observe (Monolith.main "q" (Sample.fresh Sample.failed_release))
  = (Halt (Exited 1),
     [CSearch "sample_data" "q" 6 Backoff.Minute;
      CScroll "c0" Backoff.Minute;
      CClearScroll "c0"],
     [Text "a"],
     [SayInts "Total hits: %d, Total pages: %d" 1 1;
      SayInts "Processing page %d of %d" 1 1;
      Say "Process the next batch of Hits";
      SayInts "Processing page %d of %d" 2 1;
      Say "No more hits to process.";
      SayErr "Error clearing scroll: %s" (ETransport "connection reset")])
  /\ observe (Refactored.executeSearch Cancellable "q" Sample.cfg
                (Sample.fresh Sample.failed_release))
     = (Ret None,
        [CSearch "sample_data" "q" 6 Backoff.Minute;
         CScroll "c0" Backoff.Minute;
         CClearScroll "c0"],
        [Text "a"],
        [SayInt "Total hits: %d" 1; Say "No more hits to process.";
         SayErr "Error clearing scroll: %v" (ETransport "connection reset")])
  /\ observe (Modular.main (Modular.NewConfig "http://localhost:9200") "q"
                (Sample.fresh Sample.failed_release))
     = (Ret tt,
        [CSearch "sample_data" "q" 6 Backoff.Minute;
         CScroll "c0" Backoff.Minute;
         CClearScroll "c0"],
        [Text "a"],
        [SayInts "Processing page %d of %d" 1 1;
         SayInts "Processing page %d of %d" 2 1;
         Say "No more hits to process";
         SayErr "Warning: failed to clear scroll: %v" (ETransport "connection reset")]).
Proof. repeat split; vm_compute; reflexivity. Qed.

(** ** The backoff policy *)

Ltac numerals :=
  unfold Executor.tuned, Backoff.Minute, Backoff.Second, Backoff.Millisecond in *.

Section Policy.

Import Backoff Executor.

Lemma tuned_delta e : tuned e -> delta e = currentInterval e / 2.
Proof.
  intros (_ & Hr & _). unfold delta. rewrite Hr. cbn.
  destruct (currentInterval e); reflexivity.
Qed.

Lemma tuned_increment e :
  tuned e ->
  tuned (incrementCurrentInterval e)
  /\ startTime (incrementCurrentInterval e) = startTime e
  /\ currentInterval e <= currentInterval (incrementCurrentInterval e)
  /\ currentInterval (incrementCurrentInterval e)
     = Z.min (30 * Second) (currentInterval e * 3 / 2).
Proof.
  intros H. pose proof H as (Hi & Hr & Hm & Hx & Hb & Hc).
  unfold incrementCurrentInterval. rewrite Hm, Hx.
  numerals. cbn. unfold Qle_bool. cbn.
  destruct (Z.leb_spec 60000000000 (currentInterval e * 3)) as [Hle|Hlt]; cbn.
  - repeat split; auto; try lia.
    assert (30000000000 <= currentInterval e * 3 / 2)
      by (apply Z.div_le_lower_bound; lia).
    lia.
  - assert (currentInterval e <= currentInterval e * 3 / 2)
      by (apply Z.div_le_lower_bound; lia).
    assert (currentInterval e * 3 / 2 < 30000000000)
      by (apply Z.div_lt_upper_bound; lia).
    repeat split; auto; lia.
Qed.

Lemma tuned_random e draw :
  tuned e ->
  currentInterval e - currentInterval e / 2
  <= getRandomValueFromInterval e draw
  <= currentInterval e + currentInterval e / 2.
Proof.
  intros H. pose proof (tuned_delta e H) as Hd.
  destruct H as (Hi & Hr & Hm & Hx & Hb & Hc). numerals.
  unfold getRandomValueFromInterval. rewrite Hr, Hd. cbn.
  assert (0 <= currentInterval e / 2) by (apply Z.div_pos; lia).
  destruct draw; lia.
Qed.

Lemma tuned_wait e draw :
  tuned e ->
  500 * Millisecond <= getRandomValueFromInterval e draw <= 45 * Second.
Proof.
  intros H. pose proof (tuned_random e draw H) as Hr.
  destruct H as (_ & _ & _ & _ & _ & Hc). numerals.
  assert (currentInterval e / 2 <= 15000000000)
    by (apply Z.div_le_upper_bound; lia).
  assert (currentInterval e / 2 * 2 <= currentInterval e)
    by (pose proof (Z.mul_div_le (currentInterval e) 2); lia).
  lia.
Qed.

End Policy.

(** ** One round of the retrying executor *)

Section Round.

Import Backoff Executor.

Lemma roundTrip_world c w :
  Sys.roundTrip c w
  = (Ret (next_answer w),
     mkWorld (back w) (cancelAt w) (tl (engine w)) (dice w)
             (journal w ++ [Request (clock w) (back w) c (next_answer w)])
             (quota w)).
Proof.
  unfold Sys.roundTrip, next_answer, back, record.
  destruct (engine w) as [|x rest]; reflexivity.
Qed.

Lemma back_later w : clock w <= back w.
Proof. unfold back. destruct (engine w); lia. Qed.

Lemma roll_world w : exists draw rest,
  Sys.roll w = (Ret draw,
                mkWorld (clock w) (cancelAt w) (engine w) rest (journal w) (quota w)).
Proof.
  unfold Sys.roll. destruct w as [t c e [|d ds] j q]; cbn; eauto.
Qed.

Lemma NextBackOffExp_tuned e w :
  tuned e ->
  exists next rest,
    500 * Millisecond <= next <= 45 * Second
    /\ NextBackOffExp e w
       = (Ret (if 5 * Minute <? clock w - startTime e + next
               then None else Some next,
               incrementCurrentInterval e),
          mkWorld (clock w) (cancelAt w) (engine w) rest (journal w) (quota w)).
Proof.
  intros H. destruct (roll_world w) as (draw & rest & Hroll).
  exists (getRandomValueFromInterval e draw), rest.
  split; [apply (tuned_wait e draw H)|].
  unfold NextBackOffExp, bind, Sys.now. rewrite Hroll.
  destruct H as (_ & _ & _ & _ & Hb & _). rewrite Hb. cbn.
  destruct (_ <? _); reflexivity.
Qed.

End Round.

Ltac splits := repeat match goal with |- _ /\ _ => split end.

Section Round2.
Import Backoff Executor.

Lemma round_spec c op b v w :
  attempting c op -> tuned (policy b) ->
  exists notes x w',
    round op b v w = (Ret x, w')
    /\ journal w' = journal w
                    ++ Request (clock w) (back w) c (next_answer w) :: map Log notes
    /\ Forall is_report notes
    /\ cancelAt w' = cancelAt w
    /\ quota w' = quota w
    /\ engine w' = tl (engine w)
    /\ round_outcome b w x w'.
Proof.
  intros Hop Ht.
  destruct (Hop v w) as (err & res & notes & Hrun & Herr & Hres & Hnotes).
  rewrite roundTrip_world in Hrun. cbn [snd] in Hrun. unfold noted in Hrun.
  cbn in Hrun. rewrite <- app_assoc in Hrun. cbn [app] in Hrun.
  exists notes. unfold round, bind. rewrite Hrun.
  destruct err as [e|].
  2:{ eexists _, _. split; [reflexivity|]. cbn.
      splits; auto. apply Herr. reflexivity. }
  assert (Hfail : succeeded (next_answer w) = false).
  { destruct (succeeded (next_answer w)); [|reflexivity].
    destruct Herr as [_ Herr]. discriminate Herr. reflexivity. }
  set (w1 := mkWorld (back w) (cancelAt w) (tl (engine w)) (dice w) _ (quota w)).
  destruct (NextBackOffExp_tuned (policy b) w1 Ht) as (next & rest & Hnext & Hexp).
  pose proof (tuned_increment _ Ht) as (Ht' & Hstart & _).
  cbn [clock cancelAt engine journal quota w1] in Hexp.
  destruct b as [p|p ctx]; cbn [NextBackOff policy getContext] in *.
  - (* a bare policy: the background context *)
    unfold bind. rewrite Hexp.
    destruct (5 * Minute <? back w - startTime p + next) eqn:Hstop.
    + apply Z.ltb_lt in Hstop.
      eexists _, _. split; [reflexivity|]. cbn.
      unfold Minute, Second, Millisecond in *. splits; auto. left. lia.
    + apply Z.ltb_ge in Hstop.
      eexists _, _. split; [reflexivity|]. cbn.
      unfold Minute, Second, Millisecond in *.
      splits; auto; try lia. discriminate.
  - unfold bind at 1. unfold Sys.ctxErr at 1.
    destruct (Sys.done ctx w1) eqn:Hdone.
    + (* the context is done when the attempt returns *)
      cbn. unfold Sys.ctxErr, bind. rewrite Hdone.
      eexists _, _. split; [reflexivity|]. cbn. splits; auto.
      right. unfold guard, Sys.done in *. cbn in *.
      destruct ctx; [discriminate|]. destruct (cancelAt w); [eauto|discriminate].
    + unfold bind. rewrite Hexp.
      destruct (5 * Minute <? back w - startTime p + next) eqn:Hstop.
      * apply Z.ltb_lt in Hstop.
        unfold Sys.ctxErr, Sys.done in *. cbn in *. rewrite Hdone.
        eexists _, _. split; [reflexivity|]. cbn.
        unfold Minute, Second, Millisecond in *. splits; auto. left. lia.
      * apply Z.ltb_ge in Hstop.
        unfold Sys.sleep, Sys.done in *. cbn in *.
        unfold Minute, Second, Millisecond in *.
        destruct ctx; [eexists _, _; split; [reflexivity|]; cbn;
                       splits; auto; try lia; discriminate|].
        destruct (cancelAt w) as [c0|] eqn:Hc.
        2:{ eexists _, _. split; [reflexivity|]. cbn.
            splits; auto; try lia. intros _ c1 E. congruence. }
        apply Z.leb_gt in Hdone.
        destruct (Z.leb_spec c0 (back w + Z.max 0 next)).
        -- eexists _, _. split; [reflexivity|]. cbn.
           splits; auto.
           ++ right. splits; auto. exists c0. splits; auto; lia.
           ++ right. exists c0. unfold guard. cbn. assumption.
        -- eexists _, _. split; [reflexivity|]. cbn.
           splits; auto; try lia. intros _ c1 E. assert (c1 = c0) by congruence. lia.
Qed.
End Round2.

(** ** The rounds of Retry *)

Section Rounds.

Import Backoff Executor.

Lemma retry_loop_round {V} fuel (op : Operation V) b v w :
  retry_loop (S fuel) op b v w
  = match round op b v w with
    | (Ret (inl r), w') => (Ret r, w')
    | (Ret (inr (b', v')), w') => retry_loop fuel op b' v' w'
    | (Halt why, w') => (Halt why, w')
    end.
Proof.
  cbn [retry_loop]. unfold round, bind.
  destruct (op v w) as [[[[e|] v1]|why] w1]; try reflexivity.
  destruct (NextBackOff b w1) as [[[[d|] b1]|why] w2]; try reflexivity.
  - destruct (Sys.sleep (getContext b) d w2) as [[[|]|why] w3]; reflexivity.
  - destruct (Sys.ctxErr (getContext b) w2) as [[[|]|why] w3]; reflexivity.
Qed.

Variable c : Call.
Variable op : Operation (option Response).
Hypothesis op_attempts : attempting c op.

Lemma retry_loop_total : forall fuel b v w,
  tuned (policy b) ->
  clock w - startTime (policy b) <= 5 * Minute ->
  5 * Minute - (clock w - startTime (policy b)) < Z.of_nat fuel * (500 * Millisecond) ->
  exists r w', retry_loop fuel op b v w = (Ret r, w') /\ retrying op b v w r w'.
Proof.
  induction fuel as [|fuel IH]; intros b v w Ht Hin Hfuel.
  - exfalso. unfold Minute, Second, Millisecond in *. lia.
  - rewrite retry_loop_round.
    destruct (round_spec c op b v w op_attempts Ht)
      as (notes & x & w1 & Hround & _ & _ & _ & _ & _ & Hout).
    rewrite Hround. destruct x as [r|[b1 v1]].
    + exists r, w1. split; [reflexivity|]. apply retrying_last. assumption.
    + cbn in Hout. destruct Hout as (_ & Ht1 & _ & Hstart & Hin1 & Hlate & _).
      pose proof (back_later w) as Hback.
      destruct (IH b1 v1 w1 Ht1) as (r & w' & Hloop & Hrel).
      * rewrite Hstart. assumption.
      * rewrite Hstart. unfold Minute, Second, Millisecond in *. lia.
      * exists r, w'. split; [assumption|].
        eapply retrying_again; eassumption.
Qed.

Lemma reset_tuned t e : configured e -> tuned (reset_at t e).
Proof.
  intros (Hi & Hr & Hm & Hx & Hb). unfold tuned, reset_at; cbn.
  rewrite Hi. unfold Second, Millisecond. splits; auto; lia.
Qed.

Lemma Retry_runs b v w :
  configured (policy b) ->
  exists r w',
    Retry op b v w = (Ret r, w')
    /\ retrying op (with_policy b (reset_at (clock w) (policy b))) v w r w'.
Proof.
  intros Hc.
  assert (Hfuel : attempts (reset_at (clock w) (policy b)) = 602%nat).
  { destruct Hc as (Hi & Hr & _ & _ & Hb). unfold attempts, reset_at; cbn.
    rewrite Hi, Hr, Hb. reflexivity. }
  pose proof (reset_tuned (clock w) _ Hc) as Ht.
  destruct (retry_loop_total 602 (with_policy b (reset_at (clock w) (policy b))) v w)
    as (r & w' & Hloop & Hrel).
  - destruct b; assumption.
  - destruct b; cbn [policy with_policy reset_at startTime];
      unfold Minute, Second, Millisecond; lia.
  - change (Z.of_nat 602) with 602.
    destruct b; cbn [policy with_policy reset_at startTime];
      unfold Minute, Second, Millisecond; lia.
  - exists r, w'. split; [|assumption].
    unfold Retry, Reset, bind, Sys.now, ret. fold (reset_at (clock w) (policy b)).
    rewrite Hfuel. assumption.
Qed.

End Rounds.

Section Summary.

Import Backoff Executor.

Variable c : Call.
Variable op : Operation (option Response).
Hypothesis op_attempts : attempting c op.

Lemma Forall_notes (P : Effect -> Prop) notes :
  (forall l, P (Log l)) -> Forall P (map Log notes).
Proof. intros H. induction notes; constructor; auto. Qed.

Lemma retrying_summary b v w r w' :
  retrying op b v w r w' ->
  tuned (policy b) ->
  clock w - startTime (policy b) <= 5 * Minute ->
  cancelAt w' = cancelAt w
  /\ quota w' = quota w
  /\ (List.length (engine w') <= List.length (engine w))%nat
  /\ (fst r = None -> (List.length (engine w') < List.length (engine w))%nat)
  /\ retry_summary c b w r w'.
Proof.
  induction 1 as [b v w r w' Hround|b v w b1 v1 w1 r w' Hround Hrest IH];
    intros Ht Hin;
    destruct (round_spec c op b v w op_attempts Ht)
      as (notes & x & w2 & Hround' & Hj & Hnotes & Hc & Hq & He & Hout);
    rewrite Hround in Hround'; injection Hround' as <- <-.
  - (* the last round *)
    splits; auto.
    + rewrite He. destruct (engine w); cbn; lia.
    + destruct r as [[e|] res]; cbn; [discriminate|]. intros _.
      cbn in Hout. destruct Hout as (Hs & _).
      rewrite He. unfold succeeded, next_answer in Hs.
      destruct (engine w); [discriminate|cbn; lia].
    + exists [], (clock w), (back w), (next_answer w), notes.
      splits; auto.
      * constructor; [|constructor]. intros _. split; [assumption|].
        destruct (guard b w); auto.
      * destruct r as [[e|] res]; cbn in Hout |- *.
        -- apply Hout.
        -- destruct Hout as (Hs & Hres & _). split; [assumption|].
           destruct (next_answer w) as [|x]; [discriminate|]. eauto.
      * destruct r as [[e|] res]; cbn in Hout |- *.
        -- destruct Hout as (_ & [Hclock|(-> & Hctx & c0 & Hc0 & Hlt & Hclock)] & _);
             [left; assumption|right].
           split; [reflexivity|]. exists c0. unfold guard. rewrite Hctx. auto.
        -- left. apply Hout.
      * intros Hfail Hg Hbud. exfalso.
        destruct r as [[e|] res]; cbn in Hout.
        -- destruct Hout as (_ & _ & [Hover|(c0 & Hc0)]); [|congruence].
           unfold Minute, Second, Millisecond in *. lia.
        -- destruct Hout as (Hs & _). congruence.
  - (* a round that is followed by another *)
    cbn in Hout.
    destruct Hout as (Hfail & Ht1 & Hctx & Hstart & Hin1 & Hlate & Hbefore).
    rewrite <- Hstart in Hin1.
    destruct (IH Ht1 Hin1) as (Hc' & Hq' & Hlen & Hlen' & Hsum).
    splits; try congruence.
    + rewrite He in Hlen. destruct (engine w); cbn in *; lia.
    + intros Hr. specialize (Hlen' Hr). rewrite He in Hlen'.
      destruct (engine w); cbn in *; lia.
    + destruct Hsum as (pre & t & t' & a & notes' & Hj' & Hnotes' & Hpre & Hfailed & Hwithin & Hres & Hclock & _).
      exists (Request (clock w) (back w) c (next_answer w) :: map Log notes ++ pre),
        t, t', a, notes'.
      assert (Hguard : guard b1 w1 = guard b w)
        by (unfold guard; rewrite Hctx, Hc; reflexivity).
      rewrite Hguard, Hstart in *.
      splits; auto.
      * rewrite Hj', Hj. rewrite <- !app_assoc. cbn. rewrite <- !app_assoc. reflexivity.
      * constructor; [reflexivity|]. apply Forall_app. split; [|assumption].
        apply Forall_forall. intros e He'. apply in_map_iff in He' as (l & <- & Hl).
        cbn. eapply Forall_forall in Hnotes; eauto.
      * constructor; [assumption|]. apply Forall_app. split; [|assumption].
        apply Forall_notes. intros; reflexivity.
      * cbn. constructor.
        { intros _. split; [assumption|]. destruct (guard b w); auto. }
        rewrite <- app_assoc. apply Forall_app. split.
        { apply Forall_notes. intros l Hl. discriminate Hl. }
        eapply Forall_impl; [|exact Hwithin].
        intros e Hw Hreq. destruct (Hw Hreq) as (Hbud & Hcan).
        split; [assumption|].
        destruct (guard b w) as [c0|] eqn:Hg; [|exact I].
        right. unfold guard in Hg.
        destruct (getContext b) eqn:Hgc; [discriminate|].
        specialize (Hbefore eq_refl c0 Hg). lia.
      * intros _ _ _. discriminate.
Qed.

End Summary.

(** ** The operations the entry points retry *)

Section Operations.

Import Backoff Executor.

Lemma succeeded_reply (a : Reply) :
  succeeded a = true <-> exists r, a = Replied r /\ IsError r = false.
Proof.
  destruct a as [why|r]; cbn.
  - split; [discriminate|]. intros (r & H & _). discriminate.
  - rewrite negb_true_iff. split; [eauto|]. intros (r' & [= <-] & H). exact H.
Qed.

Lemma operation_attempts c :
  attempting c (Refactored.operation (Sys.perform c)).
Proof.
  intros v w. unfold Refactored.operation, Sys.perform, bind.
  rewrite roundTrip_world. cbn [snd].
  destruct (next_answer w) as [why|r] eqn:Ha; cbn.
  - exists (Some (ETransport why)), None, []. unfold noted. cbn.
    rewrite app_nil_r. splits; [reflexivity|split; discriminate|discriminate|repeat constructor].
  - destruct (IsError r) eqn:Hr; cbn.
    + exists (Some (EResponse "" r)), (Some r), []. unfold noted. cbn.
      rewrite app_nil_r. splits; [reflexivity|split; discriminate|congruence|repeat constructor].
    + exists None, (Some r), []. unfold noted. cbn.
      rewrite app_nil_r. splits; [reflexivity|split; reflexivity|congruence|repeat constructor].
Qed.

Lemma attempt_attempts c : attempting c (Client.attempt c).
Proof.
  intros v w. unfold Client.attempt, Client.handleESResponse, Sys.perform, bind.
  rewrite roundTrip_world. cbn [snd].
  destruct (next_answer w) as [why|r] eqn:Ha; cbn.
  - eexists _, _, []. unfold noted. cbn.
    rewrite app_nil_r. splits; [reflexivity|split; discriminate|discriminate|repeat constructor].
  - destruct (IsError r) eqn:Hr; cbn.
    + eexists _, _, []. unfold noted. cbn.
      rewrite app_nil_r. splits; [reflexivity|split; discriminate|congruence|repeat constructor].
    + eexists _, _, []. unfold noted. cbn.
      rewrite app_nil_r. splits; [reflexivity|split; reflexivity|congruence|repeat constructor].
Qed.

Lemma scrollOnce_attempts id :
  attempting (CScroll id Minute) (Monolith.scrollOnce id).
Proof.
  intros v w. unfold Monolith.scrollOnce, Sys.perform, Sys.say, bind.
  rewrite roundTrip_world. cbn [snd].
  destruct (next_answer w) as [why|r] eqn:Ha; cbn.
  - eexists _, _, [_]. unfold noted, record. cbn.
    splits; [reflexivity|split; discriminate|discriminate|repeat constructor].
  - destruct (IsError r) eqn:Hr; cbn.
    + eexists _, _, [_]. unfold noted, record. cbn.
        splits; [reflexivity|split; discriminate|congruence|repeat constructor].
    + eexists _, _, []. unfold noted. cbn.
      rewrite app_nil_r. splits; [reflexivity|split; reflexivity|congruence|repeat constructor].
Qed.

Lemma searchOnce_attempts query size :
  attempting (CSearch "sample_data" query size Minute) (Monolith.searchOnce query size).
Proof.
  intros v w. unfold Monolith.searchOnce, Sys.perform, Sys.say, bind.
  rewrite roundTrip_world. cbn [snd].
  destruct (next_answer w) as [why|r] eqn:Ha; cbn.
  - eexists _, _, [_]. unfold noted, record. cbn.
    splits; [reflexivity|split; discriminate|discriminate|repeat constructor].
  - destruct (IsError r) eqn:Hr; cbn.
    + eexists _, _, [_]. unfold noted, record. cbn.
        splits; [reflexivity|split; discriminate|congruence|repeat constructor].
    + eexists _, _, []. unfold noted. cbn.
      rewrite app_nil_r. splits; [reflexivity|split; reflexivity|congruence|repeat constructor].
Qed.

(** Retry under the programs' policy always returns, and its run is
    summarised from the moment it resets the policy. *)
Lemma Retry_summary c op b v w :
  attempting c op ->
  configured (policy b) ->
  exists r w',
    Retry op b v w = (Ret r, w')
    /\ cancelAt w' = cancelAt w
    /\ quota w' = quota w
    /\ (List.length (engine w') <= List.length (engine w))%nat
    /\ (fst r = None -> (List.length (engine w') < List.length (engine w))%nat)
    /\ retry_summary c (with_policy b (reset_at (clock w) (policy b))) w r w'.
Proof.
  intros Hop Hc.
  destruct (Retry_runs c op Hop b v w Hc) as (r & w' & Hrun & Hrel).
  exists r, w'. split; [assumption|].
  apply (retrying_summary c op Hop _ _ _ _ _ Hrel).
  - destruct b; cbn; apply reset_tuned; assumption.
  - destruct b; cbn; unfold Minute, Second, Millisecond; lia.
Qed.

Lemma NewExponentialBackOff_run w :
  exists e, NewExponentialBackOff w = (Ret e, w)
            /\ RandomizationFactor e = 1 # 2 /\ Multiplier e = 3 # 2.
Proof.
  unfold NewExponentialBackOff, Reset, bind, Sys.now, ret. cbn.
  eexists. splits; reflexivity.
Qed.

Lemma backoffCfg_run w :
  exists e, Refactored.backoffCfg w = (Ret e, w) /\ configured e.
Proof.
  unfold Refactored.backoffCfg, bind.
  destruct (NewExponentialBackOff_run w) as (e & -> & Hr & Hm).
  eexists. split; [reflexivity|]. unfold configured; cbn. auto.
Qed.

Lemma newBackoffConfig_run w :
  exists e, Client.newBackoffConfig w = (Ret e, w) /\ configured e.
Proof.
  unfold Client.newBackoffConfig, bind.
  destruct (NewExponentialBackOff_run w) as (e & -> & Hr & Hm).
  eexists. split; [reflexivity|]. unfold configured; cbn. auto.
Qed.

Lemma backoffConfig_run w :
  exists e, Monolith.backoffConfig w = (Ret e, w) /\ configured e.
Proof.
  unfold Monolith.backoffConfig, bind.
  destruct (NewExponentialBackOff_run w) as (e & -> & Hr & Hm).
  eexists. split; [reflexivity|]. unfold configured; cbn. auto.
Qed.

End Operations.

(** ** The pagination loop of refactored/main.go *)

Section RefactoredLoop.

Import Executor Paging.

Lemma processHits_run hits : forall w,
  exists err out q,
    Refactored.processHits hits w
    = (Ret err, mkWorld (clock w) (cancelAt w) (engine w) (dice w)
                        (journal w ++ out) q)
    /\ Forall is_output out.
Proof.
  induction hits as [|hit rest IH]; intros w.
  - exists None, [], (quota w). cbn. rewrite app_nil_r.
    destruct w; split; [reflexivity|constructor].
  - cbn [Refactored.processHits].
    destruct (String.eqb (Refactored.Title hit) "").
    + unfold bind, Sys.say.
      destruct (IH (record (Log (Say "Title field not found in this document.")) w))
        as (err & out & q & Hrun & Hout).
      rewrite Hrun. cbn.
      exists err, (Log (Say "Title field not found in this document.") :: out), q.
      rewrite <- app_assoc. split; [reflexivity|].
      constructor; [reflexivity|assumption].
    + unfold bind, Sys.WriteString.
      destruct (quota w) as [[|n]|] eqn:Hq.
      * exists (Some (EWrap "error writing to file" EWrite)), [], (quota w).
        cbn. rewrite app_nil_r. destruct w; split; [reflexivity|constructor].
      * match goal with |- context [Refactored.processHits rest ?w1] =>
          destruct (IH w1) as (err & out & q & Hrun & Hout) end.
        rewrite Hrun. cbn.
        exists err, (Write (Text (Refactored.Title hit)) :: out), q.
        rewrite <- app_assoc. split; [reflexivity|].
        constructor; [exact I|assumption].
      * match goal with |- context [Refactored.processHits rest ?w1] =>
          destruct (IH w1) as (err & out & q & Hrun & Hout) end.
        rewrite Hrun. cbn.
        exists err, (Write (Text (Refactored.Title hit)) :: out), q.
        rewrite <- app_assoc. split; [reflexivity|].
        constructor; [exact I|assumption].
Qed.

End RefactoredLoop.

Section RefactoredLoop2.

Import Executor Paging.

Lemma not_done_before ctx w :
  Sys.done ctx w = false -> before (horizon ctx w) (clock w).
Proof.
  unfold Sys.done, before, horizon. destruct ctx; [auto|].
  destruct (cancelAt w); [|auto]. intros H. apply Z.leb_gt in H. exact H.
Qed.

Lemma answered_engine w r :
  next_answer w = Replied r ->
  (List.length (tl (engine w)) < List.length (engine w))%nat.
Proof.
  unfold next_answer. destruct (engine w); [discriminate|cbn; lia].
Qed.

Lemma scrollLoop_paging : forall fuel ctx cfg id w,
  (List.length (engine w) < fuel)%nat ->
  exists x w' j,
    Refactored.scrollLoop fuel ctx cfg id w = (Ret x, w')
    /\ journal w' = journal w ++ j
    /\ cancelAt w' = cancelAt w
    /\ paging (Refactored.ScrollDuration cfg) (horizon ctx w) id j x.
Proof.
  induction fuel as [|fuel IH]; intros ctx cfg id w Hfuel; [lia|].
  cbn [Refactored.scrollLoop]. unfold bind at 1. unfold Sys.ctxErr.
  destruct (Sys.done ctx w) eqn:Hdone.
  { eexists _, _, _. split; [reflexivity|]. cbn.
    splits; [reflexivity|reflexivity|constructor]. }
  apply not_done_before in Hdone.
  unfold bind at 1. unfold Sys.perform, bind at 1. rewrite roundTrip_world.
  destruct (next_answer w) as [why|res] eqn:Ha; cbn [ret].
  { eexists _, _, _. split; [reflexivity|]. cbn.
    splits; [reflexivity|reflexivity|]. apply paging_failed; auto. }
  destruct (IsError res) eqn:Herr.
  { eexists _, _, _. split; [reflexivity|]. cbn.
    splits; [reflexivity|reflexivity|]. apply paging_failed; auto.
    cbn. rewrite Herr. reflexivity. }
  destruct (Refactored.parseSearchResponse res) as [result|e] eqn:Hparse.
  2:{ eexists _, _, _. split; [reflexivity|]. cbn.
      splits; [reflexivity|reflexivity|]. apply paging_failed; auto.
      cbn. rewrite Herr, Hparse. reflexivity. }
  assert (Hpage : page_of (Replied res) = Some result)
    by (cbn; rewrite Herr, Hparse; reflexivity).
  destruct (Refactored.Hits result) as [|hit hits] eqn:Hhits.
  { eexists _, _, _. split; [reflexivity|]. cbn.
    splits; [rewrite <- app_assoc; reflexivity|reflexivity|].
    apply paging_drained; auto. unfold drained. rewrite Hpage, Hhits. reflexivity. }
  assert (Hfull : drained (Replied res) = false)
    by (unfold drained; rewrite Hpage, Hhits; reflexivity).
  unfold bind.
  match goal with |- context [Refactored.processHits _ ?w1] =>
    destruct (processHits_run (hit :: hits) w1) as (err & out & q & Hrun & Hout);
    rewrite Hrun; clear Hrun end.
  cbn [clock cancelAt engine dice journal].
  destruct err as [e|].
  { eexists _, _, _. split; [reflexivity|]. cbn.
    splits; [rewrite <- app_assoc; reflexivity|reflexivity|].
    apply paging_unwritten; auto. }
  match goal with |- context [Refactored.scrollLoop fuel ctx cfg ?id1 ?w2] =>
    destruct (IH ctx cfg id1 w2) as (x & w' & j & Hloop & Hj & Hc & Hpaging) end.
  { cbn. pose proof (answered_engine w res Ha). lia. }
  rewrite Hloop. cbn in Hj, Hc.
  eexists _, _, _. split; [reflexivity|].
  splits; [rewrite Hj, <- !app_assoc; reflexivity|assumption|].
  apply (paging_on _ _ id _ _ _ result out j x); auto.
Qed.

End RefactoredLoop2.

(** ** executeSearch as a whole *)

Ltac flatten :=
  repeat first [rewrite <- app_assoc | rewrite app_nil_r | progress cbn [app]];
  reflexivity.

Section RefactoredRun.

Import Backoff Executor Paging.

Lemma retryWithBackoff_run ctx c w :
  exists res err w' b,
    Refactored.retryWithBackoff ctx (Sys.perform c) w = (Ret (res, err), w')
    /\ getContext b = ctx
    /\ startTime (policy b) = clock w
    /\ cancelAt w' = cancelAt w
    /\ quota w' = quota w
    /\ (List.length (engine w') <= List.length (engine w))%nat
    /\ retry_summary c b w (err, res) w'
    /\ (err = None -> exists x, res = Some x /\ IsError x = false)
    /\ (err <> None -> res = None).
Proof.
  unfold Refactored.retryWithBackoff, bind.
  destruct (backoffCfg_run w) as (e & -> & He).
  destruct (Retry_summary c (Refactored.operation (Sys.perform c))
              (WithContext e ctx) None w (operation_attempts c) He)
    as ([err res] & w' & -> & Hc & Hq & Hlen & _ & Hsum).
  cbn [policy with_policy] in Hsum.
  destruct err as [e'|]; cbn [ret].
  - exists None, (Some e'), w', (WithContext (reset_at (clock w) e) ctx).
    splits; auto; try discriminate.
  - exists res, None, w', (WithContext (reset_at (clock w) e) ctx).
    splits; auto; [|congruence]. intros _.
    destruct Hsum as (pre & t & t' & a & notes & _ & _ & _ & _ & _ & (Hs & x & -> & ->) & _).
    exists x. split; [reflexivity|]. cbn in Hs. apply negb_true_iff in Hs. exact Hs.
Qed.

Lemma finish_run ctx id w :
  exists w' fin,
    Refactored.finish ctx id w = (Ret None, w')
    /\ journal w' = journal w ++ fin
    /\ cancelAt w' = cancelAt w
    /\ released id fin.
Proof.
  unfold Refactored.finish, Refactored.clearScroll, Sys.perform, bind.
  rewrite roundTrip_world.
  destruct (next_answer w) as [why|res]; cbn [ret].
  - eexists _, _. split; [reflexivity|]. cbn. rewrite <- app_assoc.
    splits; [reflexivity|reflexivity|].
    eexists _, _, _, [_]. split; [reflexivity|]. repeat constructor.
  - destruct (IsError res); cbn.
    + eexists _, _. split; [reflexivity|]. cbn. rewrite <- app_assoc.
      splits; [reflexivity|reflexivity|].
      eexists _, _, _, [_]. split; [reflexivity|]. repeat constructor.
    + eexists _, _. split; [reflexivity|]. cbn.
      splits; [reflexivity|reflexivity|].
      eexists _, _, _, []. split; [reflexivity|]. constructor.
Qed.

Lemma executeSearch_run ctx query cfg w :
  exists r w' j0 rest,
    Refactored.executeSearch ctx query cfg w = (Ret r, w')
    /\ journal w' = journal w ++ j0 ++ rest
    /\ cancelAt w' = cancelAt w
    /\ Forall (attempt_effect
                 (CSearch (Refactored.IndexName cfg) query
                          (Refactored.BatchSize cfg) (Refactored.ScrollDuration cfg))) j0
    /\ concluding (Refactored.ScrollDuration cfg) (horizon ctx w) rest r.
Proof.
  unfold Refactored.executeSearch. unfold bind at 1.
  destruct (retryWithBackoff_run ctx
              (CSearch (Refactored.IndexName cfg) query
                       (Refactored.BatchSize cfg) (Refactored.ScrollDuration cfg)) w)
    as (res & err & w1 & b & -> & _ & _ & Hc1 & _ & _ & Hsum & Hres & _).
  destruct Hsum as (pre & t & t' & a & notes & Hj1 & Hnotes & Hpre & _).
  assert (Hj0 : Forall (attempt_effect
                 (CSearch (Refactored.IndexName cfg) query
                          (Refactored.BatchSize cfg) (Refactored.ScrollDuration cfg)))
                (pre ++ Request t t' (CSearch (Refactored.IndexName cfg) query
                          (Refactored.BatchSize cfg) (Refactored.ScrollDuration cfg)) a
                     :: map Log notes)).
  { apply Forall_app. split; [assumption|]. constructor; [reflexivity|].
    apply Forall_forall. intros e He. apply in_map_iff in He as (l & <- & Hl).
    cbn. eapply Forall_forall in Hnotes; eauto. }
  destruct err as [e|].
  { eexists _, _, _, []. split; [reflexivity|].
    rewrite app_nil_r. splits; eauto. constructor. }
  destruct (Hres eq_refl) as (x & -> & Hx).
  destruct (Refactored.parseSearchResponse x) as [result|e] eqn:Hparse.
  2:{ eexists _, _, _, []. split; [reflexivity|].
      rewrite app_nil_r. splits; eauto. constructor. }
  unfold bind at 1. unfold Sys.say at 1. unfold bind at 1.
  match goal with |- context [Refactored.processHits _ ?w2] =>
    destruct (processHits_run (Refactored.Hits result) w2)
      as (werr & out & q & Hrun & Hout); rewrite Hrun; clear Hrun end.
  cbn [clock cancelAt engine dice journal record].
  destruct werr as [e|].
  { eexists _, _, _, (Log (SayInt "Total hits: %d" (Refactored.TotalHits result)) :: out).
    split; [reflexivity|]. cbn [journal cancelAt].
    splits; [|assumption|exact Hj0|].
    - rewrite Hj1. flatten.
    - apply concluding_unwritten. assumption. }
  unfold bind at 1. unfold Sys.patience at 1. cbn [engine]. unfold bind at 1.
  match goal with |- context [Refactored.scrollLoop _ ctx cfg ?id ?w3] =>
    destruct (scrollLoop_paging (S (List.length (engine w1))) ctx cfg id w3)
      as (y & w4 & j & Hloop & Hj4 & Hc4 & Hpaging) end.
  { cbn. lia. }
  rewrite Hloop. cbn in Hj4, Hc4.
  assert (Hh : horizon ctx
                 (mkWorld (clock w1) (cancelAt w1) (engine w1) (dice w1)
                    ((journal w1 ++ [Log (SayInt "Total hits: %d" (Refactored.TotalHits result))]) ++ out) q)
               = horizon ctx w).
  { unfold horizon. cbn. rewrite Hc1. reflexivity. }
  rewrite Hh in Hpaging.
  destruct y as [id'|e].
  - destruct (finish_run ctx id' w4) as (w5 & fin & Hfin & Hj5 & Hc5 & Hrel).
    rewrite Hfin.
    eexists _, _, _,
      (Log (SayInt "Total hits: %d" (Refactored.TotalHits result)) :: out ++ j ++ fin).
    split; [reflexivity|].
    splits; [|congruence|exact Hj0|].
    + rewrite Hj5, Hj4, Hj1. flatten.
    + eapply concluding_released; eauto.
  - eexists _, _, _,
      (Log (SayInt "Total hits: %d" (Refactored.TotalHits result)) :: out ++ j).
    split; [reflexivity|].
    splits; [|congruence|exact Hj0|].
    + rewrite Hj4, Hj1. flatten.
    + eapply concluding_aborted; eauto.
Qed.

End RefactoredRun.

(** ** Finding an effect in a journal *)

Section Locate.

Context {A : Type} (Q : A -> Prop).

Lemma skip_left (l1 l2 pre : list A) (e : A) (post : list A) :
  Forall Q l1 -> ~ Q e ->
  l1 ++ l2 = pre ++ e :: post ->
  exists pre', pre = l1 ++ pre' /\ l2 = pre' ++ e :: post.
Proof.
  revert pre. induction l1 as [|x l1 IH]; intros pre Hall Hne Heq.
  - exists pre. split; [reflexivity|exact Heq].
  - inversion Hall as [|? ? Hx Hl1]; subst.
    destruct pre as [|y pre]; cbn in Heq.
    + injection Heq as -> _. contradiction.
    + injection Heq as -> Heq.
      destruct (IH pre Hl1 Hne Heq) as (pre' & -> & ->).
      exists pre'. split; reflexivity.
Qed.

Lemma skip_right (l1 l2 pre : list A) (e : A) (post : list A) :
  Forall Q l2 -> ~ Q e ->
  l1 ++ l2 = pre ++ e :: post ->
  exists post', post = post' ++ l2 /\ l1 = pre ++ e :: post'.
Proof.
  revert pre. induction l1 as [|x l1 IH]; intros pre Hall Hne Heq.
  - exfalso. cbn in Heq. subst l2.
    apply Forall_app in Hall as (_ & Hall). inversion Hall. contradiction.
  - destruct pre as [|y pre]; cbn in Heq.
    + injection Heq as -> <-. exists l1. split; reflexivity.
    + injection Heq as -> Heq.
      destruct (IH pre Hall Hne Heq) as (post' & -> & ->).
      exists post'. split; reflexivity.
Qed.

End Locate.

(** ** What the journal of the loop tells *)

Section PagingFacts.

Import Executor Paging.

Lemma calls_outputs out : Forall is_output out -> calls out = [].
Proof.
  induction 1 as [|e out He _ IH]; [reflexivity|].
  destruct e; cbn in *; [contradiction|assumption|assumption].
Qed.

Lemma calls_notes notes : calls (map Log notes) = [].
Proof. induction notes; [reflexivity|assumption]. Qed.

Lemma request_no_output t t' c a : ~ is_output (Request t t' c a).
Proof. intros H. exact H. Qed.

(** Within the loop an empty page is the last request, and the loop is
    left by break. *)
Lemma paging_drained_last ttl cancelled id j x :
  paging ttl cancelled id j x ->
  forall pre t t' c a post,
    j = pre ++ Request t t' c a :: post ->
    drained a = true ->
    (exists id', x = inl id') /\ calls post = [].
Proof.
  induction 1 as [id|id t0 t0' a0 Hb Hd|id t0 t0' a0 e Hb Hp
                  |id t0 t0' a0 out e Hb Hd Hout
                  |id t0 t0' a0 result out j x Hb Hp Hd Hout Hrest IH];
    intros pre t t' c a post Heq Hdr.
  - destruct pre as [|? [|? ?]]; discriminate.
  - destruct pre as [|? [|? [|? ?]]]; try discriminate.
    injection Heq as _ _ _ <- <-. split; [eauto|reflexivity].
  - destruct pre as [|? [|? ?]]; try discriminate.
    injection Heq as _ _ _ <-. unfold drained in Hdr. rewrite Hp in Hdr. discriminate.
  - destruct pre as [|? pre]; cbn in Heq.
    + injection Heq as _ _ _ <- _. congruence.
    + injection Heq as _ Heq. exfalso. subst out.
      apply Forall_app in Hout as (_ & Hout). inversion Hout as [|? ? Hbad _].
      exact Hbad.
  - destruct pre as [|? pre]; cbn in Heq.
    + injection Heq as _ _ _ <- _. congruence.
    + injection Heq as _ Heq.
      destruct (skip_left is_output out j pre _ post Hout
                  (request_no_output t t' c a) Heq) as (pre' & _ & Hj).
      exact (IH pre' t t' c a post Hj Hdr).
Qed.


(** Every scroll of the loop is issued before the context is done. *)
Lemma paging_before ttl c0 id j x :
  paging ttl (Some c0) id j x ->
  Forall (fun e => is_request e = true -> issued_at e < c0) j.
Proof.
  induction 1 as [id|id t0 t0' a0 Hb Hd|id t0 t0' a0 e Hb Hp
                  |id t0 t0' a0 out e Hb Hd Hout
                  |id t0 t0' a0 result out j x Hb Hp Hd Hout Hrest IH].
  - repeat constructor. discriminate.
  - repeat constructor; [intros _; exact Hb|discriminate].
  - repeat constructor. intros _; exact Hb.
  - constructor; [intros _; exact Hb|].
    eapply Forall_impl; [|exact Hout]. intros [ | | ] Ho; cbn; try discriminate.
    contradiction.
  - constructor; [intros _; exact Hb|]. apply Forall_app. split; [|exact IH].
    eapply Forall_impl; [|exact Hout]. intros [ | | ] Ho; cbn; try discriminate.
    contradiction.
Qed.

End PagingFacts.

(** ** What the journal of executeSearch tells *)

Section Conclusions.

Import Executor Paging.

Lemma released_calls id fin : released id fin -> calls fin = [CClearScroll id].
Proof.
  intros (t & t' & a & notes & -> & _). cbn. rewrite calls_notes. reflexivity.
Qed.

Lemma released_no_scroll id fin : released id fin -> Forall no_scroll fin.
Proof.
  intros (t & t' & a & notes & -> & _). constructor; [exact I|].
  apply Forall_forall. intros e He. apply in_map_iff in He as (l & <- & _). exact I.
Qed.



Lemma concluding_drained ttl cancelled rest r :
  concluding ttl cancelled rest r ->
  forall pre t t' id ttl' a post,
    rest = pre ++ Request t t' (CScroll id ttl') a :: post ->
    drained a = true ->
    r = None /\ exists id', calls post = [CClearScroll id'].
Proof.
  intros H pre t t' id ttl' a post Heq Hd.
  assert (Hreq : ~ is_output (Request t t' (CScroll id ttl') a)) by (intros X; exact X).
  assert (Hscroll : ~ no_scroll (Request t t' (CScroll id ttl') a)) by (intros X; exact X).
  destruct H as [e|n out e Hout|n out id0 j e Hout Hp|n out id0 j id' fin Hout Hp Hrel].
  - destruct pre; discriminate.
  - destruct pre as [|? pre]; [discriminate|]. injection Heq as _ Heq.
    exfalso. subst out. apply Forall_app in Hout as (_ & Hout).
    inversion Hout as [|? ? Hbad _]. exact Hbad.
  - destruct pre as [|? pre]; [discriminate|]. injection Heq as _ Heq.
    destruct (skip_left is_output out j pre _ post Hout Hreq Heq) as (pre' & _ & Hj).
    destruct (paging_drained_last _ _ _ _ _ Hp _ _ _ _ _ _ Hj Hd) as ((id' & Hx) & _).
    discriminate.
  - destruct pre as [|? pre]; [discriminate|]. injection Heq as _ Heq.
    destruct (skip_left is_output out (j ++ fin) pre _ post Hout Hreq Heq)
      as (pre' & _ & Hj).
    destruct (skip_right no_scroll j fin pre' _ post
                (released_no_scroll _ _ Hrel) Hscroll Hj) as (post' & -> & Hj').
    destruct (paging_drained_last _ _ _ _ _ Hp _ _ _ _ _ _ Hj' Hd) as (_ & Hcalls).
    split; [reflexivity|]. exists id'.
    rewrite calls_app, Hcalls. apply released_calls. assumption.
Qed.


Lemma concluding_before ttl c0 rest r :
  concluding ttl (Some c0) rest r ->
  forall pre t t' id ttl' a post,
    rest = pre ++ Request t t' (CScroll id ttl') a :: post ->
    t < c0.
Proof.
  intros H pre t t' id ttl' a post Heq.
  assert (Hreq : ~ is_output (Request t t' (CScroll id ttl') a)) by (intros X; exact X).
  assert (Hscroll : ~ no_scroll (Request t t' (CScroll id ttl') a)) by (intros X; exact X).
  assert (Hin : forall id0 j x, paging ttl (Some c0) id0 j x ->
                forall pre' post',
                  j = pre' ++ Request t t' (CScroll id ttl') a :: post' -> t < c0).
  { intros id0 j x Hp pre' post' Hj. apply paging_before in Hp. subst j.
    apply Forall_app in Hp as (_ & Hp). inversion Hp as [|? ? Hhere _].
    apply Hhere. reflexivity. }
  destruct H as [e|n out e Hout|n out id0 j e Hout Hp|n out id0 j id' fin Hout Hp Hrel].
  - destruct pre; discriminate.
  - destruct pre as [|? pre]; [discriminate|]. injection Heq as _ Heq.
    exfalso. subst out. apply Forall_app in Hout as (_ & Hout).
    inversion Hout as [|? ? Hbad _]. exact Hbad.
  - destruct pre as [|? pre]; [discriminate|]. injection Heq as _ Heq.
    destruct (skip_left is_output out j pre _ post Hout Hreq Heq) as (pre' & _ & Hj).
    eapply Hin; eauto.
  - destruct pre as [|? pre]; [discriminate|]. injection Heq as _ Heq.
    destruct (skip_left is_output out (j ++ fin) pre _ post Hout Hreq Heq)
      as (pre' & _ & Hj).
    destruct (skip_right no_scroll j fin pre' _ post
                (released_no_scroll _ _ Hrel) Hscroll Hj) as (post' & _ & Hj').
    eapply Hin; eauto.
Qed.

End Conclusions.

(** ** The claims about refactored/main.go *)

Section RefactoredClaims.

Import Executor Paging.

Lemma attempts_no_scroll index query size ttl j :
  Forall (attempt_effect (CSearch index query size ttl)) j -> Forall no_scroll j.
Proof.
  apply Forall_impl. intros [t t' c' a|l|l] H; cbn in *; auto.
  subst c'. exact I.
Qed.

Lemma executeSearch_drained ctx query cfg w r w' pre t t' id ttl a post :
  Refactored.executeSearch ctx query cfg w = (r, w') ->
  journal w' = journal w ++ pre ++ Request t t' (CScroll id ttl) a :: post ->
  drained a = true ->
  r = Ret None /\ exists id', calls post = [CClearScroll id'].
Proof.
  intros Hrun Hj Hd.
  destruct (executeSearch_run ctx query cfg w)
    as (r0 & w0 & j0 & rest & Hrun' & Hj' & _ & Hj0 & Hc).
  rewrite Hrun in Hrun'. injection Hrun' as -> <-.
  rewrite Hj' in Hj. apply app_inv_head in Hj.
  destruct (skip_left no_scroll j0 rest pre (Request t t' (CScroll id ttl) a) post
              (attempts_no_scroll _ _ _ _ _ Hj0) (fun X => X) Hj) as (pre' & _ & Hrest).
  destruct (concluding_drained _ _ _ _ Hc _ _ _ _ _ _ _ Hrest Hd) as (-> & Hpost).
  split; [reflexivity|assumption].
Qed.

(** C8.  In refactored/main.go, under a context that is cancelled at
    [c0]: the retrying executor issues every attempt but its first before
    [c0], and it returns when the answer to its last attempt arrives or,
    when that answer came before [c0] and the wait after it was cut short,
    at [c0] itself with the context's error; and every scroll of
    executeSearch is issued before [c0]. *)
Theorem cancellation_is_observed :
  (forall c w c0 res err w',
      cancelAt w = Some c0 ->
      Refactored.retryWithBackoff Cancellable (Sys.perform c) w = (Ret (res, err), w') ->
      exists pre t t' a notes,
        journal w' = journal w ++ pre ++ Request t t' c a :: map Log notes
        /\ Forall (fun e => is_request e = true ->
                            issued_at e = clock w \/ issued_at e < c0)
                  (pre ++ [Request t t' c a])
        /\ (clock w' = t'
            \/ (err = Some ECanceled /\ t' < c0 /\ clock w' = c0)))
  /\ (forall query cfg w c0 r w' pre t t' id ttl a post,
         cancelAt w = Some c0 ->
         Refactored.executeSearch Cancellable query cfg w = (r, w') ->
         journal w' = journal w ++ pre ++ Request t t' (CScroll id ttl) a :: post ->
         t < c0).
Proof.
  split.
  - intros c w c0 res err w' Hc Hrun.
    destruct (retryWithBackoff_run Cancellable c w)
      as (res0 & err0 & w0 & b & Hrun' & Hctx & Hstart & _ & _ & _ & Hsum & _ & _).
    rewrite Hrun in Hrun'. injection Hrun' as <- <- <-.
    destruct Hsum as (pre & t & t' & a & notes & Hj & _ & _ & _ & Hwithin & _ & Hclock & _).
    assert (Hg : guard b w = Some c0) by (unfold guard; rewrite Hctx; exact Hc).
    rewrite Hg in *.
    exists pre, t, t', a, notes. splits; [assumption| |].
    + eapply Forall_impl; [|exact Hwithin]. intros e He Hreq.
      destruct (He Hreq) as (_ & Hcase). exact Hcase.
    + destruct Hclock as [Hclock|(Herr & c1 & [= <-] & Hlt & Hclock)];
        [left; assumption|right]. cbn in Herr. auto.
  - intros query cfg w c0 r w' pre t t' id ttl a post Hc Hrun Hj.
    destruct (executeSearch_run Cancellable query cfg w)
      as (r0 & w0 & j0 & rest & Hrun' & Hj' & _ & Hj0 & Hconc).
    rewrite Hrun in Hrun'. injection Hrun' as -> <-.
    rewrite Hj' in Hj. apply app_inv_head in Hj.
    destruct (skip_left no_scroll j0 rest pre (Request t t' (CScroll id ttl) a) post
                (attempts_no_scroll _ _ _ _ _ Hj0) (fun X => X) Hj) as (pre' & _ & Hrest).
    unfold horizon in Hconc. rewrite Hc in Hconc.
    exact (concluding_before _ _ _ _ Hconc _ _ _ _ _ _ _ Hrest).
Qed.

End RefactoredClaims.

(** ** The client and the processor *)

Section ClientFacts.

Import Backoff Executor Turning.

Lemma must_run {A} (x : option A) w :
  Client.must x w = match x with Some a => (Ret a, w) | None => (Halt Panicked, w) end.
Proof. destruct x; reflexivity. Qed.

Lemma sources_pure hits : forall w,
  Client.sources hits w = (fst (Client.sources hits nowhere), w).
Proof.
  induction hits as [|hit rest IH]; intros w; [reflexivity|].
  cbn [Client.sources]. unfold bind. rewrite !must_run.
  destruct (as_object (Some hit)) as [hitMap|]; [|reflexivity].
  rewrite !must_run.
  destruct (as_object (lookup "_source" hitMap)) as [source|]; [|reflexivity].
  rewrite (IH w), (IH nowhere). cbn [fst snd].
  destruct (fst (Client.sources rest nowhere)); reflexivity.
Qed.

Lemma parseScrollResponse_pure body w :
  Client.parseScrollResponse body w = (parsed body, w).
Proof.
  unfold parsed, Client.parseScrollResponse.
  destruct (decode_into [] body) as [result|]; [|reflexivity].
  destruct (as_string (lookup "_scroll_id" result)) as [scrollID|]; [|reflexivity].
  unfold bind. rewrite !must_run.
  destruct (as_object (lookup "hits" result)) as [hitsObj|]; [|reflexivity].
  rewrite !must_run.
  destruct (as_object (lookup "total" hitsObj)) as [totalObj|]; [|reflexivity].
  rewrite !must_run.
  destruct (as_float64 (lookup "value" totalObj)) as [v|]; [|reflexivity].
  rewrite !must_run.
  destruct (as_array (lookup "hits" hitsObj)) as [hits|]; [|reflexivity].
  rewrite (sources_pure hits w), (sources_pure hits nowhere). cbn [fst snd].
  destruct (fst (Client.sources hits nowhere)); reflexivity.
Qed.

End ClientFacts.

Section ClientRuns.

Import Backoff Executor Turning.

(** The shape InitialSearch and Scroll share: the policy, the retried
    request, and the parsing of the response that ended the retrying. *)
Lemma request_run c failure w :
  exists r w' pre t t' a notes,
    (backoffConfig <- Client.newBackoffConfig ;;
     '(err, res) <- Retry (Client.attempt c) (Bare backoffConfig) None ;;
     match err with
     | Some e => ret (inr (EWrap failure e))
     | None => res <- Client.must res ;; Client.parseScrollResponse (Body res)
     end) w = (r, w')
    /\ journal w' = journal w ++ pre ++ Request t t' c a :: map Log notes
    /\ Forall is_report notes
    /\ Forall (attempt_effect c) pre
    /\ Forall (fun e => succeeded (answer_in e) = false) pre
    /\ cancelAt w' = cancelAt w
    /\ (List.length (engine w') <= List.length (engine w))%nat
    /\ (if succeeded a
        then exists x, a = Replied x /\ r = parsed (Body x)
                       /\ (List.length (engine w') < List.length (engine w))%nat
        else exists e, r = Ret (inr (EWrap failure e))).
Proof.
  unfold bind at 1.
  destruct (newBackoffConfig_run w) as (e & -> & He).
  unfold bind at 1.
  destruct (Retry_summary c (Client.attempt c) (Bare e) None w (attempt_attempts c) He)
    as ([err res] & w' & -> & Hc & _ & Hlen & Hlt & Hsum).
  destruct Hsum as (pre & t & t' & a & notes & Hj & Hnotes & Hpre & Hfailed & _ & Hres & _).
  destruct err as [e'|].
  - exists (Ret (inr (EWrap failure e'))), w', pre, t, t', a, notes.
    rewrite Hres. splits; eauto.
  - destruct Hres as (Hs & x & -> & ->).
    unfold bind. rewrite must_run, parseScrollResponse_pure.
    exists (parsed (Body x)), w', pre, t, t', (Replied x), notes.
    rewrite Hs. splits; auto. exists x. splits; auto.
Qed.

Lemma Scroll_run cl ctx id w :
  exists r w' pre t t' a notes,
    Client.Scroll cl ctx id w = (r, w')
    /\ journal w' = journal w
                    ++ pre ++ Request t t' (CScroll id (Client.scrollDuration cl)) a
                              :: map Log notes
    /\ Forall is_report notes
    /\ Forall (attempt_effect (CScroll id (Client.scrollDuration cl))) pre
    /\ Forall (fun e => succeeded (answer_in e) = false) pre
    /\ cancelAt w' = cancelAt w
    /\ (List.length (engine w') <= List.length (engine w))%nat
    /\ (if succeeded a
        then exists x, a = Replied x /\ r = parsed (Body x)
                       /\ (List.length (engine w') < List.length (engine w))%nat
        else exists e, r = Ret (inr (EWrap "scroll request failed" e))).
Proof.
  exact (request_run (CScroll id (Client.scrollDuration cl)) "scroll request failed" w).
Qed.

Lemma InitialSearch_run cl ctx query w :
  let c := CSearch (Client.indexName cl) query (Client.batchSize cl)
                   (Client.scrollDuration cl) in
  exists r w' pre t t' a notes,
    Client.InitialSearch cl ctx query w = (r, w')
    /\ journal w' = journal w ++ pre ++ Request t t' c a :: map Log notes
    /\ Forall is_report notes
    /\ Forall (attempt_effect c) pre
    /\ Forall (fun e => succeeded (answer_in e) = false) pre
    /\ cancelAt w' = cancelAt w
    /\ (List.length (engine w') <= List.length (engine w))%nat
    /\ (if succeeded a
        then exists x, a = Replied x /\ r = parsed (Body x)
                       /\ (List.length (engine w') < List.length (engine w))%nat
        else exists e, r = Ret (inr (EWrap "initial search failed" e))).
Proof.
  exact (request_run _ "initial search failed" w).
Qed.

Lemma ProcessHits_run hits : forall w,
  exists err out q,
    Processor.ProcessHits hits w
    = (Ret err, mkWorld (clock w) (cancelAt w) (engine w) (dice w)
                        (journal w ++ map Write out) q)
    /\ (err = None ->
        out = flat_map (fun hit => match lookup "title" hit with
                                   | Some message => [Sprintf_s message]
                                   | None => []
                                   end) hits).
Proof.
  induction hits as [|hit rest IH]; intros w.
  - exists None, [], (quota w). cbn. rewrite app_nil_r.
    destruct w; split; reflexivity.
  - cbn [Processor.ProcessHits flat_map].
    destruct (lookup "title" hit) as [message|].
    + unfold bind, Sys.WriteString.
      destruct (quota w) as [[|n]|] eqn:Hq.
      * exists (Some (EWrap "failed to write to file" EWrite)), [], (quota w).
        cbn. rewrite app_nil_r. destruct w; split; [reflexivity|discriminate].
      * match goal with |- context [Processor.ProcessHits rest ?w1] =>
          destruct (IH w1) as (err & out & q & Hrun & Hout) end.
        rewrite Hrun. cbn.
        exists err, (Sprintf_s message :: out), q.
        rewrite <- app_assoc. split; [reflexivity|].
        intros E. rewrite (Hout E). reflexivity.
      * match goal with |- context [Processor.ProcessHits rest ?w1] =>
          destruct (IH w1) as (err & out & q & Hrun & Hout) end.
        rewrite Hrun. cbn.
        exists err, (Sprintf_s message :: out), q.
        rewrite <- app_assoc. split; [reflexivity|].
        intros E. rewrite (Hout E). reflexivity.
    + destruct (IH w) as (err & out & q & Hrun & Hout).
      exists err, out, q. split; [assumption|]. exact Hout.
Qed.

End ClientRuns.

(** ** The loop of the main.go that drives the client *)

Section TurningFacts.

Import Backoff Executor Turning.

Lemma drained_succeeded a : drained a = true -> succeeded a = true.
Proof.
  destruct a as [why|x]; cbn; [discriminate|].
  intros H. apply andb_true_iff in H as (H & _). exact H.
Qed.

Lemma failed_undrained pre :
  Forall (fun e => succeeded (answer_in e) = false) pre -> Forall undrained pre.
Proof.
  apply Forall_impl. intros [t t' c a|l|l] H; cbn in *; auto.
  destruct (drained a) eqn:Hd; [|reflexivity].
  apply drained_succeeded in Hd. congruence.
Qed.

Lemma logs_undrained notes : Forall undrained (map Log notes).
Proof. apply Forall_forall. intros e He. apply in_map_iff in He as (l & <- & _). exact I. Qed.

Lemma writes_undrained out : Forall undrained (map Write out).
Proof. apply Forall_forall. intros e He. apply in_map_iff in He as (l & <- & _). exact I. Qed.

Lemma calls_writes out : calls (map Write out) = [].
Proof. induction out; [reflexivity|assumption]. Qed.

Lemma ends_none j (ok : Prop) : Forall undrained j -> ends_when_drained j ok.
Proof.
  intros Hall pre t t' c a post -> Hd. exfalso.
  apply Forall_app in Hall as (_ & Hall). inversion Hall as [|? ? Hbad _].
  cbn in Hbad. congruence.
Qed.

Lemma ends_app j1 j2 (ok : Prop) :
  Forall undrained j1 -> ends_when_drained j2 ok -> ends_when_drained (j1 ++ j2) ok.
Proof.
  intros Hall H2 pre t t' c a post Heq Hd.
  destruct (skip_left undrained j1 j2 pre (Request t t' c a) post Hall) as (pre' & _ & Hj2).
  - cbn. congruence.
  - exact Heq.
  - exact (H2 pre' t t' c a post Hj2 Hd).
Qed.

Lemma ends_here j1 t t' c a j2 (ok : Prop) :
  Forall undrained j1 -> ok -> calls j2 = [] ->
  ends_when_drained (j1 ++ Request t t' c a :: j2) ok.
Proof.
  intros Hall Hok Hcalls pre t0 t0' c0 a0 post Heq Hd.
  destruct (skip_left undrained j1 (Request t t' c a :: j2) pre
              (Request t0 t0' c0 a0) post Hall)
    as (pre' & _ & Hj2); [cbn; congruence|exact Heq|].
  destruct pre' as [|e pre']; cbn in Hj2.
  - injection Hj2 as _ _ _ _ <-. auto.
  - injection Hj2 as _ Hj2. exfalso. subst j2.
    rewrite calls_app in Hcalls. cbn in Hcalls.
    destruct (calls pre'); discriminate.
Qed.

Lemma ends_weaken j (ok ok' : Prop) :
  (ok -> ok') -> ends_when_drained j ok -> ends_when_drained j ok'.
Proof.
  intros Himp H pre t t' c a post Heq Hd.
  destruct (H pre t t' c a post Heq Hd). auto.
Qed.

Lemma sources_halts hits why :
  fst (Client.sources hits nowhere) = Halt why -> why = Panicked.
Proof.
  induction hits as [|hit rest IH]; cbn [Client.sources]; [discriminate|].
  unfold bind. rewrite must_run.
  destruct (as_object (Some hit)) as [hitMap|]; [|cbn; congruence].
  rewrite must_run.
  destruct (as_object (lookup "_source" hitMap)) as [source|]; [|cbn; congruence].
  rewrite sources_pure. cbn [fst snd] in *.
  destruct (fst (Client.sources rest nowhere)); cbn; [discriminate|].
  intros [= <-]. apply IH. reflexivity.
Qed.

Lemma parsed_halts body why : parsed body = Halt why -> why = Panicked.
Proof.
  unfold parsed, Client.parseScrollResponse.
  destruct (decode_into [] body) as [result|]; [|discriminate].
  destruct (as_string (lookup "_scroll_id" result)) as [scrollID|]; [|discriminate].
  unfold bind. rewrite !must_run.
  destruct (as_object (lookup "hits" result)) as [hitsObj|]; [|cbn; congruence].
  rewrite !must_run.
  destruct (as_object (lookup "total" hitsObj)) as [totalObj|]; [|cbn; congruence].
  rewrite !must_run.
  destruct (as_float64 (lookup "value" totalObj)) as [v|]; [|cbn; congruence].
  rewrite !must_run.
  destruct (as_array (lookup "hits" hitsObj)) as [hits|]; [|cbn; congruence].
  rewrite (sources_pure hits nowhere). cbn [fst snd].
  destruct (fst (Client.sources hits nowhere)) eqn:Hs; cbn; [discriminate|].
  intros [= <-]. eapply sources_halts. eassumption.
Qed.

Lemma pages_run : forall fuel cl ctx result cur tot w,
  (List.length (engine w) < fuel)%nat ->
  exists x w' j,
    Modular.pages fuel cl ctx result cur tot w = (x, w')
    /\ x <> Halt OutOfFuel
    /\ journal w' = journal w ++ j
    /\ cancelAt w' = cancelAt w
    /\ ends_when_drained j (exists last, x = Ret last).
Proof.
  induction fuel as [|fuel IH]; intros cl ctx result cur tot w Hfuel; [lia|].
  cbn [Modular.pages]. unfold bind at 1. unfold Sys.say at 1.
  set (l1 := Log (SayInts "Processing page %d of %d" (GoInt.add cur 1) tot)).
  unfold bind at 1.
  destruct (Scroll_run cl ctx (Client.ScrollID result) (record l1 w))
    as (r & w2 & pre & t & t' & a & notes & -> & Hj & Hnotes & Hpre & Hfailed
        & Hc & Hlen & Hres).
  cbn [journal record cancelAt engine] in Hj, Hc, Hlen, Hres.
  assert (Hund : Forall undrained ((l1 :: pre))).
  { constructor; [exact I|]. apply failed_undrained. assumption. }
  assert (Hhalt : forall (x : Res Client.ScrollResult) tail,
             drained a = false -> Forall undrained tail ->
             ends_when_drained
               ((l1 :: pre) ++ Request t t' (CScroll (Client.ScrollID result)
                                                     (Client.scrollDuration cl)) a
                  :: map Log notes ++ tail) (exists last, x = Ret last)).
  { intros x tail Hd Htail. apply ends_none.
    apply Forall_app. split; [assumption|]. constructor; [exact Hd|].
    apply Forall_app. split; [apply logs_undrained|assumption]. }
  destruct (succeeded a) eqn:Hs.
  2:{ destruct Hres as (e & ->).
      assert (Hd : drained a = false).
      { destruct (drained a) eqn:Hd; [|reflexivity].
        apply drained_succeeded in Hd. congruence. }
      eexists _, _,
        ((l1 :: pre) ++ Request t t' (CScroll (Client.ScrollID result)
                                               (Client.scrollDuration cl)) a
           :: map Log notes
              ++ [Log (SayErr "Failed to scroll: %v" (EWrap "scroll request failed" e))]).
      split; [reflexivity|]. cbn [journal record cancelAt].
      splits; [discriminate| |assumption|apply (Hhalt _ _ Hd); repeat constructor].
      rewrite Hj. flatten. }
  destruct Hres as (x & -> & -> & Hlt).
  destruct (parsed (Body x)) as [[page|e]|why] eqn:Hparsed.
  3:{ assert (Hd : drained (Replied x) = false)
        by (cbn; rewrite Hparsed; apply andb_false_r).
      eexists _, _,
        ((l1 :: pre) ++ Request t t' (CScroll (Client.ScrollID result)
                                               (Client.scrollDuration cl)) (Replied x)
           :: map Log notes ++ []).
      split; [reflexivity|].
      assert (Hwhy : why <> OutOfFuel)
        by (rewrite (parsed_halts _ _ Hparsed); discriminate).
      splits; [congruence| |assumption|apply (Hhalt _ _ Hd); constructor].
      rewrite Hj, app_nil_r. flatten. }
  2:{ assert (Hd : drained (Replied x) = false)
        by (cbn; rewrite Hparsed; apply andb_false_r).
      eexists _, _,
        ((l1 :: pre) ++ Request t t' (CScroll (Client.ScrollID result)
                                               (Client.scrollDuration cl)) (Replied x)
           :: map Log notes ++ [Log (SayErr "Failed to scroll: %v" e)]).
      split; [reflexivity|]. cbn [journal record cancelAt].
      splits; [discriminate| |assumption|apply (Hhalt _ _ Hd); repeat constructor].
      rewrite Hj. flatten. }
  destruct (Client.Hits page) as [|hit hits] eqn:Hhits.
  { eexists _, _,
      ((l1 :: pre) ++ Request t t' (CScroll (Client.ScrollID result)
                                             (Client.scrollDuration cl)) (Replied x)
         :: map Log notes ++ [Log (Say "No more hits to process")]).
    split; [reflexivity|]. cbn [journal record cancelAt].
    splits; [discriminate| |assumption|].
    - rewrite Hj. flatten.
    - apply ends_here; [assumption|eauto|].
      rewrite calls_app, calls_notes. reflexivity. }
  assert (Hd : drained (Replied x) = false).
  { cbn. rewrite Hparsed, Hhits. apply andb_false_r. }
  unfold bind at 1.
  destruct (ProcessHits_run (hit :: hits) w2) as (err & out & q & -> & _).
  destruct err as [e|].
  { eexists _, _,
      ((l1 :: pre) ++ Request t t' (CScroll (Client.ScrollID result)
                                             (Client.scrollDuration cl)) (Replied x)
         :: map Log notes
            ++ (map Write out ++ [Log (SayErr "Failed to process hits: %v" e)])).
    split; [reflexivity|]. cbn [journal record cancelAt].
    splits; [discriminate| |assumption|].
    - rewrite Hj. flatten.
    - apply (Hhalt _ _ Hd). apply Forall_app. split; [apply writes_undrained|].
      repeat constructor. }
  match goal with |- context [Modular.pages fuel cl ctx page ?cur1 tot ?w3] =>
    destruct (IH cl ctx page cur1 tot w3) as (y & w4 & j & Hloop & Hy & Hj4 & Hc4 & Hends) end.
  { cbn [engine]. lia. }
  rewrite Hloop. cbn [journal cancelAt] in Hj4, Hc4.
  exists y, w4,
    (((l1 :: pre) ++ Request t t' (CScroll (Client.ScrollID result)
                                           (Client.scrollDuration cl)) (Replied x)
        :: map Log notes ++ map Write out) ++ j).
  split; [reflexivity|].
  splits; [assumption| |congruence|].
  - rewrite Hj4, Hj. flatten.
  - apply ends_app; [|assumption].
    apply Forall_app. split; [assumption|]. constructor; [exact Hd|].
    apply Forall_app. split; [apply logs_undrained|apply writes_undrained].
Qed.

End TurningFacts.

(** ** The main.go that drives the client, as a whole *)

Section ModularRun.

Import Backoff Executor Turning Paging.

Lemma notes_no_scroll notes : Forall no_scroll (map Log notes).
Proof. apply Forall_forall. intros e He. apply in_map_iff in He as (l & <- & _). exact I. Qed.

Lemma writes_no_scroll out : Forall no_scroll (map Write out).
Proof. apply Forall_forall. intros e He. apply in_map_iff in He as (l & <- & _). exact I. Qed.

Lemma ends_nil (ok : Prop) : ends_when_drained [] ok.
Proof. apply ends_none. constructor. Qed.

Lemma main_run cfg queryStr w :
  exists r w' before loop after,
    Modular.main cfg queryStr w = (r, w')
    /\ r <> Halt OutOfFuel
    /\ journal w' = journal w ++ before ++ loop ++ after
    /\ Forall no_scroll before
    /\ Forall no_scroll after
    /\ ends_when_drained loop (r = Ret tt /\ exists id, calls after = [CClearScroll id]).
Proof.
  unfold Modular.main. unfold bind at 1.
  destruct (InitialSearch_run
              (Client.NewESClient (Modular.ScrollDuration cfg) (Modular.BatchSize cfg)
                                  (Modular.IndexName cfg)) Background queryStr w)
    as (r & w1 & pre & t & t' & a & notes & -> & Hj1 & _ & Hpre & _ & _ & _ & Hres).
  cbn [Client.indexName Client.batchSize Client.scrollDuration Client.NewESClient] in *.
  set (c := CSearch (Modular.IndexName cfg) queryStr (Modular.BatchSize cfg)
                    (Modular.ScrollDuration cfg)) in *.
  assert (Hsearch : Forall no_scroll (pre ++ Request t t' c a :: map Log notes)).
  { apply Forall_app. split; [eapply attempts_no_scroll; exact Hpre|].
    constructor; [exact I|apply notes_no_scroll]. }
  assert (Hearly : forall (r : Res unit) (j' tail : list Effect),
             r <> Halt OutOfFuel ->
             j' = journal w1 ++ tail -> Forall no_scroll tail ->
             exists before loop after,
               r <> Halt OutOfFuel
               /\ j' = journal w ++ before ++ loop ++ after
               /\ Forall no_scroll before
               /\ Forall no_scroll after
               /\ ends_when_drained loop
                    (r = Ret tt /\ exists id, calls after = [CClearScroll id])).
  { intros r0 j' tail Hr Hj Htail.
    exists ((pre ++ Request t t' c a :: map Log notes) ++ tail), [], [].
    splits; auto.
    - rewrite Hj, Hj1. flatten.
    - apply Forall_app. split; assumption.
    - apply ends_nil. }
  assert (Hfinal : forall r : Res unit * World,
            (let (x, w') := r in exists before loop after,
               x <> Halt OutOfFuel
               /\ journal w' = journal w ++ before ++ loop ++ after
               /\ Forall no_scroll before
               /\ Forall no_scroll after
               /\ ends_when_drained loop
                    (x = Ret tt /\ exists id, calls after = [CClearScroll id])) ->
            exists x w' before loop after, r = (x, w')
               /\ x <> Halt OutOfFuel
               /\ journal w' = journal w ++ before ++ loop ++ after
               /\ Forall no_scroll before
               /\ Forall no_scroll after
               /\ ends_when_drained loop
                    (x = Ret tt /\ exists id, calls after = [CClearScroll id])).
  { intros [x w'] (before & loop & after & H). exists x, w', before, loop, after.
    split; [reflexivity|exact H]. }
  apply Hfinal.
  destruct (succeeded a).
  2:{ destruct Hres as (e & ->). cbn.
      eapply Hearly; [discriminate|reflexivity|repeat constructor]. }
  destruct Hres as (x & -> & -> & _).
  destruct (parsed (Body x)) as [[result|e]|why] eqn:Hparsed.
  3:{ cbn. apply (Hearly _ _ []); [|symmetry; apply app_nil_r|constructor].
      rewrite (parsed_halts _ _ Hparsed). discriminate. }
  2:{ cbn. eapply Hearly; [discriminate|reflexivity|repeat constructor]. }
  unfold bind at 1. rewrite must_run.
  destruct (totalPages (Client.Total result) (Modular.BatchSize cfg)) as [total|].
  2:{ cbn. apply (Hearly _ _ []); [discriminate|symmetry; apply app_nil_r|constructor]. }
  unfold bind at 1. unfold Sys.say at 1.
  set (l1 := Log (SayInts "Processing page %d of %d" 1 total)).
  unfold bind at 1.
  destruct (ProcessHits_run (Client.Hits result) (record l1 w1)) as (err & out & q & -> & _).
  cbn [record clock cancelAt engine dice journal].
  destruct err as [e|].
  { cbn. apply (Hearly _ _ (l1 :: map Write out
                                ++ [Log (SayErr "Failed to process hits: %v" e)]));
      [discriminate|flatten|].
    constructor; [exact I|]. apply Forall_app. split; [apply writes_no_scroll|].
    repeat constructor. }
  unfold bind at 1. unfold Sys.patience at 1. cbn [engine]. unfold bind at 1.
  match goal with |- context [Modular.pages _ ?cl ?ctx result 1 total ?w3] =>
    destruct (pages_run (S (List.length (engine w1))) cl ctx result 1 total w3)
      as (y & w4 & j & -> & Hy & Hj4 & Hc4 & Hends) end.
  { cbn [engine]. lia. }
  cbn [journal] in Hj4.
  destruct y as [last|why].
  2:{ cbv beta iota.
      exists ((pre ++ Request t t' c (Replied x) :: map Log notes) ++ l1 :: map Write out), j, [].
      splits; [intros [= ->]; apply Hy; reflexivity| | |constructor|].
      - rewrite Hj4, Hj1. flatten.
      - apply Forall_app. split; [assumption|]. constructor; [exact I|].
        apply writes_no_scroll.
      - eapply ends_weaken; [|exact Hends]. intros (last & Hlast). discriminate. }
  cbv beta iota. unfold bind at 1. unfold Client.ClearScroll, Sys.perform.
  unfold bind at 1. unfold bind at 1. rewrite roundTrip_world.
  set (rel := Request (clock w4) (back w4) (CClearScroll (Client.ScrollID last))
                      (next_answer w4)).
  destruct (next_answer w4) as [why|res] eqn:Hans; unfold ret, Sys.say; cbv beta iota.
  - exists ((pre ++ Request t t' c (Replied x) :: map Log notes) ++ l1 :: map Write out), j,
      [rel; Log (SayErr "Warning: failed to clear scroll: %v" (ETransport why))].
    splits; [discriminate| | |repeat constructor|].
    + cbn. rewrite Hj4, Hj1. flatten.
    + apply Forall_app. split; [assumption|]. constructor; [exact I|].
      apply writes_no_scroll.
    + eapply ends_weaken; [|exact Hends]. intros _. split; [reflexivity|].
      exists (Client.ScrollID last). reflexivity.
  - exists ((pre ++ Request t t' c (Replied x) :: map Log notes) ++ l1 :: map Write out), j, [rel].
    splits; [discriminate| | |repeat constructor|].
    + cbn. rewrite Hj4, Hj1. flatten.
    + apply Forall_app. split; [assumption|]. constructor; [exact I|].
      apply writes_no_scroll.
    + eapply ends_weaken; [|exact Hends]. intros _. split; [reflexivity|].
      exists (Client.ScrollID last). reflexivity.
Qed.

End ModularRun.

(** ** An empty page ends the loop *)

(** C1.  In every run of executeSearch of refactored/main.go and in every
    run of the main.go that drives the client: once a scroll has been
    answered by a page without records, no further scroll is issued; the
    only request that follows is the release of a cursor, and the run ends
    without an error (executeSearch returns nil, main returns). *)
Theorem empty_page_ends_the_loop :
  (forall ctx query cfg w r w' pre t t' id ttl a post,
      Refactored.executeSearch ctx query cfg w = (r, w') ->
      journal w' = journal w ++ pre ++ Request t t' (CScroll id ttl) a :: post ->
      Paging.drained a = true ->
      r = Ret None /\ exists id', calls post = [CClearScroll id'])
  /\ (forall cfg queryStr w r w' pre t t' id ttl a post,
         Modular.main cfg queryStr w = (r, w') ->
         journal w' = journal w ++ pre ++ Request t t' (CScroll id ttl) a :: post ->
         Turning.drained a = true ->
         r = Ret tt /\ exists id', calls post = [CClearScroll id']).
Proof.
  split; [exact executeSearch_drained|].
  intros cfg queryStr w r w' pre t t' id ttl a post Hrun Hj Hd.
  destruct (main_run cfg queryStr w)
    as (r0 & w0 & before & loop & after & Hrun' & _ & Hj' & Hbefore & Hafter & Hends).
  rewrite Hrun in Hrun'. injection Hrun' as <- <-.
  rewrite Hj' in Hj. apply app_inv_head in Hj.
  destruct (skip_left Paging.no_scroll before (loop ++ after) pre
              (Request t t' (CScroll id ttl) a) post Hbefore (fun X => X) Hj)
    as (pre' & _ & Hrest).
  destruct (skip_right Paging.no_scroll loop after pre'
              (Request t t' (CScroll id ttl) a) post Hafter (fun X => X) Hrest)
    as (post' & -> & Hloop).
  destruct (Hends pre' t t' (CScroll id ttl) a post' Hloop Hd)
    as ((-> & id' & Hcalls) & Hpost').
  split; [reflexivity|]. exists id'. rewrite calls_app, Hpost'. exact Hcalls.
Qed.

Lemma empty_page_ends_the_loop_witness :
  fst (Refactored.executeSearch Cancellable "q" Sample.cfg
         (Sample.fresh Sample.renewed_cursor)) = Ret None
  /\ exists id',
       calls [Log (Say "No more hits to process.");
              Request 2000000 3000000 (CClearScroll "c0") Sample.acknowledged]
       = [CClearScroll id'].
Proof.
  apply (proj1 empty_page_ends_the_loop Cancellable "q" Sample.cfg
           (Sample.fresh Sample.renewed_cursor)
           (fst (Refactored.executeSearch Cancellable "q" Sample.cfg
                   (Sample.fresh Sample.renewed_cursor)))
           (snd (Refactored.executeSearch Cancellable "q" Sample.cfg
                   (Sample.fresh Sample.renewed_cursor)))
           [Request 0 1000000 (CSearch "sample_data" "q" 6 Backoff.Minute)
                    (Sample.page "c0" 1 [Sample.titled "a"]);
            Log (SayInt "Total hits: %d" 1);
            Write (Text "a")]
           1000000 2000000 "c0" Backoff.Minute (Sample.page "c1" 1 [])).
  - apply surjective_pairing.
  - vm_compute. reflexivity.
  - vm_compute. reflexivity.
Defined.

(** ** The retrying executor *)

Section ExecutorClaim.

Import Backoff Executor Paging.

Lemma failed_reply (a : Reply) :
  succeeded a = false <->
  (exists why, a = Unreachable why) \/ (exists x, a = Replied x /\ IsError x = true).
Proof.
  destruct a as [why|x]; cbn.
  - split; [eauto|reflexivity].
  - rewrite negb_false_iff. split.
    + intros H. right. eauto.
    + intros [(why & H)|(x' & [= <-] & H)]; [discriminate|exact H].
Qed.

(** C5.  The policy that refactored/main.go and client/elasticsearch.go
    build has an initial interval of one second, a largest interval of
    thirty seconds and a budget of five minutes; the interval starts at
    one second and each failure multiplies it by 3/2 up to thirty seconds
    (the library then draws the wait around the interval).  An attempt
    fails when the transport returns an error and when the engine's
    response is an error, and in no other case.  A run of retryWithBackoff
    always returns: it consists of failed attempts followed by a last
    attempt, all of them issued within five minutes of its start; it
    returns the response of a last attempt that succeeded and an error
    otherwise; and when the first attempt fails, the run cannot be
    cancelled and the five minutes cover the longest wait, a second
    attempt is made.  The retrying of the client runs the same way. *)
Theorem retry_executor_policy :
  (forall w, exists e,
      Refactored.backoffCfg w = (Ret e, w)
      /\ InitialInterval e = 1 * Second
      /\ MaxInterval e = 30 * Second
      /\ MaxElapsedTime e = 5 * Minute)
  /\ (forall w, exists e,
         Client.newBackoffConfig w = (Ret e, w)
         /\ configured e
         /\ InitialInterval e = 1 * Second
         /\ MaxInterval e = 30 * Second
         /\ MaxElapsedTime e = 5 * Minute)
  /\ (forall t e, configured e ->
         tuned (reset_at t e) /\ currentInterval (reset_at t e) = 1 * Second)
  /\ (forall e, tuned e ->
         tuned (incrementCurrentInterval e)
         /\ currentInterval (incrementCurrentInterval e)
            = Z.min (30 * Second) (currentInterval e * 3 / 2))
  /\ (forall a, succeeded a = false <->
                (exists why, a = Unreachable why)
                \/ (exists x, a = Replied x /\ IsError x = true))
  /\ (forall ctx c w, exists res err w' pre t t' a notes,
         Refactored.retryWithBackoff ctx (Sys.perform c) w = (Ret (res, err), w')
         /\ journal w' = journal w ++ pre ++ Request t t' c a :: map Log notes
         /\ calls (journal w') = calls (journal w) ++ calls pre ++ [c]
         /\ Forall (fun e => succeeded (answer_in e) = false) pre
         /\ Forall (fun e => is_request e = true ->
                             issued_at e - clock w <= 5 * Minute)
                   (pre ++ [Request t t' c a])
         /\ (succeeded a = true ->
             err = None /\ exists x, a = Replied x /\ res = Some x)
         /\ (succeeded a = false -> res = None /\ exists e, err = Some e)
         /\ (succeeded (next_answer w) = false ->
             horizon ctx w = None ->
             back w - clock w + 45 * Second <= 5 * Minute ->
             pre <> []))
  /\ (forall c v w e,
         Client.newBackoffConfig w = (Ret e, w) ->
         exists r w',
           Retry (Client.attempt c) (Bare e) v w = (Ret r, w')
           /\ retry_summary c (Bare (reset_at (clock w) e)) w r w').
Proof.
  splits.
  - intros w. destruct (backoffCfg_run w) as (e & H & Hi & _ & _ & Hx & Hb). eauto 6.
  - intros w. destruct (newBackoffConfig_run w) as (e & H & Hc).
    pose proof Hc as (Hi & _ & _ & Hx & Hb). eauto 7.
  - intros t e Hc. split; [apply reset_tuned; assumption|]. apply Hc.
  - intros e He. destruct (tuned_increment e He) as (H1 & _ & _ & H2). auto.
  - exact failed_reply.
  - intros ctx c w.
    destruct (retryWithBackoff_run ctx c w)
      as (res & err & w' & b & Hrun & Hctx & Hstart & _ & _ & _ & Hsum & Hok & Hnil).
    destruct Hsum as (pre & t & t' & a & notes & Hj & Hnotes & Hpre & Hfailed
                      & Hwithin & Hres & _ & Hsecond).
    exists res, err, w', pre, t, t', a, notes. splits; auto.
    + rewrite Hj, !calls_app. cbn. rewrite calls_notes. reflexivity.
    + eapply Forall_impl; [|exact Hwithin]. intros e He Hreq.
      destruct (He Hreq) as (Hbud & _). rewrite Hstart in Hbud. exact Hbud.
    + intros Hs. destruct err as [e|]; cbn in Hres; [congruence|].
      split; [reflexivity|]. apply Hres.
    + intros Hs. destruct err as [e|]; cbn in Hres.
      * split; [apply Hnil; discriminate|eauto].
      * destruct Hres as (Hs' & _). congruence.
    + intros Hf Hh. rewrite <- Hstart. apply Hsecond; [assumption|].
      unfold guard. rewrite Hctx. exact Hh.
  - intros c v w e He.
    destruct (newBackoffConfig_run w) as (e' & He' & Hc).
    rewrite He in He'. injection He' as <-.
    destruct (Retry_summary c (Client.attempt c) (Bare e) v w (attempt_attempts c) Hc)
      as (r & w' & Hrun & _ & _ & _ & _ & Hsum).
    exists r, w'. split; assumption.
Qed.

End ExecutorClaim.

(** ** What executeSearch writes *)

Section RefactoredOutput.

Import Backoff Executor Paging Ledger.

Lemma expected_app j k : expected (j ++ k) = expected j ++ expected k.
Proof. apply flat_map_app. Qed.

Lemma expected_notes notes : expected (map Log notes) = [].
Proof. induction notes; [reflexivity|assumption]. Qed.

Lemma written_notes notes : written (map Log notes) = [].
Proof. induction notes; [reflexivity|assumption]. Qed.

Lemma failed_no_page a : succeeded a = false -> page_of a = None.
Proof.
  destruct a as [why|x]; cbn; [reflexivity|].
  intros H. apply negb_false_iff in H. rewrite H. reflexivity.
Qed.

Lemma attempts_expected c pre :
  Forall (attempt_effect c) pre ->
  Forall (fun e => succeeded (answer_in e) = false) pre ->
  expected pre = [] /\ written pre = [].
Proof.
  induction pre as [|e pre IH]; intros Ha Hf; [split; reflexivity|].
  inversion Ha as [|? ? He Ha']; inversion Hf as [|? ? Hfe Hf']; subst.
  destruct (IH Ha' Hf') as (IH1 & IH2).
  destruct e as [t t' c' a|l|l]; cbn in *; [|contradiction|auto].
  unfold page_lines. rewrite (failed_no_page a Hfe).
  destruct c'; cbn; auto.
Qed.

(** With a file that accepts every write, processHits never fails: it
    writes the titles that are not empty, in order, and logs the
    diagnostic once for every other record. *)
Lemma processHits_lines hits : forall w,
  quota w = None ->
  exists out,
    Refactored.processHits hits w
    = (Ret None, mkWorld (clock w) (cancelAt w) (engine w) (dice w)
                         (journal w ++ out) None)
    /\ written out = lines_of_hits hits
    /\ logged out
       = repeat (Say "Title field not found in this document.") (blanks hits)
    /\ calls out = []
    /\ expected out = [].
Proof.
  induction hits as [|hit rest IH]; intros w Hq.
  - exists []. cbn. rewrite app_nil_r. destruct w; cbn in *; subst.
    splits; reflexivity.
  - cbn [Refactored.processHits]. unfold lines_of_hits, blanks. cbn [filter].
    destruct (String.eqb (Refactored.Title hit) "") eqn:Ht; cbn [negb].
    + unfold bind, Sys.say.
      destruct (IH (record (Log (Say "Title field not found in this document.")) w) Hq)
        as (out & Hrun & Hw & Hl & Hc & He).
      rewrite Hrun. cbn.
      exists (Log (Say "Title field not found in this document.") :: out).
      rewrite <- app_assoc. splits; [reflexivity|exact Hw| |exact Hc|exact He].
      cbn. f_equal. exact Hl.
    + unfold bind, Sys.WriteString. rewrite Hq.
      match goal with |- context [Refactored.processHits rest ?w1] =>
        destruct (IH w1 eq_refl) as (out & Hrun & Hw & Hl & Hc & He) end.
      rewrite Hrun. cbn.
      exists (Write (Text (Refactored.Title hit)) :: out).
      rewrite <- app_assoc. splits; [reflexivity| |exact Hl|exact Hc|exact He].
      cbn. f_equal. exact Hw.
Qed.

Lemma scrollLoop_lines : forall fuel ctx cfg id w,
  quota w = None ->
  (List.length (engine w) < fuel)%nat ->
  exists x w' j,
    Refactored.scrollLoop fuel ctx cfg id w = (Ret x, w')
    /\ journal w' = journal w ++ j
    /\ quota w' = None
    /\ written j = expected j
    /\ Forall (fun e => match e with
                        | Request _ _ c _ => exists id', c = CScroll id' (Refactored.ScrollDuration cfg)
                        | _ => True
                        end) j.
Proof.
  induction fuel as [|fuel IH]; intros ctx cfg id w Hq Hfuel; [lia|].
  cbn [Refactored.scrollLoop]. unfold bind at 1. unfold Sys.ctxErr.
  destruct (Sys.done ctx w).
  { eexists _, _, [_]. split; [reflexivity|]. cbn.
    splits; auto; repeat constructor. }
  unfold bind at 1. unfold Sys.perform, bind at 1. rewrite roundTrip_world.
  set (req := Request (clock w) (back w) (CScroll id (Refactored.ScrollDuration cfg))
                      (next_answer w)).
  assert (Hreq : match req with
                 | Request _ _ c _ => exists id', c = CScroll id' (Refactored.ScrollDuration cfg)
                 | _ => True
                 end) by (cbn; eauto).
  destruct (next_answer w) as [why|res] eqn:Ha; cbn [ret].
  { exists (inr (EWrap "scroll request failed" (ETransport why))).
    eexists _, [req]. split; [reflexivity|]. cbn.
    splits;
      first [reflexivity | assumption | (constructor; [exact Hreq|constructor])]. }
  destruct (IsError res) eqn:Herr.
  { exists (inr (EResponse "scroll response error" res)).
    eexists _, [req]. split; [reflexivity|]. cbn. unfold page_lines. cbn.
    rewrite Herr. splits;
      first [reflexivity | assumption | (constructor; [exact Hreq|constructor])]. }
  destruct (Refactored.parseSearchResponse res) as [result|e] eqn:Hparse.
  2:{ exists (inr e). eexists _, [req]. split; [reflexivity|]. cbn.
      unfold page_lines. cbn. rewrite Herr, Hparse.
      splits;
      first [reflexivity | assumption | (constructor; [exact Hreq|constructor])]. }
  assert (Hpage : page_lines (Replied res) = lines_of_hits (Refactored.Hits result)).
  { unfold page_lines. cbn. rewrite Herr, Hparse. reflexivity. }
  destruct (Refactored.Hits result) as [|hit hits] eqn:Hhits.
  { exists (inl id). eexists _, [req; Log (Say "No more hits to process.")].
    split; [reflexivity|]. unfold Sys.say, record. cbn [journal quota fst snd].
    splits; [flatten|assumption| |].
    - unfold written, expected. cbn [flat_map req app]. rewrite Hpage. reflexivity.
    - constructor; [exact Hreq|repeat constructor]. }
  unfold bind.
  match goal with |- context [Refactored.processHits _ ?w1] =>
    destruct (processHits_lines (hit :: hits) w1 Hq) as (out & Hrun & Hw & _ & Hc & He);
    rewrite Hrun; clear Hrun end.
  cbn [clock cancelAt engine dice journal].
  match goal with |- context [Refactored.scrollLoop fuel ctx cfg ?id1 ?w2] =>
    destruct (IH ctx cfg id1 w2 eq_refl) as (x & w' & j & Hloop & Hj & Hq' & Hwj & Hall) end.
  { cbn. pose proof (answered_engine w res Ha). lia. }
  rewrite Hloop. cbn in Hj.
  exists x, w', (req :: out ++ j). split; [reflexivity|].
  splits; auto.
  - rewrite Hj. flatten.
  - cbn. rewrite Hpage. rewrite written_app, expected_app, Hw, He, Hwj. reflexivity.
  - constructor; [assumption|]. apply Forall_app. split; [|assumption].
    clear - Hc. induction out as [|e out IH]; constructor.
    + destruct e; cbn in *; [discriminate|exact I|exact I].
    + apply IH. destruct e; cbn in Hc; [discriminate|assumption|assumption].
Qed.

End RefactoredOutput.

Section RefactoredOutput2.

Import Backoff Executor Paging Ledger.

Lemma released_ledger id fin :
  released id fin ->
  written fin = [] /\ expected fin = [].
Proof.
  intros (t & t' & a & notes & -> & _). cbn.
  rewrite written_notes, expected_notes. split; reflexivity.
Qed.

Lemma executeSearch_ledger ctx query cfg w :
  quota w = None ->
  exists r w' j,
    Refactored.executeSearch ctx query cfg w = (Ret r, w')
    /\ journal w' = journal w ++ j
    /\ written j = expected j.
Proof.
  intros Hq.
  unfold Refactored.executeSearch. unfold bind at 1.
  set (c := CSearch (Refactored.IndexName cfg) query
                    (Refactored.BatchSize cfg) (Refactored.ScrollDuration cfg)).
  destruct (retryWithBackoff_run ctx c w)
    as (res & err & w1 & b & -> & _ & _ & _ & Hq1 & _ & Hsum & Hres & _).
  rewrite Hq in Hq1.
  destruct Hsum as (pre & t & t' & a & notes & Hj1 & _ & Hpre & Hfailed & _ & Hlast & _).
  destruct (attempts_expected c pre Hpre Hfailed) as (Hepre & Hwpre).
  assert (Hw0 : written (pre ++ Request t t' c a :: map Log notes) = []).
  { rewrite written_app, Hwpre. cbn. apply written_notes. }
  assert (He0 : expected (pre ++ Request t t' c a :: map Log notes) = page_lines a).
  { rewrite expected_app, Hepre. cbn. rewrite expected_notes. apply app_nil_r. }
  destruct err as [e|].
  { eexists _, _, _. split; [reflexivity|]. split; [exact Hj1|].
    rewrite Hw0, He0. unfold page_lines. rewrite (failed_no_page a Hlast). reflexivity. }
  destruct (Hres eq_refl) as (x & -> & Hx).
  destruct Hlast as (_ & x' & -> & [= <-]).
  destruct (Refactored.parseSearchResponse x) as [result|e] eqn:Hparse.
  2:{ eexists _, _, _. split; [reflexivity|]. split; [exact Hj1|].
      rewrite Hw0, He0. unfold page_lines. cbn. rewrite Hx, Hparse. reflexivity. }
  assert (Hpage : page_lines (Replied x) = lines_of_hits (Refactored.Hits result)).
  { unfold page_lines. cbn. rewrite Hx, Hparse. reflexivity. }
  unfold bind at 1. unfold Sys.say at 1. unfold bind at 1.
  set (l0 := Log (SayInt "Total hits: %d" (Refactored.TotalHits result))).
  destruct (processHits_lines (Refactored.Hits result) (record l0 w1) Hq1)
    as (out & -> & Hwout & _ & Hcout & Heout).
  cbn [clock cancelAt engine dice journal record].
  unfold bind at 1. unfold Sys.patience at 1. cbn [engine]. unfold bind at 1.
  match goal with |- context [Refactored.scrollLoop _ ctx cfg ?id ?w3] =>
    destruct (scrollLoop_lines (S (List.length (engine w1))) ctx cfg id w3 eq_refl)
      as (y & w4 & j & -> & Hj4 & Hq4 & Hwj & Hsj) end.
  { cbn. lia. }
  cbn [journal] in Hj4.
  destruct y as [id'|e].
  - destruct (finish_run ctx id' w4) as (w5 & fin & -> & Hj5 & _ & Hrel).
    destruct (released_ledger _ _ Hrel) as (Hwf & Hef).
    exists None, w5,
      ((pre ++ Request t t' c (Replied x) :: map Log notes) ++ l0 :: out ++ j ++ fin).
    split; [reflexivity|]. split.
    + rewrite Hj5, Hj4, Hj1. flatten.
    + rewrite written_app, expected_app, Hw0, He0, Hpage. cbn.
      rewrite !written_app, !expected_app, Hwout, Heout, Hwj, Hwf, Hef. reflexivity.
  - exists (Some e), w4,
      ((pre ++ Request t t' c (Replied x) :: map Log notes) ++ l0 :: out ++ j).
    split; [reflexivity|]. split.
    + rewrite Hj4, Hj1. flatten.
    + rewrite written_app, expected_app, Hw0, He0, Hpage. cbn.
      rewrite !written_app, !expected_app, Hwout, Heout, Hwj. reflexivity.
Qed.

(** X1.  With an output file that accepts every write, what
    executeSearch of refactored/main.go has written when it returns, with
    or without an error, is exactly the non-empty titles of the records of
    the pages it received, page after page in the order of the answers and
    record after record within a page: the answers that are errors or that
    the parser rejects stand for no line. *)
Theorem executeSearch_writes_pages ctx query cfg w r w' j :
  quota w = None ->
  Refactored.executeSearch ctx query cfg w = (r, w') ->
  journal w' = journal w ++ j ->
  written j = expected j.
Proof.
  intros Hq Hrun Hj.
  destruct (executeSearch_ledger ctx query cfg w Hq) as (r0 & w0 & j0 & Hrun' & Hj0 & Hw).
  rewrite Hrun in Hrun'. injection Hrun' as -> <-.
  rewrite Hj0 in Hj. apply app_inv_head in Hj. subst j0. exact Hw.
Qed.

End RefactoredOutput2.

Lemma executeSearch_writes_pages_witness :
  written Scenario.two_pages_journal = Ledger.expected Scenario.two_pages_journal.
Proof.
  apply (executeSearch_writes_pages Background "q" Sample.cfg
           (Sample.fresh Scenario.two_pages)
           (fst (Refactored.executeSearch Background "q" Sample.cfg
              (Sample.fresh Scenario.two_pages)))
           (snd (Refactored.executeSearch Background "q" Sample.cfg
              (Sample.fresh Scenario.two_pages)))).
  - reflexivity.
  - apply surjective_pairing.
  - vm_compute. reflexivity.
Defined.

(** ** The cursor executeSearch holds *)

Section RefactoredSession.

Import Backoff Executor Paging Session.

Lemma threaded_outputs ttl held out j :
  Forall is_output out -> threaded ttl held j -> threaded ttl held (out ++ j).
Proof.
  induction 1 as [|e out He _ IH]; intros Hj; [exact Hj|].
  destruct e as [? ? ? ?|l|l]; cbn in *; [contradiction|auto|auto].
Qed.

Lemma threaded_notes ttl held notes j :
  threaded ttl held j -> threaded ttl held (map Log notes ++ j).
Proof. induction notes; intros Hj; cbn; auto. Qed.

Lemma scrollLoop_threaded : forall fuel ctx cfg id w,
  (List.length (engine w) < fuel)%nat ->
  forall x w' j tail,
    Refactored.scrollLoop fuel ctx cfg id w = (x, w') ->
    journal w' = journal w ++ j ->
    (forall id', x = Ret (inl id') -> threaded (Refactored.ScrollDuration cfg) id' tail) ->
    (forall e, x = Ret (inr e) -> tail = []) ->
    threaded (Refactored.ScrollDuration cfg) id (j ++ tail).
Proof.
  induction fuel as [|fuel IH]; intros ctx cfg id w Hfuel x w' j tail Hrun Hj Hbreak Hret;
    [lia|].
  cbn [Refactored.scrollLoop] in Hrun. unfold bind at 1 in Hrun. unfold Sys.ctxErr in Hrun.
  destruct (Sys.done ctx w).
  { cbn in Hrun. injection Hrun as <- <-. cbn in Hj.
    apply app_inv_head in Hj. subst j. cbn. apply Hbreak. reflexivity. }
  unfold bind at 1 in Hrun. unfold Sys.perform, bind at 1 in Hrun.
  rewrite roundTrip_world in Hrun.
  destruct (next_answer w) as [why|res] eqn:Ha; cbn [ret] in Hrun.
  { injection Hrun as <- <-. cbn in Hj. apply app_inv_head in Hj. subst j.
    rewrite (Hret _ eq_refl). cbn. auto. }
  destruct (IsError res) eqn:Herr.
  { injection Hrun as <- <-. cbn in Hj. apply app_inv_head in Hj. subst j.
    rewrite (Hret _ eq_refl). cbn. auto. }
  destruct (Refactored.parseSearchResponse res) as [result|e] eqn:Hparse.
  2:{ injection Hrun as <- <-. cbn in Hj. apply app_inv_head in Hj. subst j.
      rewrite (Hret _ eq_refl). cbn. auto. }
  assert (Hpage : page_of (Replied res) = Some result)
    by (cbn; rewrite Herr, Hparse; reflexivity).
  destruct (Refactored.Hits result) as [|hit hits] eqn:Hhits.
  { cbn in Hrun. injection Hrun as <- <-. cbn in Hj. rewrite <- app_assoc in Hj.
    apply app_inv_head in Hj. subst j. cbn.
    splits; auto. unfold advance. rewrite Hpage, Hhits. apply Hbreak. reflexivity. }
  unfold bind in Hrun.
  match type of Hrun with context [Refactored.processHits _ ?w1] =>
    destruct (processHits_run (hit :: hits) w1) as (err & out & q & Hp & Hout);
    rewrite Hp in Hrun; clear Hp end.
  cbn [clock cancelAt engine dice journal] in Hrun.
  destruct err as [e|].
  { injection Hrun as <- <-. cbn in Hj. rewrite <- app_assoc in Hj.
    apply app_inv_head in Hj. subst j.
    rewrite (Hret _ eq_refl), app_nil_r. cbn. splits; auto.
    rewrite <- (app_nil_r out). apply threaded_outputs; [assumption|exact I]. }
  match type of Hrun with context [Refactored.scrollLoop fuel ctx cfg ?id1 ?w2] =>
    destruct (scrollLoop_paging fuel ctx cfg id1 w2) as (y & w4 & j' & Hloop & Hj' & _);
    [cbn; pose proof (answered_engine w res Ha); lia|];
    pose proof (IH ctx cfg id1 w2) as IH' end.
  rewrite Hloop in Hrun. injection Hrun as <- <-.
  cbn [journal] in Hj'. rewrite Hj' in Hj. rewrite <- !app_assoc in Hj.
  apply app_inv_head in Hj. cbn in Hj. subst j.
  cbn. splits; auto. rewrite <- app_assoc.
  apply threaded_outputs; [assumption|].
  unfold advance. rewrite Hpage, Hhits.
  eapply IH'; eauto.
  cbn. pose proof (answered_engine w res Ha). lia.
Qed.

Lemma opened_attempts c ttl pre rest :
  Forall (attempt_effect c) pre ->
  Forall (fun e => succeeded (answer_in e) = false) pre ->
  opened c ttl rest -> opened c ttl (pre ++ rest).
Proof.
  induction pre as [|e pre IH]; intros Ha Hf Hrest; [exact Hrest|].
  inversion Ha as [|? ? He Ha']; inversion Hf as [|? ? Hfe Hf']; subst.
  destruct e as [t t' c' a|l|l]; cbn in *; [|contradiction|auto].
  split; [assumption|]. rewrite (failed_no_page a Hfe). auto.
Qed.

Lemma opened_notes c ttl notes : opened c ttl (map Log notes).
Proof. induction notes; cbn; auto. Qed.

Lemma released_threaded ttl id fin : released id fin -> threaded ttl id fin.
Proof.
  intros (t & t' & a & notes & -> & _). cbn. split; [reflexivity|].
  rewrite <- (app_nil_r (map Log notes)). apply threaded_notes. exact I.
Qed.

Lemma executeSearch_opened ctx query cfg w :
  exists r w' j,
    Refactored.executeSearch ctx query cfg w = (Ret r, w')
    /\ journal w' = journal w ++ j
    /\ opened (CSearch (Refactored.IndexName cfg) query
                       (Refactored.BatchSize cfg) (Refactored.ScrollDuration cfg))
              (Refactored.ScrollDuration cfg) j.
Proof.
  unfold Refactored.executeSearch. unfold bind at 1.
  set (c := CSearch (Refactored.IndexName cfg) query
                    (Refactored.BatchSize cfg) (Refactored.ScrollDuration cfg)).
  set (ttl := Refactored.ScrollDuration cfg).
  destruct (retryWithBackoff_run ctx c w)
    as (res & err & w1 & b & -> & _ & _ & _ & _ & _ & Hsum & Hres & _).
  destruct Hsum as (pre & t & t' & a & notes & Hj1 & _ & Hpre & Hfailed & _ & Hlast & _).
  destruct err as [e|].
  { eexists _, _, _. split; [reflexivity|]. split; [exact Hj1|].
    apply opened_attempts; auto. cbn. split; [reflexivity|].
    rewrite (failed_no_page a Hlast). apply opened_notes. }
  destruct (Hres eq_refl) as (x & -> & Hx).
  destruct Hlast as (_ & x' & -> & [= <-]).
  destruct (Refactored.parseSearchResponse x) as [result|e] eqn:Hparse.
  2:{ eexists _, _, _. split; [reflexivity|]. split; [exact Hj1|].
      apply opened_attempts; auto. cbn. split; [reflexivity|].
      rewrite Hx, Hparse. apply opened_notes. }
  unfold bind at 1. unfold Sys.say at 1. unfold bind at 1.
  set (l0 := Log (SayInt "Total hits: %d" (Refactored.TotalHits result))).
  destruct (processHits_run (Refactored.Hits result) (record l0 w1))
    as (werr & out & q & -> & Hout).
  cbn [clock cancelAt engine dice journal record].
  assert (Hopen : forall tail,
            threaded ttl (Refactored.ScrollID result) tail ->
            opened c ttl ((pre ++ Request t t' c (Replied x) :: map Log notes)
                            ++ l0 :: out ++ tail)).
  { intros tail Htail. rewrite <- app_assoc. apply opened_attempts; auto.
    cbn. split; [reflexivity|]. rewrite Hx, Hparse.
    apply threaded_notes. cbn. apply threaded_outputs; assumption. }
  destruct werr as [e|].
  { exists (Some e). eexists _, ((pre ++ Request t t' c (Replied x) :: map Log notes)
                                   ++ l0 :: out ++ []).
    split; [reflexivity|]. split.
    - cbn [journal]. rewrite Hj1. flatten.
    - apply Hopen. exact I. }
  unfold bind at 1. unfold Sys.patience at 1. cbn [engine]. unfold bind at 1.
  match goal with |- context [Refactored.scrollLoop ?fuel ctx cfg ?id ?w3] =>
    destruct (scrollLoop_paging fuel ctx cfg id w3)
      as (y & w4 & j & Hloop & Hj4 & _);
    [cbn; lia|];
    pose proof (scrollLoop_threaded fuel ctx cfg id w3) as Hthr end.
  rewrite Hloop. cbn [journal] in Hj4.
  destruct y as [id'|e].
  - destruct (finish_run ctx id' w4) as (w5 & fin & -> & Hj5 & _ & Hrel).
    exists None, w5,
      ((pre ++ Request t t' c (Replied x) :: map Log notes) ++ l0 :: out ++ j ++ fin).
    split; [reflexivity|]. split.
    + rewrite Hj5, Hj4, Hj1. flatten.
    + apply Hopen. eapply Hthr; [cbn; lia|exact Hloop|exact Hj4| |discriminate].
      intros id'' [= <-]. apply released_threaded. exact Hrel.
  - exists (Some e), w4,
      ((pre ++ Request t t' c (Replied x) :: map Log notes) ++ l0 :: out ++ j ++ []).
    split; [reflexivity|]. split.
    + rewrite Hj4, Hj1. flatten.
    + apply Hopen. eapply Hthr; [cbn; lia|exact Hloop|exact Hj4|discriminate|reflexivity].
Qed.

(** X2.  In every run of executeSearch of refactored/main.go the requests
    form one session: the search is repeated, always with the configured
    index, query, batch size and scroll duration, until it is answered by
    a page; from then on every scroll asks for the page after the cursor
    of the last page that had records (the cursor of the search result
    before any such page), with the configured scroll duration, the
    release names that same cursor, and no further search is issued. *)
Theorem executeSearch_threads_cursor ctx query cfg w r w' j :
  Refactored.executeSearch ctx query cfg w = (r, w') ->
  journal w' = journal w ++ j ->
  opened (CSearch (Refactored.IndexName cfg) query
                  (Refactored.BatchSize cfg) (Refactored.ScrollDuration cfg))
         (Refactored.ScrollDuration cfg) j.
Proof.
  intros Hrun Hj.
  destruct (executeSearch_opened ctx query cfg w) as (r0 & w0 & j0 & Hrun' & Hj0 & Ho).
  rewrite Hrun in Hrun'. injection Hrun' as -> <-.
  rewrite Hj0 in Hj. apply app_inv_head in Hj. subst j0. exact Ho.
Qed.

End RefactoredSession.

Lemma executeSearch_threads_cursor_witness :
  Session.opened (CSearch "sample_data" "q" 6 Backoff.Minute) Backoff.Minute
                 Scenario.two_pages_journal.
Proof.
  apply (executeSearch_threads_cursor Background "q" Sample.cfg
           (Sample.fresh Scenario.two_pages)
           (fst (Refactored.executeSearch Background "q" Sample.cfg
              (Sample.fresh Scenario.two_pages)))
           (snd (Refactored.executeSearch Background "q" Sample.cfg
              (Sample.fresh Scenario.two_pages)))).
  - apply surjective_pairing.
  - vm_compute. reflexivity.
Defined.

(** ** Writing the titles of a page *)

Section PageWriters.

Import Ledger Disk.

Lemma ProcessHits_outcome hits w :
  Processor.ProcessHits hits w
  = (Ret (if fits (quota w) (lines_of_sources hits) then None
          else Some (EWrap "failed to write to file" EWrite)),
     mkWorld (clock w) (cancelAt w) (engine w) (dice w)
             (journal w ++ map Write (accepted (quota w) (lines_of_sources hits)))
             (left (quota w) (lines_of_sources hits))).
Proof.
  revert w. induction hits as [|hit rest IH]; intros w.
  - destruct w as [c ca en di jo [n|]]; cbn; rewrite ?firstn_nil, app_nil_r, ?Nat.sub_0_r;
      reflexivity.
  - cbn [Processor.ProcessHits]. unfold lines_of_sources. cbn [flat_map].
    fold (lines_of_sources rest).
    destruct (lookup "title" hit) as [message|]; [|apply IH].
    unfold bind, Sys.WriteString.
    destruct (quota w) as [[|n]|] eqn:Hq.
    + cbn. rewrite app_nil_r. destruct w; cbn in *; subst; reflexivity.
    + rewrite IH. cbn [clock cancelAt engine dice journal quota option_map Nat.pred
                       fits accepted left app List.length firstn map Nat.leb Nat.sub].
      rewrite <- app_assoc. reflexivity.
    + rewrite IH. cbn [clock cancelAt engine dice journal quota option_map
                       fits accepted left app map].
      rewrite <- app_assoc. reflexivity.
Qed.

(** X3.  ProcessHits of processor/processor.go, for any records and any
    output file: it offers the file the rendering of the title of every
    record that has the key, in order, and leaves everything else alone
    (no request, no log line, no time passes).  When the file takes them
    all it returns nil; when the file refuses a write it returns "failed
    to write to file" wrapped around the file's error, and the file holds
    exactly the lines before the refused one. *)
Theorem ProcessHits_writes_prefix hits w :
  fst (Processor.ProcessHits hits w)
  = Ret (if fits (quota w) (lines_of_sources hits) then None
         else Some (EWrap "failed to write to file" EWrite))
  /\ journal (snd (Processor.ProcessHits hits w))
     = journal w ++ map Write (accepted (quota w) (lines_of_sources hits))
  /\ quota (snd (Processor.ProcessHits hits w)) = left (quota w) (lines_of_sources hits)
  /\ clock (snd (Processor.ProcessHits hits w)) = clock w
  /\ engine (snd (Processor.ProcessHits hits w)) = engine w
  /\ calls (journal (snd (Processor.ProcessHits hits w))) = calls (journal w).
Proof.
  rewrite ProcessHits_outcome. cbn [fst snd journal quota clock engine].
  splits; try reflexivity.
  - rewrite calls_app.
    induction (accepted (quota w) (lines_of_sources hits)) as [|l ls IHl];
      [apply app_nil_r|exact IHl].
Qed.

Lemma lines_of_hits_cons hit rest :
  lines_of_hits (hit :: rest)
  = if String.eqb (Refactored.Title hit) "" then lines_of_hits rest
    else Text (Refactored.Title hit) :: lines_of_hits rest.
Proof.
  unfold lines_of_hits. cbn [filter].
  destruct (String.eqb (Refactored.Title hit) ""); reflexivity.
Qed.

(** X4.  processHits of refactored/main.go, for any records and any output
    file: it offers the file the titles that are not empty, in order, and
    issues no request.  When the file takes them all it returns nil and
    has logged the diagnostic once for each record with an empty title;
    when the file refuses a write it returns "error writing to file"
    wrapped around the file's error, the file holds exactly the titles
    before the refused one, and only diagnostics have been logged. *)
Theorem processHits_writes_prefix hits w :
  exists out,
    Refactored.processHits hits w
    = (Ret (if fits (quota w) (lines_of_hits hits) then None
            else Some (EWrap "error writing to file" EWrite)),
       mkWorld (clock w) (cancelAt w) (engine w) (dice w)
               (journal w ++ out) (left (quota w) (lines_of_hits hits)))
    /\ written out = accepted (quota w) (lines_of_hits hits)
    /\ calls out = []
    /\ Forall (fun l => l = Say "Title field not found in this document.") (logged out)
    /\ (fits (quota w) (lines_of_hits hits) = true ->
        List.length (logged out) = blanks hits).
Proof.
  revert w. induction hits as [|hit rest IH]; intros w.
  - exists []. destruct w as [c ca en di jo [n|]]; cbn;
      rewrite ?firstn_nil, app_nil_r, ?Nat.sub_0_r; splits; auto.
  - cbn [Refactored.processHits]. rewrite lines_of_hits_cons. unfold blanks. cbn [filter].
    fold (blanks rest).
    destruct (String.eqb (Refactored.Title hit) "") eqn:Ht.
    + unfold bind, Sys.say.
      destruct (IH (record (Log (Say "Title field not found in this document.")) w))
        as (out & Hrun & Hw & Hc & Hl & Hn).
      rewrite Hrun. cbn [clock cancelAt engine dice journal quota record] in *.
      exists (Log (Say "Title field not found in this document.") :: out).
      rewrite <- app_assoc. splits; auto.
      * cbn. constructor; auto.
      * intros Hf. change (S (List.length (logged out)) = S (blanks rest)).
        f_equal. exact (Hn Hf).
    + unfold bind, Sys.WriteString.
      destruct (quota w) as [[|n]|] eqn:Hq.
      * exists []. cbn. rewrite app_nil_r. destruct w; cbn in *; subst.
        splits; auto. discriminate.
      * match goal with |- context [Refactored.processHits rest ?w1] =>
          destruct (IH w1) as (out & Hrun & Hw & Hc & Hl & Hn) end.
        rewrite Hrun.
        cbn [clock cancelAt engine dice journal quota option_map Nat.pred
             fits accepted left app List.length firstn Nat.leb Nat.sub] in *.
        exists (Write (Text (Refactored.Title hit)) :: out).
        rewrite <- app_assoc. splits; auto.
        change (written (Write (Text (Refactored.Title hit)) :: out))
          with (Text (Refactored.Title hit) :: written out).
        rewrite Hw. reflexivity.
      * match goal with |- context [Refactored.processHits rest ?w1] =>
          destruct (IH w1) as (out & Hrun & Hw & Hc & Hl & Hn) end.
        rewrite Hrun.
        cbn [clock cancelAt engine dice journal quota option_map fits accepted left app] in *.
        exists (Write (Text (Refactored.Title hit)) :: out).
        rewrite <- app_assoc. splits; auto.
        change (written (Write (Text (Refactored.Title hit)) :: out))
          with (Text (Refactored.Title hit) :: written out).
        rewrite Hw. reflexivity.
Qed.

End PageWriters.

(** ** The response parser of the client *)

Section ClientParser.

Import Ledger Disk Pages Turning.

Lemma sources_outcome hits : forall w,
  (exists l, Client.sources hits w = (Ret l, w) /\ Forall2 documented hits l)
  \/ (Client.sources hits w = (Halt Panicked, w)
      /\ forall l, ~ Forall2 documented hits l).
Proof.
  induction hits as [|hit rest IH]; intros w.
  - left. exists []. split; [reflexivity|constructor].
  - cbn [Client.sources]. unfold bind. rewrite must_run.
    destruct (as_object (Some hit)) as [hitMap|] eqn:Eo.
    2:{ right. split; [reflexivity|]. intros l H.
        inversion H as [|? s ? ? (fields & Hf & _) _]; subst. discriminate. }
    apply as_object_some in Eo. injection Eo as ->.
    rewrite must_run.
    destruct (as_object (lookup "_source" hitMap)) as [source|] eqn:Es.
    2:{ right. split; [reflexivity|]. intros l H.
        inversion H as [|? s ? ? (fields & Hf & Hs) _]; subst.
        injection Hf as <-. rewrite Hs in Es. discriminate. }
    apply as_object_some in Es.
    destruct (IH w) as [(l & -> & Hl)|(-> & Hno)].
    + left. exists (source :: l). split; [reflexivity|].
      constructor; [|assumption]. exists hitMap. auto.
    + right. split; [reflexivity|]. intros l H.
      inversion H as [|? s ? l' _ Hrest]; subst. exact (Hno l' Hrest).
Qed.

Lemma documented_inj record s s' : documented record s -> documented record s' -> s = s'.
Proof.
  intros (fields & -> & Hs) (fields' & [= <-] & Hs'). congruence.
Qed.

Lemma documented_all_inj records : forall l l',
  Forall2 documented records l -> Forall2 documented records l' -> l = l'.
Proof.
  induction records as [|r records IH]; intros l l' H H'.
  - inversion H; inversion H'; reflexivity.
  - inversion H; inversion H'; subst. f_equal; [eapply documented_inj|apply IH]; eauto.
Qed.

Lemma formed_inj raw r r' : formed raw r -> formed raw r' -> r = r'.
Proof.
  intros (f & records & Hc & (ho & to & H1 & H2 & H3) & Ht & (ho1 & H4 & H5) & Hall)
         (f' & records' & Hc' & (ho' & to' & H1' & H2' & H3') & Ht' & (ho1' & H4' & H5') & Hall').
  unfold has_cursor in *.
  assert (ho' = ho) by congruence. subst ho'.
  assert (to' = to) by congruence. subst to'.
  assert (f' = f) by congruence. subst f'.
  assert (ho1 = ho) by congruence. assert (ho1' = ho) by congruence. subst.
  assert (records' = records) by congruence. subst.
  destruct r as [id hits total], r' as [id' hits' total']. cbn in *.
  f_equal; [congruence|eapply documented_all_inj; eauto|congruence].
Qed.

Lemma parseScrollResponse_formed body raw id w :
  decode_into [] body = Some raw ->
  has_cursor raw id ->
  (exists r, Client.parseScrollResponse body w = (Ret (inl r), w) /\ formed raw r)
  \/ (Client.parseScrollResponse body w = (Halt Panicked, w)
      /\ forall r, ~ formed raw r).
Proof.
  intros Hd Hc. unfold Client.parseScrollResponse. rewrite Hd.
  unfold has_cursor in Hc. rewrite Hc. cbn [as_string].
  unfold bind. rewrite must_run.
  destruct (as_object (lookup "hits" raw)) as [hitsObj|] eqn:E1.
  2:{ right. split; [reflexivity|].
      intros r (f & records & _ & (ho & to & H1 & _) & _). rewrite H1 in E1. discriminate. }
  apply as_object_some in E1. rewrite must_run.
  destruct (as_object (lookup "total" hitsObj)) as [totalObj|] eqn:E2.
  2:{ right. split; [reflexivity|].
      intros r (f & records & _ & (ho & to & H1 & H2 & _) & _).
      assert (ho = hitsObj) by congruence. subst. rewrite H2 in E2. discriminate. }
  apply as_object_some in E2. rewrite must_run.
  destruct (as_float64 (lookup "value" totalObj)) as [v|] eqn:E3.
  2:{ right. split; [reflexivity|].
      intros r (f & records & _ & (ho & to & H1 & H2 & H3) & _).
      assert (ho = hitsObj) by congruence. subst.
      assert (to = totalObj) by congruence. subst. rewrite H3 in E3. discriminate. }
  apply as_float64_some in E3. rewrite must_run.
  destruct (as_array (lookup "hits" hitsObj)) as [hits|] eqn:E4.
  2:{ right. split; [reflexivity|].
      intros r (f & records & _ & _ & _ & (ho & H1 & H2) & _).
      assert (ho = hitsObj) by congruence. subst. rewrite H2 in E4. discriminate. }
  apply as_array_some in E4.
  destruct (sources_outcome hits w) as [(l & -> & Hl)|(-> & Hno)].
  - left. eexists. split; [reflexivity|].
    exists v, hits. cbn. splits; auto.
    + exists hitsObj, totalObj. auto.
    + exists hitsObj. auto.
  - right. split; [reflexivity|].
    intros r (f & records & _ & _ & _ & (ho & H1 & H2) & Hall).
    assert (ho = hitsObj) by congruence. subst.
    assert (records = hits) by congruence. subst. exact (Hno _ Hall).
Qed.

(** X5.  parseScrollResponse of client/elasticsearch.go neither reads nor
    changes anything outside.  A body that is no JSON object is the error
    "failed to parse response"; a decoded object without a cursor string
    is the error "scroll ID not found in response".  Once the cursor is
    there the parser returns no error value any more: it returns the
    result exactly when the object holds the nested numeric total and the
    array of records and every record is an object with an object as its
    document, and in every other case an unchecked type assertion
    panics. *)
Theorem parseScrollResponse_characterised body w :
  snd (Client.parseScrollResponse body w) = w
  /\ match decode_into [] body with
     | None =>
         fst (Client.parseScrollResponse body w)
         = Ret (inr (EWrap "failed to parse response" EDecode))
     | Some raw =>
         match as_string (lookup "_scroll_id" raw) with
         | None =>
             fst (Client.parseScrollResponse body w)
             = Ret (inr (ENew "scroll ID not found in response"))
         | Some id =>
             (forall r, fst (Client.parseScrollResponse body w) = Ret (inl r)
                        <-> formed raw r)
             /\ (fst (Client.parseScrollResponse body w) = Halt Panicked
                 <-> forall r, ~ formed raw r)
             /\ (forall e, fst (Client.parseScrollResponse body w) <> Ret (inr e))
         end
     end.
Proof.
  split; [rewrite parseScrollResponse_pure; reflexivity|].
  destruct (decode_into [] body) as [raw|] eqn:Hd.
  2:{ unfold Client.parseScrollResponse. rewrite Hd. reflexivity. }
  destruct (as_string (lookup "_scroll_id" raw)) as [id|] eqn:Hc.
  2:{ unfold Client.parseScrollResponse. rewrite Hd, Hc. reflexivity. }
  apply as_string_some in Hc.
  destruct (parseScrollResponse_formed body raw id w Hd Hc) as [(r0 & -> & Hf)|(-> & Hno)];
    cbn [fst]; splits.
  - intros r. split.
    + intros [= <-]. exact Hf.
    + intros Hf'. rewrite (formed_inj raw r r0 Hf' Hf). reflexivity.
  - split; [discriminate|]. intros Hno. destruct (Hno r0 Hf).
  - discriminate.
  - intros r. split; [discriminate|]. intros Hf. destruct (Hno r Hf).
  - split; auto.
  - discriminate.
Qed.

Lemma filter_plain name fields :
  plain name fields = true ->
  distinct (filter (fun kv => matches name (fst kv)) fields)
  = match lookup name fields with
    | Some v => [(name, v)]
    | None => []
    end.
Proof.
  induction fields as [|[k v] rest IH]; intros Hp; [reflexivity|].
  cbn [plain forallb fst] in Hp. apply andb_true_iff in Hp as (Hk & Hrest).
  fold (plain name rest) in Hrest. specialize (IH Hrest).
  cbn [filter fst lookup].
  destruct (matches name k) eqn:Hm.
  - cbn in Hk. apply String.eqb_eq in Hk. subst k.
    rewrite String.eqb_refl. cbn [distinct]. rewrite IH.
    destruct (lookup name rest); cbn; rewrite ?String.eqb_refl; reflexivity.
  - assert (Hne : String.eqb name k = false).
    { destruct (String.eqb name k) eqn:E; [|reflexivity].
      apply String.eqb_eq in E. subst k. unfold matches in Hm.
      rewrite String.eqb_refl in Hm. discriminate. }
    rewrite Hne. exact IH.
Qed.

Lemma entries_plain name fields :
  plain name fields = true ->
  entries name fields = match lookup name fields with
                        | Some v => [v]
                        | None => []
                        end.
Proof.
  intros Hp. unfold entries. rewrite (filter_plain name fields Hp).
  destruct (lookup name fields); reflexivity.
Qed.

Lemma lines_agree records : forall hits sources,
  Forall2 accepts records hits ->
  Forall2 documented records sources ->
  Forall (fun record => plainly_keyed record = true) records ->
  lines_of_hits hits = filter proper (lines_of_sources sources).
Proof.
  induction records as [|record records IH]; intros hits sources Ha Hd Hp.
  - inversion Ha; inversion Hd; reflexivity.
  - inversion Ha as [|? hit ? hits' Hhit Ha']; inversion Hd as [|? s ? ss (fields & -> & Hs) Hd'];
      inversion Hp as [|? ? Hplain Hp']; subst.
    rewrite lines_of_hits_cons. unfold lines_of_sources. cbn [flat_map].
    fold (lines_of_sources ss). rewrite filter_app, <- (IH hits' ss Ha' Hd' Hp').
    cbn [plainly_keyed] in Hplain. rewrite Hs in Hplain.
    apply andb_true_iff in Hplain as (Hp1 & Hp2).
    inversion Hhit as [|? _ _ Ht]; subst.
    assert (Hdocs : documents fields = [JObject s]).
    { unfold documents. rewrite (entries_plain _ _ Hp1), Hs. reflexivity. }
    assert (Htitles : titles fields = match lookup "title" s with
                                      | Some v => [v]
                                      | None => []
                                      end).
    { unfold titles. rewrite Hdocs. cbn [flat_map]. rewrite app_nil_r.
      apply entries_plain. exact Hp2. }
    rewrite Htitles in *. cbn [Refactored.Title].
    destruct (lookup "title" s) as [[ | | |t| | ]|]; cbn in Ht |- *; try discriminate;
      try reflexivity.
    destruct (String.eqb t ""); reflexivity.
Qed.

(** X6.  Where the parser of refactored/main.go and the parser of
    client/elasticsearch.go both take a response body, they agree on the
    cursor, on the total and on the number of records.  When the records
    keep their document and its title under keys spelt [_source] and
    [title], the lines processHits of refactored/main.go writes are those
    lines of the client's processor that are the text of a title that is
    not empty (the client's processor also writes an empty line for an
    empty title and fmt's rendering of a null title).  Under a key in
    another letter case the two differ: the Hit structure of
    refactored/main.go takes it, the client's map lookup does not. *)
Theorem parsers_agree status body r1 r2 :
  Refactored.parseSearchResponse (mkResponse status body) = inl r1 ->
  parsed body = Ret (inl r2) ->
  Refactored.ScrollID r1 = Client.ScrollID r2
  /\ Refactored.TotalHits r1 = Client.Total r2
  /\ List.length (Refactored.Hits r1) = List.length (Client.Hits r2)
  /\ (forall raw records,
         decode_into [] body = Some raw ->
         has_records raw records ->
         Forall (fun record => plainly_keyed record = true) records ->
         lines_of_hits (Refactored.Hits r1)
         = filter proper (lines_of_sources (Client.Hits r2))).
Proof.
  unfold Refactored.parseSearchResponse, parsed. cbn [Body].
  destruct (decode_into [] body) as [raw|] eqn:Hd; [|discriminate].
  unfold Refactored.parseRaw.
  destruct (as_string (lookup "_scroll_id" raw)) as [id|] eqn:Hc; [|discriminate].
  destruct (Refactored.extractTotalHits raw) as [n|] eqn:Et; [|discriminate].
  destruct (Refactored.extractHits raw) as [hits|] eqn:Eh; [|discriminate].
  intros [= <-]. cbn [Refactored.ScrollID Refactored.TotalHits Refactored.Hits].
  apply as_string_some in Hc.
  apply extractTotalHits_ok in Et as (f & (ho & to & H1 & H2 & H3) & ->).
  apply extractHits_ok in Eh as (records & (ho' & H4 & H5) & Hall).
  destruct (parseScrollResponse_formed body raw id nowhere Hd Hc)
    as [(r0 & -> & Hf)|(-> & _)]; cbn [fst]; [|discriminate].
  intros [= <-].
  destruct Hf as (f' & records' & Hc' & (ho1 & to1 & H1' & H2' & H3') & Ht'
                  & (ho2 & H4' & H5') & Hall').
  unfold has_cursor in *.
  assert (ho1 = ho) by congruence. subst.
  assert (to1 = to) by congruence. subst.
  assert (ho' = ho) by congruence. assert (ho2 = ho) by congruence. subst.
  assert (records' = records) by congruence. subst.
  splits.
  - congruence.
  - rewrite Ht'. congruence.
  - rewrite <- (Forall2_length Hall), <- (Forall2_length Hall'). reflexivity.
  - intros raw' records' [= <-] (ho3 & H6 & H7) Hplain.
    assert (ho3 = ho) by congruence. subst.
    assert (records' = records) by congruence. subst.
    eapply lines_agree; eauto.
Qed.

(** Under a key in another letter case the two do differ: both parsers
    take the page, processHits of refactored/main.go writes the title and
    the client's processor writes nothing. *)
Lemma parsers_differ_on_folded_keys :
  Refactored.parseSearchResponse
    (mkResponse 200 (Scenario.body Scenario.capitalised))
  = inl (Refactored.mkSearchResult "c0" 1 [Refactored.mkHit "x"])
  /\ parsed (Scenario.body Scenario.capitalised)
     = Ret (inl (Client.mkScrollResult "c0" [[("Title", JString "x")]] 1))
  /\ lines_of_hits [Refactored.mkHit "x"] = [Text "x"]
  /\ lines_of_sources [[("Title", JString "x")]] = [].
Proof. vm_compute. repeat split; reflexivity. Qed.

End ClientParser.

Lemma parsers_agree_witness :
  Refactored.ScrollID Scenario.mixed_result = Client.ScrollID Scenario.mixed_scroll
  /\ Refactored.TotalHits Scenario.mixed_result = Client.Total Scenario.mixed_scroll
  /\ List.length (Refactored.Hits Scenario.mixed_result)
     = List.length (Client.Hits Scenario.mixed_scroll)
  /\ (forall raw records,
         decode_into [] (Scenario.body Scenario.mixed) = Some raw ->
         has_records raw records ->
         Forall (fun record => Pages.plainly_keyed record = true) records ->
         Ledger.lines_of_hits (Refactored.Hits Scenario.mixed_result)
         = filter Disk.proper (Ledger.lines_of_sources (Client.Hits Scenario.mixed_scroll))).
Proof.
  apply (parsers_agree 200 (Scenario.body Scenario.mixed)
           Scenario.mixed_result Scenario.mixed_scroll).
  - vm_compute. reflexivity.
  - vm_compute. reflexivity.
Defined.

(** ** When executeSearch releases the cursor *)

Section RefactoredRelease.

Import Executor Paging Session.

Lemma releases_app j k : releases (j ++ k) = releases j ++ releases k.
Proof. unfold releases. rewrite calls_app. apply filter_app. Qed.

Lemma releases_outputs out : Forall is_output out -> releases out = [].
Proof. intros H. unfold releases. rewrite (calls_outputs out H). reflexivity. Qed.

Lemma releases_attempts index query size ttl j :
  Forall (attempt_effect (CSearch index query size ttl)) j -> releases j = [].
Proof.
  induction 1 as [|e j He _ IH]; [reflexivity|].
  destruct e as [t t' c a|l|l]; cbn in He; [subst c|contradiction|]; exact IH.
Qed.

Lemma releases_paging ttl cancelled id j x :
  paging ttl cancelled id j x -> releases j = [].
Proof.
  induction 1 as [id|id t t' a _ _|id t t' a e _ _|id t t' a out e _ _ Hout
                 |id t t' a result out j x _ _ _ Hout _ IH]; try reflexivity.
  - change (releases out = []). apply releases_outputs. assumption.
  - change (releases (out ++ j) = []).
    rewrite releases_app, IH, (releases_outputs out Hout). reflexivity.
Qed.

(** X7.  executeSearch of refactored/main.go always returns: no answer of
    the engine makes it panic or exit.  When it returns nil it has issued
    exactly one release, as its last request; when it returns an error it
    has issued none, whatever the point at which the run failed: the
    scroll context is left to expire on the engine. *)
Theorem executeSearch_releases_on_success_only ctx query cfg w :
  exists r w' j,
    Refactored.executeSearch ctx query cfg w = (Ret r, w')
    /\ journal w' = journal w ++ j
    /\ match r with
       | None => exists pre id,
           calls j = pre ++ [CClearScroll id] /\ filter is_release pre = []
       | Some _ => releases j = []
       end.
Proof.
  destruct (executeSearch_run ctx query cfg w)
    as (r & w' & j0 & rest & Hrun & Hj & _ & Hj0 & Hrest).
  exists r, w', (j0 ++ rest). splits; auto.
  pose proof (releases_attempts _ _ _ _ _ Hj0) as H0.
  destruct Hrest as [e|n out e Hout|n out id j e Hout Hp|n out id j id' fin Hout Hp Hrel].
  - rewrite app_nil_r. exact H0.
  - rewrite releases_app, H0. apply (releases_outputs out Hout).
  - rewrite releases_app, H0.
    change (releases (out ++ j) = []).
    rewrite releases_app, (releases_outputs out Hout). eapply releases_paging; eauto.
  - exists (calls (j0 ++ Log (SayInt "Total hits: %d" n) :: out ++ j)), id'.
    split.
    + rewrite <- (released_calls id' fin Hrel), <- calls_app. f_equal. flatten.
    + change (releases (j0 ++ Log (SayInt "Total hits: %d" n) :: out ++ j) = []).
      rewrite releases_app, H0.
      change (releases (out ++ j) = []).
      rewrite releases_app, (releases_outputs out Hout). eapply releases_paging; eauto.
Qed.

End RefactoredRelease.

(** ** processHits of the single-file main.go *)

Section MonolithPage.

Import Ledger Disk Pages.

Lemma Monolith_must_run {A} (x : option A) w :
  Monolith.must x w = match x with Some a => (Ret a, w) | None => (Halt Panicked, w) end.
Proof. destruct x; reflexivity. Qed.

Lemma untitled_cons source rest :
  untitled (source :: rest)
  = match lookup "title" source with
    | None => S (untitled rest)
    | Some _ => untitled rest
    end.
Proof. unfold untitled. cbn [filter]. destruct (lookup "title" source); reflexivity. Qed.

Lemma eachHit_outcome hits : forall sources w,
  Forall2 documented hits sources ->
  exists out,
    Monolith.eachHit hits w
    = (if fits (quota w) (lines_of_sources sources) then Ret tt else Halt (Exited 1),
       mkWorld (clock w) (cancelAt w) (engine w) (dice w)
               (journal w ++ out) (left (quota w) (lines_of_sources sources)))
    /\ written out = accepted (quota w) (lines_of_sources sources)
    /\ calls out = []
    /\ (if fits (quota w) (lines_of_sources sources)
        then logged out
             = repeat (Say "Message field not found in this document.")
                      (untitled sources)
        else exists notes,
            logged out
            = notes ++ [SayErr "Error writing to the file: %s" EWrite]
            /\ Forall (fun l => l = Say "Message field not found in this document.")
                      notes).
Proof.
  induction hits as [|hit rest IH]; intros sources w Hd.
  - inversion Hd; subst. exists [].
    destruct w as [c ca en di jo [n|]]; cbn;
      rewrite ?firstn_nil, ?app_nil_r, ?Nat.sub_0_r; splits; auto.
  - inversion Hd as [|? source ? more (fields & -> & Hs) Hrest]; subst.
    cbn [Monolith.eachHit]. unfold bind at 1. rewrite Monolith_must_run. cbn [as_object].
    unfold bind at 1. rewrite Monolith_must_run, Hs. cbn [as_object].
    unfold lines_of_sources. cbn [flat_map]. fold (lines_of_sources more).
    rewrite untitled_cons.
    destruct (lookup "title" source) as [message|] eqn:Et.
    + unfold bind, Sys.WriteString.
      destruct (quota w) as [[|n]|] eqn:Hq.
      * exists [Log (SayErr "Error writing to the file: %s" EWrite)].
        cbn. destruct w; cbn in *; subst. splits; auto.
        exists []. split; [reflexivity|constructor].
      * match goal with |- context [Monolith.eachHit rest ?w1] =>
          destruct (IH more w1 Hrest) as (out & Hrun & Hw & Hc & Hl) end.
        rewrite Hrun.
        cbn [clock cancelAt engine dice journal quota option_map Nat.pred
             fits accepted left app List.length firstn Nat.leb Nat.sub] in *.
        exists (Write (Sprintf_s message) :: out).
        rewrite <- app_assoc. splits; auto.
        change (written (Write (Sprintf_s message) :: out))
          with (Sprintf_s message :: written out).
        rewrite Hw. reflexivity.
      * match goal with |- context [Monolith.eachHit rest ?w1] =>
          destruct (IH more w1 Hrest) as (out & Hrun & Hw & Hc & Hl) end.
        rewrite Hrun.
        cbn [clock cancelAt engine dice journal quota option_map fits accepted left app] in *.
        exists (Write (Sprintf_s message) :: out).
        rewrite <- app_assoc. splits; auto.
        change (written (Write (Sprintf_s message) :: out))
          with (Sprintf_s message :: written out).
        rewrite Hw. reflexivity.
    + unfold bind, Sys.say.
      destruct (IH more (record (Log (Say "Message field not found in this document.")) w)
                   Hrest) as (out & Hrun & Hw & Hc & Hl).
      rewrite Hrun. cbn [clock cancelAt engine dice journal quota record app] in *.
      exists (Log (Say "Message field not found in this document.") :: out).
      rewrite <- app_assoc. splits; auto.
      destruct (fits (quota w) (lines_of_sources more)).
      * change (logged (Log (Say "Message field not found in this document.") :: out))
          with (Say "Message field not found in this document." :: logged out).
        rewrite Hl. reflexivity.
      * destruct Hl as (notes & Hl & Hn).
        exists (Say "Message field not found in this document." :: notes).
        split; [|constructor; auto].
        change (logged (Log (Say "Message field not found in this document.") :: out))
          with (Say "Message field not found in this document." :: logged out).
        rewrite Hl. reflexivity.
Qed.

Lemma eachHit_panics hits : forall w,
  quota w = None ->
  (forall sources, ~ Forall2 documented hits sources) ->
  fst (Monolith.eachHit hits w) = Halt Panicked.
Proof.
  induction hits as [|hit rest IH]; intros w Hq Hno.
  - destruct (Hno [] (Forall2_nil _)).
  - cbn [Monolith.eachHit]. unfold bind at 1. rewrite Monolith_must_run.
    destruct (as_object (Some hit)) as [hitMap|] eqn:Eo; [|reflexivity].
    apply as_object_some in Eo. injection Eo as ->.
    unfold bind at 1. rewrite Monolith_must_run.
    destruct (as_object (lookup "_source" hitMap)) as [source|] eqn:Es; [|reflexivity].
    apply as_object_some in Es.
    assert (Hrest : forall sources, ~ Forall2 documented rest sources).
    { intros sources H. apply (Hno (source :: sources)).
      constructor; [exists hitMap; auto|assumption]. }
    destruct (lookup "title" source) as [message|].
    + unfold bind, Sys.WriteString. rewrite Hq. cbn [option_map].
      match goal with |- context [Monolith.eachHit rest ?w1] =>
        pose proof (IH w1 eq_refl Hrest) as Hp;
        destruct (Monolith.eachHit rest w1) as [x w2] end.
      cbn in Hp. subst x. reflexivity.
    + unfold bind, Sys.say.
      match goal with |- context [Monolith.eachHit rest ?w1] =>
        pose proof (IH w1 Hq Hrest) as Hp;
        destruct (Monolith.eachHit rest w1) as [x w2] end.
      cbn in Hp. subst x. reflexivity.
Qed.

(** X8.  processHits of the single-file main.go, on records that are
    objects with an object as their document and with any output file:
    after its banner it offers the file the rendering of every title, in
    order (the lines ProcessHits of processor/processor.go is offered for
    the same documents), and issues no request.  When the file takes
    them all it returns, having logged the diagnostic once for every
    document without the key; when the file refuses a write the process
    exits with status 1 after logging the write error, and the file holds
    exactly the lines before the refused one. *)
Theorem Monolith_processHits_outcome hits sources w :
  Forall2 documented hits sources ->
  exists out,
    Monolith.processHits hits w
    = (if fits (quota w) (lines_of_sources sources) then Ret tt else Halt (Exited 1),
       mkWorld (clock w) (cancelAt w) (engine w) (dice w)
               (journal w ++ Log (Say "Process the next batch of Hits") :: out)
               (left (quota w) (lines_of_sources sources)))
    /\ written out = accepted (quota w) (lines_of_sources sources)
    /\ calls out = []
    /\ (if fits (quota w) (lines_of_sources sources)
        then logged out
             = repeat (Say "Message field not found in this document.")
                      (untitled sources)
        else exists notes,
            logged out
            = notes ++ [SayErr "Error writing to the file: %s" EWrite]
            /\ Forall (fun l => l = Say "Message field not found in this document.")
                      notes).
Proof.
  intros Hd. unfold Monolith.processHits, bind, Sys.say.
  destruct (eachHit_outcome hits sources
              (record (Log (Say "Process the next batch of Hits")) w) Hd)
    as (out & Hrun & Hw & Hc & Hl).
  cbn [clock cancelAt engine dice journal quota record] in *.
  exists out. rewrite Hrun, <- app_assoc. splits; auto.
Qed.

(** X9.  With a file that accepts every write, processHits of the
    single-file main.go returns exactly when every record is an object
    with an object as its document; on any other record the unchecked
    type assertion panics. *)
Theorem Monolith_processHits_panics hits w :
  quota w = None ->
  (fst (Monolith.processHits hits w) = Ret tt
   <-> exists sources, Forall2 documented hits sources)
  /\ (fst (Monolith.processHits hits w) = Halt Panicked
      <-> forall sources, ~ Forall2 documented hits sources).
Proof.
  intros Hq.
  assert (Hyes : forall sources, Forall2 documented hits sources ->
                   fst (Monolith.processHits hits w) = Ret tt).
  { intros sources Hd. unfold Monolith.processHits, bind, Sys.say.
    destruct (eachHit_outcome hits sources
                (record (Log (Say "Process the next batch of Hits")) w) Hd)
      as (out & Hrun & _).
    rewrite Hrun. cbn [quota record]. rewrite Hq. reflexivity. }
  assert (Hno : (forall sources, ~ Forall2 documented hits sources) ->
                fst (Monolith.processHits hits w) = Halt Panicked).
  { intros H. unfold Monolith.processHits, bind, Sys.say.
    pose proof (eachHit_panics hits (record (Log (Say "Process the next batch of Hits")) w)
                  Hq H) as Hp.
    destruct (Monolith.eachHit hits _) as [x w2]. cbn in Hp. subst x. reflexivity. }
  assert (Hdec : (exists sources, Forall2 documented hits sources)
                 \/ forall sources, ~ Forall2 documented hits sources).
  { destruct (sources_outcome hits w) as [(l & _ & Hl)|(_ & H)]; [left; eauto|right; exact H]. }
  split; split.
  - intros Hr. destruct Hdec as [H|H]; [exact H|]. rewrite (Hno H) in Hr. discriminate.
  - intros (sources & Hd). eauto.
  - intros Hr sources Hd. rewrite (Hyes sources Hd) in Hr. discriminate.
  - exact Hno.
Qed.

End MonolithPage.

Lemma Monolith_processHits_outcome_witness :
  exists out,
    Monolith.processHits Scenario.test_hits (Sample.fresh [])
    = (if Disk.fits (quota (Sample.fresh []))
                    (Ledger.lines_of_sources Scenario.test_sources)
       then Ret tt else Halt (Exited 1),
       mkWorld (clock (Sample.fresh [])) (cancelAt (Sample.fresh []))
               (engine (Sample.fresh [])) (dice (Sample.fresh []))
               (journal (Sample.fresh [])
                  ++ Log (Say "Process the next batch of Hits") :: out)
               (Disk.left (quota (Sample.fresh []))
                          (Ledger.lines_of_sources Scenario.test_sources)))
    /\ written out
       = Disk.accepted (quota (Sample.fresh []))
                       (Ledger.lines_of_sources Scenario.test_sources)
    /\ calls out = []
    /\ (if Disk.fits (quota (Sample.fresh []))
                     (Ledger.lines_of_sources Scenario.test_sources)
        then logged out
             = repeat (Say "Message field not found in this document.")
                      (Ledger.untitled Scenario.test_sources)
        else exists notes,
            logged out
            = notes ++ [SayErr "Error writing to the file: %s" EWrite]
            /\ Forall (fun l => l = Say "Message field not found in this document.")
                      notes).
Proof.
  apply (Monolith_processHits_outcome Scenario.test_hits Scenario.test_sources
           (Sample.fresh [])).
  repeat (constructor; [eexists; split; reflexivity|]). constructor.
Defined.

Lemma Monolith_processHits_panics_witness :
  (fst (Monolith.processHits Scenario.test_hits (Sample.fresh [])) = Ret tt
   <-> exists sources, Forall2 Pages.documented Scenario.test_hits sources)
  /\ (fst (Monolith.processHits Scenario.test_hits (Sample.fresh [])) = Halt Panicked
      <-> forall sources, ~ Forall2 Pages.documented Scenario.test_hits sources).
Proof.
  apply (Monolith_processHits_panics Scenario.test_hits (Sample.fresh [])).
  reflexivity.
Defined.

(** ** The run of the main.go that drives the client *)

Section ModularSession.

Import Backoff Executor Turning Ledger Disk Rounds.

Lemma page_of_parsed x page :
  IsError x = false -> parsed (Body x) = Ret (inl page) ->
  Rounds.page_of (Replied x) = Some page.
Proof. intros Hx Hp. cbn. rewrite Hx, Hp. reflexivity. Qed.

(** The request both InitialSearch and Scroll retry, with the journal it
    leaves and the allowance of the file, which it does not touch. *)
Lemma request_fetched c failure w :
  exists r w' a f,
    (backoffConfig <- Client.newBackoffConfig ;;
     '(err, res) <- Retry (Client.attempt c) (Bare backoffConfig) None ;;
     match err with
     | Some e => ret (inr (EWrap failure e))
     | None => res <- Client.must res ;; Client.parseScrollResponse (Body res)
     end) w = (r, w')
    /\ journal w' = journal w ++ f
    /\ fetched c a f
    /\ quota w' = quota w
    /\ (List.length (engine w') <= List.length (engine w))%nat
    /\ match r with
       | Ret (inl page) =>
           Rounds.page_of a = Some page
           /\ (List.length (engine w') < List.length (engine w))%nat
       | Ret (inr e) => Rounds.page_of a = None
       | Halt why => Rounds.page_of a = None /\ why = Panicked
       end.
Proof.
  unfold bind at 1.
  destruct (newBackoffConfig_run w) as (e & -> & He).
  unfold bind at 1.
  destruct (Retry_summary c (Client.attempt c) (Bare e) None w (attempt_attempts c) He)
    as ([err res] & w' & -> & _ & Hq & Hlen & Hlt & Hsum).
  destruct Hsum as (pre & t & t' & a & notes & Hj & Hnotes & Hpre & Hfailed & _ & Hres & _).
  assert (Hf : fetched c a (pre ++ Request t t' c a :: map Log notes)).
  { exists pre, t, t', notes. splits; auto. }
  destruct err as [e'|].
  - exists (Ret (inr (EWrap failure e'))), w', a, (pre ++ Request t t' c a :: map Log notes).
    splits; auto.
    destruct a as [why|x]; [reflexivity|]. cbn in Hres. apply negb_false_iff in Hres.
    cbn. rewrite Hres. reflexivity.
  - destruct Hres as (Hs & x & -> & ->).
    unfold bind. rewrite must_run, parseScrollResponse_pure.
    exists (parsed (Body x)), w', (Replied x), (pre ++ Request t t' c (Replied x) :: map Log notes).
    splits; auto.
    cbn in Hs. apply negb_true_iff in Hs.
    destruct (parsed (Body x)) as [[page|e']|why] eqn:Hp.
    + split; [apply page_of_parsed; assumption|apply Hlt; reflexivity].
    + cbn. rewrite Hs, Hp. reflexivity.
    + split; [cbn; rewrite Hs, Hp; reflexivity|eapply parsed_halts; eassumption].
Qed.

Lemma pages_turning : forall fuel cl ctx result cur tot w,
  (List.length (engine w) < fuel)%nat ->
  exists x w' j,
    Modular.pages fuel cl ctx result cur tot w = (x, w')
    /\ journal w' = journal w ++ j
    /\ turning (Client.scrollDuration cl) tot (quota w) (Client.ScrollID result) cur j x.
Proof.
  induction fuel as [|fuel IH]; intros cl ctx result cur tot w Hfuel; [lia|].
  cbn [Modular.pages]. unfold bind at 1. unfold Sys.say at 1.
  set (l1 := Log (SayInts "Processing page %d of %d" (GoInt.add cur 1) tot)).
  unfold bind at 1. unfold Client.Scroll.
  destruct (request_fetched (CScroll (Client.ScrollID result) (Client.scrollDuration cl))
                            "scroll request failed" (record l1 w))
    as (r & w2 & a & f & -> & Hj & Hf & Hq & Hlen & Hr).
  cbn [journal record quota engine] in Hj, Hq, Hlen, Hr.
  destruct r as [[page|e]|why].
  3:{ destruct Hr as (Hp & ->).
      exists (Halt Panicked), w2, (l1 :: f). split; [reflexivity|].
      split; [rewrite Hj; flatten|]. eapply turning_panicked; eauto. }
  2:{ unfold Sys.fatal, bind, Sys.say. cbn.
      exists (Halt (Exited 1)). eexists. exists (l1 :: f ++ [Log (SayErr "Failed to scroll: %v" e)]).
      split; [reflexivity|]. cbn [journal record].
      split; [rewrite Hj; flatten|]. eapply turning_failed; eauto. }
  destruct Hr as (Hp & Hlt).
  destruct (Client.Hits page) as [|hit hits] eqn:Hhits.
  { unfold bind, Sys.say. cbn.
    exists (Ret page). eexists. exists (l1 :: f ++ [Log (Say "No more hits to process")]).
    split; [reflexivity|]. cbn [journal record].
    split; [rewrite Hj; flatten|]. eapply turning_drained; eauto. }
  unfold bind at 1. rewrite ProcessHits_outcome. rewrite Hq.
  rewrite <- Hhits.
  destruct (fits (quota w) (lines_of_sources (Client.Hits page))) eqn:Hfits.
  2:{ unfold Sys.fatal, bind, Sys.say. cbn.
      exists (Halt (Exited 1)). eexists.
      exists (l1 :: f ++ map Write (accepted (quota w) (lines_of_sources (Client.Hits page)))
                 ++ [Log (SayErr "Failed to process hits: %v"
                                 (EWrap "failed to write to file" EWrite))]).
      split; [reflexivity|]. cbn [journal record].
      split; [rewrite Hj; flatten|]. eapply turning_unwritten; eauto. }
  match goal with |- context [Modular.pages fuel cl ctx page ?cur1 tot ?w3] =>
    destruct (IH cl ctx page cur1 tot w3) as (y & w4 & j & Hloop & Hj4 & Hturn) end.
  { cbn [engine]. lia. }
  rewrite Hloop. cbn [journal quota] in Hj4, Hturn.
  exists y, w4, (l1 :: f ++ map Write (lines_of_sources (Client.Hits page)) ++ j).
  split; [reflexivity|].
  assert (Hacc : accepted (quota w) (lines_of_sources (Client.Hits page))
                 = lines_of_sources (Client.Hits page)).
  { destruct (quota w) as [n|]; [|reflexivity]. cbn in *.
    apply Nat.leb_le in Hfits. apply firstn_all2. exact Hfits. }
  rewrite Hacc in Hj4.
  split; [rewrite Hj4, Hj; flatten|].
  eapply turning_on; eauto. rewrite Hhits. discriminate.
Qed.

Lemma accepted_fits q lines : fits q lines = true -> accepted q lines = lines.
Proof.
  destruct q as [n|]; [|reflexivity]. cbn. intros H.
  apply Nat.leb_le in H. apply firstn_all2. exact H.
Qed.

Lemma main_session cfg queryStr w :
  exists r w' j,
    Modular.main cfg queryStr w = (r, w')
    /\ journal w' = journal w ++ j
    /\ session (CSearch (Modular.IndexName cfg) queryStr (Modular.BatchSize cfg)
                        (Modular.ScrollDuration cfg))
               (Modular.ScrollDuration cfg) (Modular.BatchSize cfg) (quota w) j r.
Proof.
  unfold Modular.main. unfold bind at 1. unfold Client.InitialSearch.
  cbn [Client.indexName Client.batchSize Client.scrollDuration Client.NewESClient].
  set (c := CSearch (Modular.IndexName cfg) queryStr (Modular.BatchSize cfg)
                    (Modular.ScrollDuration cfg)).
  destruct (request_fetched c "initial search failed" w)
    as (r & w1 & a & f & -> & Hj & Hf & Hq & Hlen & Hr).
  destruct r as [[result|e]|why].
  3:{ destruct Hr as (Hp & ->).
      exists (Halt Panicked), w1, f. splits; auto. eapply session_panicked; eauto. }
  2:{ unfold Sys.fatal, bind, Sys.say. cbn.
      exists (Halt (Exited 1)). eexists.
      exists (f ++ [Log (SayErr "Failed to perform initial search: %v" e)]).
      split; [reflexivity|]. cbn [journal record].
      split; [rewrite Hj; flatten|]. eapply session_failed; eauto. }
  destruct Hr as (Hp & Hlt).
  unfold bind at 1. rewrite must_run.
  destruct (totalPages (Client.Total result) (Modular.BatchSize cfg)) as [tot|] eqn:Htot.
  2:{ exists (Halt Panicked), w1, f. splits; auto.
      eapply session_unpaged; eauto.
      unfold totalPages, GoInt.div in Htot.
      destruct (Modular.BatchSize cfg =? 0) eqn:Hb; [|discriminate].
      apply Z.eqb_eq. exact Hb. }
  unfold bind at 1. unfold Sys.say at 1.
  set (l1 := Log (SayInts "Processing page %d of %d" 1 tot)).
  unfold bind at 1. rewrite ProcessHits_outcome.
  cbn [record clock cancelAt engine dice journal quota]. rewrite Hq.
  destruct (fits (quota w) (lines_of_sources (Client.Hits result))) eqn:Hfits.
  2:{ unfold Sys.fatal, bind, Sys.say. cbn.
      exists (Halt (Exited 1)). eexists.
      exists (f ++ l1 :: map Write (accepted (quota w) (lines_of_sources (Client.Hits result)))
                ++ [Log (SayErr "Failed to process hits: %v"
                                (EWrap "failed to write to file" EWrite))]).
      split; [reflexivity|]. cbn [journal record].
      split; [rewrite Hj; flatten|]. eapply session_unwritten; eauto. }
  rewrite (accepted_fits _ _ Hfits).
  unfold bind at 1. unfold Sys.patience at 1. cbn [engine]. unfold bind at 1.
  match goal with |- context [Modular.pages ?fuel ?cl ?ctx result 1 tot ?w3] =>
    destruct (pages_turning fuel cl ctx result 1 tot w3)
      as (y & w4 & j & -> & Hj4 & Hturn) end.
  { cbn [engine]. lia. }
  cbn [journal quota Client.scrollDuration] in Hj4, Hturn.
  destruct y as [last|why].
  2:{ cbv beta iota.
      exists (Halt why), w4, (f ++ l1 :: map Write (lines_of_sources (Client.Hits result)) ++ j).
      split; [reflexivity|].
      split; [rewrite Hj4, Hj; flatten|]. eapply session_stopped; eauto. }
  cbv beta iota. unfold bind at 1. unfold Client.ClearScroll, Sys.perform.
  unfold bind at 1. unfold bind at 1. rewrite roundTrip_world.
  destruct (next_answer w4) as [why|res] eqn:Hans; unfold ret, Sys.say; cbv beta iota.
  - exists (Ret tt). eexists.
    exists (f ++ l1 :: map Write (lines_of_sources (Client.Hits result)) ++ j
              ++ [Request (clock w4) (back w4) (CClearScroll (Client.ScrollID last))
                          (Unreachable why);
                  Log (SayErr "Warning: failed to clear scroll: %v" (ETransport why))]).
    split; [reflexivity|]. cbn [journal record].
    split; [rewrite Hj4, Hj; flatten|].
    eapply session_released; eauto. eexists _, _, (Unreachable why). reflexivity.
  - exists (Ret tt). eexists.
    exists (f ++ l1 :: map Write (lines_of_sources (Client.Hits result)) ++ j
              ++ [Request (clock w4) (back w4) (CClearScroll (Client.ScrollID last))
                          (Replied res)]).
    split; [reflexivity|]. cbn [journal record].
    split; [rewrite Hj4, Hj; flatten|].
    eapply session_released; eauto. eexists _, _, (Replied res). reflexivity.
Qed.

End ModularSession.

(** ** What the main.go that drives the client writes, asks and releases *)

Section ModularFacts.

Import Backoff Executor Turning Ledger Disk Rounds.

Lemma failed_no_client_page a : succeeded a = false -> Rounds.page_of a = None.
Proof.
  destruct a as [why|x]; cbn; [reflexivity|].
  intros H. apply negb_false_iff in H. rewrite H. reflexivity.
Qed.

Lemma client_expected_app j k :
  Rounds.expected (j ++ k) = Rounds.expected j ++ Rounds.expected k.
Proof. apply flat_map_app. Qed.

Lemma client_expected_notes notes : Rounds.expected (map Log notes) = [].
Proof. induction notes; [reflexivity|assumption]. Qed.

Lemma client_expected_writes lines : Rounds.expected (map Write lines) = [].
Proof. induction lines; [reflexivity|assumption]. Qed.

Lemma written_writes lines : written (map Write lines) = lines.
Proof. induction lines as [|l ls IH]; [reflexivity|]. cbn. f_equal. exact IH. Qed.

Lemma written_log l j : written (Log l :: j) = written j.
Proof. reflexivity. Qed.

Lemma client_expected_log l j : Rounds.expected (Log l :: j) = Rounds.expected j.
Proof. reflexivity. Qed.

Lemma fetched_ledger c a f :
  Session.is_release c = false ->
  fetched c a f ->
  written f = [] /\ Rounds.expected f = lines_of a.
Proof.
  intros Hc (pre & t & t' & notes & -> & Hpre & Hfailed & _).
  assert (Hp : written pre = [] /\ Rounds.expected pre = []).
  { induction pre as [|e pre IH]; [split; reflexivity|].
    inversion Hpre as [|? ? He Hpre']; inversion Hfailed as [|? ? Hfe Hf']; subst.
    destruct (IH Hpre' Hf') as (IH1 & IH2).
    destruct e as [t0 t0' c' a'|l|l]; cbn in *; [|contradiction|auto].
    subst c'. unfold lines_of. rewrite (failed_no_client_page a' Hfe).
    destruct c; cbn; auto. }
  destruct Hp as (Hp1 & Hp2).
  rewrite written_app, client_expected_app, Hp1, Hp2. cbn.
  rewrite written_notes, client_expected_notes.
  destruct c; cbn in *; try discriminate; rewrite app_nil_r; auto.
Qed.

Lemma turning_ledger ttl tot q id cur j x :
  turning ttl tot q id cur j x -> q = None -> written j = Rounds.expected j.
Proof.
  induction 1 as [q id cur f a e Hf Hp|q id cur f a Hf Hp|q id cur f a page Hf Hp Hh
                 |q id cur f a page Hf Hp Hfits
                 |q id cur f a page j x Hf Hp Hh Hfits Hrest IH]; intros ->;
    destruct (fetched_ledger (CScroll id ttl) a f eq_refl Hf) as (Hw & He);
    unfold lines_of in He; rewrite Hp in He;
    rewrite written_log, client_expected_log.
  - rewrite written_app, client_expected_app, Hw, He. reflexivity.
  - rewrite Hw, He. reflexivity.
  - rewrite written_app, client_expected_app, Hw, He.
    unfold lines_of_sources. rewrite Hh. reflexivity.
  - discriminate.
  - rewrite !written_app, !client_expected_app, Hw, He, written_writes,
      client_expected_writes, (IH eq_refl). reflexivity.
Qed.

Lemma released_ledger_client id fin :
  Rounds.released id fin -> written fin = [] /\ Rounds.expected fin = [].
Proof. intros (t & t' & [why|res] & ->); split; reflexivity. Qed.

Lemma session_ledger c ttl batchSize j r :
  Session.is_release c = false ->
  batchSize <> 0 ->
  session c ttl batchSize None j r -> written j = Rounds.expected j.
Proof.
  intros Hc Hb H.
  destruct H as [f a e Hf Hp|f a Hf Hp|f a result Hf Hp H0|f a result tot Hf Hp Ht Hfits
                |f a result tot j why Hf Hp Ht Hfits Hturn
                |f a result tot j last fin Hf Hp Ht Hfits Hturn Hrel];
    destruct (fetched_ledger _ _ _ Hc Hf) as (Hw & He);
    unfold lines_of in He; rewrite Hp in He.
  - rewrite written_app, client_expected_app, Hw, He. reflexivity.
  - rewrite Hw, He. reflexivity.
  - contradiction.
  - discriminate.
  - rewrite written_app, client_expected_app, Hw, He, written_log, client_expected_log.
    rewrite !written_app, !client_expected_app, written_writes, client_expected_writes,
      (turning_ledger _ _ _ _ _ _ _ Hturn eq_refl). reflexivity.
  - destruct (released_ledger_client _ _ Hrel) as (Hwf & Hef).
    rewrite written_app, client_expected_app, Hw, He, written_log, client_expected_log.
    rewrite !written_app, !client_expected_app, written_writes, client_expected_writes,
      (turning_ledger _ _ _ _ _ _ _ Hturn eq_refl), Hwf, Hef. reflexivity.
Qed.

(** X10.  With an output file that accepts every write and a batch size
    that is not zero, what the main.go that drives the client has written
    when it ends, normally, by exit or by panic, is exactly the rendering
    of the titles of the documents of every page it received, from the
    search and from the scrolls, in the order the pages arrived and the
    documents stand in them. *)
Theorem main_writes_pages cfg queryStr w r w' j :
  quota w = None ->
  Modular.BatchSize cfg <> 0 ->
  Modular.main cfg queryStr w = (r, w') ->
  journal w' = journal w ++ j ->
  written j = Rounds.expected j.
Proof.
  intros Hq Hb Hrun Hj.
  destruct (main_session cfg queryStr w) as (r0 & w0 & j0 & Hrun' & Hj0 & Hs).
  rewrite Hrun in Hrun'. injection Hrun' as <- <-.
  rewrite Hj0 in Hj. apply app_inv_head in Hj. subst j0.
  rewrite Hq in Hs. eapply session_ledger; [|exact Hb|exact Hs]. reflexivity.
Qed.

Lemma followed_notes ttl held notes j :
  followed ttl held j -> followed ttl held (map Log notes ++ j).
Proof. induction notes; intros Hj; cbn; auto. Qed.

Lemma followed_writes ttl held lines j :
  followed ttl held j -> followed ttl held (map Write lines ++ j).
Proof. induction lines; intros Hj; cbn; auto. Qed.

Lemma followed_fetched ttl id a f rest :
  fetched (CScroll id ttl) a f ->
  followed ttl (advance id a) rest ->
  followed ttl id (f ++ rest).
Proof.
  intros (pre & t & t' & notes & -> & Hpre & Hfailed & _) Hrest.
  rewrite <- app_assoc.
  induction pre as [|e pre IH].
  - cbn. splits; auto. apply followed_notes. exact Hrest.
  - inversion Hpre as [|? ? He Hpre']; inversion Hfailed as [|? ? Hfe Hf']; subst.
    destruct e as [t0 t0' c' a'|l|l]; cbn in He; [subst c'|contradiction|].
    + cbn [app followed]. splits; auto.
      unfold advance. rewrite (failed_no_client_page a' Hfe). apply IH; assumption.
    + cbn [app followed]. apply IH; assumption.
Qed.

Lemma turning_followed ttl tot q id cur j x :
  turning ttl tot q id cur j x ->
  forall tail,
    (forall last, x = Ret last -> followed ttl (Client.ScrollID last) tail) ->
    (forall why, x = Halt why -> tail = []) ->
    followed ttl id (j ++ tail).
Proof.
  induction 1 as [q id cur f a e Hf Hp|q id cur f a Hf Hp|q id cur f a page Hf Hp Hh
                 |q id cur f a page Hf Hp Hfits
                 |q id cur f a page j x Hf Hp Hh Hfits Hrest IH]; intros tail Hret Hhalt.
  - rewrite (Hhalt _ eq_refl), app_nil_r. cbn [followed].
    eapply followed_fetched; [eassumption|]. exact I.
  - rewrite (Hhalt _ eq_refl), app_nil_r. cbn [followed].
    rewrite <- (app_nil_r f). eapply followed_fetched; [eassumption|]. exact I.
  - cbn [app followed]. rewrite <- app_assoc.
    eapply followed_fetched; [eassumption|]. cbn.
    unfold advance. rewrite Hp. apply Hret. reflexivity.
  - rewrite (Hhalt _ eq_refl), app_nil_r. cbn [followed].
    eapply followed_fetched; [eassumption|].
    apply followed_writes. exact I.
  - cbn [app followed]. rewrite <- !app_assoc.
    eapply followed_fetched; [eassumption|].
    apply followed_writes. unfold advance. rewrite Hp. apply IH; assumption.
Qed.

Lemma opened_fetched c ttl a f rest :
  fetched c a f ->
  match Rounds.page_of a with
  | Some result => followed ttl (Client.ScrollID result) rest
  | None => Rounds.opened c ttl rest
  end ->
  Rounds.opened c ttl (f ++ rest).
Proof.
  intros (pre & t & t' & notes & -> & Hpre & Hfailed & _) Hrest.
  rewrite <- app_assoc.
  induction pre as [|e pre IH].
  - cbn. split; [reflexivity|].
    destruct (Rounds.page_of a); [apply followed_notes; exact Hrest|].
    clear - Hrest. induction notes; cbn; auto.
  - inversion Hpre as [|? ? He Hpre']; inversion Hfailed as [|? ? Hfe Hf']; subst.
    destruct e as [t0 t0' c' a'|l|l]; cbn in He; [subst c'|contradiction|].
    + cbn [app Rounds.opened]. split; [reflexivity|].
      rewrite (failed_no_client_page a' Hfe). apply IH; assumption.
    + cbn [app Rounds.opened]. apply IH; assumption.
Qed.

Lemma released_followed ttl id fin : Rounds.released id fin -> followed ttl id fin.
Proof. intros (t & t' & [why|res] & ->); cbn; auto. Qed.

Lemma session_opened c ttl batchSize q j r :
  session c ttl batchSize q j r -> Rounds.opened c ttl j.
Proof.
  intros H.
  destruct H as [f a e Hf Hp|f a Hf Hp|f a result Hf Hp H0|f a result tot Hf Hp Ht Hfits
                |f a result tot j why Hf Hp Ht Hfits Hturn
                |f a result tot j last fin Hf Hp Ht Hfits Hturn Hrel].
  - eapply opened_fetched; [eassumption|]. rewrite Hp. exact I.
  - rewrite <- (app_nil_r f). eapply opened_fetched; [eassumption|]. rewrite Hp. exact I.
  - rewrite <- (app_nil_r f). eapply opened_fetched; [eassumption|]. rewrite Hp. exact I.
  - eapply opened_fetched; [eassumption|]. rewrite Hp. cbn.
    apply followed_writes. exact I.
  - eapply opened_fetched; [eassumption|]. rewrite Hp. cbn.
    apply followed_writes. rewrite <- (app_nil_r j).
    eapply turning_followed; [eassumption|discriminate|reflexivity].
  - eapply opened_fetched; [eassumption|]. rewrite Hp. cbn.
    apply followed_writes.
    eapply turning_followed; [eassumption| |discriminate].
    intros last' [= <-]. apply released_followed. exact Hrel.
Qed.

(** X11.  In every run of the main.go that drives the client the requests
    form one session: the search is repeated with the configured index,
    query, batch size and scroll duration until it is answered by a page;
    from then on every scroll asks for the page after the cursor of the
    last page received, with the configured scroll duration, the release
    names the cursor of the last page received, the empty one included,
    and no further search is issued. *)
Theorem main_follows_cursor cfg queryStr w r w' j :
  Modular.main cfg queryStr w = (r, w') ->
  journal w' = journal w ++ j ->
  Rounds.opened (CSearch (Modular.IndexName cfg) queryStr (Modular.BatchSize cfg)
                         (Modular.ScrollDuration cfg))
                (Modular.ScrollDuration cfg) j.
Proof.
  intros Hrun Hj.
  destruct (main_session cfg queryStr w) as (r0 & w0 & j0 & Hrun' & Hj0 & Hs).
  rewrite Hrun in Hrun'. injection Hrun' as <- <-.
  rewrite Hj0 in Hj. apply app_inv_head in Hj. subst j0.
  eapply session_opened; eauto.
Qed.

End ModularFacts.

Lemma main_writes_pages_witness :
  written (journal (snd (Modular.main (Modular.NewConfig "http://localhost:9200") "q"
                                      (Sample.fresh Scenario.two_pages))))
  = Rounds.expected
      (journal (snd (Modular.main (Modular.NewConfig "http://localhost:9200") "q"
                                  (Sample.fresh Scenario.two_pages)))).
Proof.
  apply (main_writes_pages (Modular.NewConfig "http://localhost:9200") "q"
           (Sample.fresh Scenario.two_pages)
           (fst (Modular.main (Modular.NewConfig "http://localhost:9200") "q"
                              (Sample.fresh Scenario.two_pages)))
           (snd (Modular.main (Modular.NewConfig "http://localhost:9200") "q"
                              (Sample.fresh Scenario.two_pages)))).
  - reflexivity.
  - discriminate.
  - apply surjective_pairing.
  - vm_compute. reflexivity.
Defined.

Lemma main_follows_cursor_witness :
  Rounds.opened (CSearch "sample_data" "q" 6 Backoff.Minute) Backoff.Minute
    (journal (snd (Modular.main (Modular.NewConfig "http://localhost:9200") "q"
                                (Sample.fresh Scenario.two_pages)))).
Proof.
  apply (main_follows_cursor (Modular.NewConfig "http://localhost:9200") "q"
           (Sample.fresh Scenario.two_pages)
           (fst (Modular.main (Modular.NewConfig "http://localhost:9200") "q"
                              (Sample.fresh Scenario.two_pages)))
           (snd (Modular.main (Modular.NewConfig "http://localhost:9200") "q"
                              (Sample.fresh Scenario.two_pages)))).
  - apply surjective_pairing.
  - vm_compute. reflexivity.
Defined.

(** ** How the main.go that drives the client ends *)

Section ModularEnds.

Import Backoff Executor Turning Ledger Disk Rounds Session.

Lemma releases_writes lines : releases (map Write lines) = [].
Proof. induction lines; [reflexivity|assumption]. Qed.

Lemma releases_fetched c a f :
  is_release c = false -> fetched c a f -> releases f = [].
Proof.
  intros Hc (pre & t & t' & notes & -> & Hpre & _ & _).
  rewrite releases_app.
  assert (Hp : releases pre = []).
  { induction Hpre as [|e pre He _ IH]; [reflexivity|].
    destruct e as [t0 t0' c' a'|l|l]; cbn in He; [subst c'|contradiction|exact IH].
    unfold releases in *. cbn. rewrite Hc. exact IH. }
  rewrite Hp. unfold releases. cbn. rewrite Hc, calls_notes. reflexivity.
Qed.

Lemma announced_behind pre j : announced j -> announced (pre ++ j).
Proof.
  intros (j' & msg & e & ->). exists (pre ++ j'), msg, e. apply app_assoc.
Qed.

Lemma turning_ends ttl tot q id cur j x :
  turning ttl tot q id cur j x ->
  releases j = []
  /\ match x with
     | Ret _ => True
     | Halt (Exited code) => code = 1 /\ announced j
     | Halt Panicked => True
     | Halt OutOfFuel => False
     end.
Proof.
  induction 1 as [q id cur f a e Hf Hp|q id cur f a Hf Hp|q id cur f a page Hf Hp Hh
                 |q id cur f a page Hf Hp Hfits
                 |q id cur f a page j x Hf Hp Hh Hfits Hrest (IH1 & IH2)];
    pose proof (releases_fetched (CScroll id ttl) a f eq_refl Hf) as Hr.
  - split.
    + change (releases (f ++ [Log (SayErr "Failed to scroll: %v" e)]) = []).
      rewrite releases_app, Hr. reflexivity.
    + split; [reflexivity|].
      apply (announced_behind (_ :: f)). exists [], "Failed to scroll: %v", e. reflexivity.
  - split; [exact Hr|exact I].
  - split; [|exact I].
    change (releases (f ++ [Log (Say "No more hits to process")]) = []).
    rewrite releases_app, Hr. reflexivity.
  - split.
    + match goal with |- releases (_ :: ?rest) = [] => change (releases rest = []) end.
      rewrite !releases_app, Hr, releases_writes. reflexivity.
    + split; [reflexivity|].
      apply (announced_behind (_ :: f)). apply announced_behind.
      exists [], "Failed to process hits: %v", (EWrap "failed to write to file" EWrite).
      reflexivity.
  - split.
    + match goal with |- releases (_ :: ?rest) = [] => change (releases rest = []) end.
      rewrite !releases_app, Hr, releases_writes, IH1. reflexivity.
    + destruct x as [last|[ |code| ]]; auto.
      destruct IH2 as (-> & Ha). split; [reflexivity|].
      apply (announced_behind (_ :: f)). apply announced_behind. exact Ha.
Qed.

(** X12.  The main.go that drives the client ends in one of three ways.
    When it returns it has issued exactly one release, as its last
    request.  When it exits, the status is 1, the last thing it did was
    to log the error, and it has issued no release: the scroll context is
    left to expire on the engine.  When it panics (an unchecked type
    assertion on a malformed response, or a batch size of zero) it has
    issued no release either. *)
Theorem main_ends cfg queryStr w :
  exists r w' j,
    Modular.main cfg queryStr w = (r, w')
    /\ journal w' = journal w ++ j
    /\ match r with
       | Ret _ => exists pre id,
           calls j = pre ++ [CClearScroll id] /\ filter is_release pre = []
       | Halt (Exited code) => code = 1 /\ releases j = [] /\ announced j
       | Halt Panicked => releases j = []
       | Halt OutOfFuel => False
       end.
Proof.
  destruct (main_session cfg queryStr w) as (r & w' & j & Hrun & Hj & Hs).
  exists r, w', j. splits; auto.
  set (c := CSearch (Modular.IndexName cfg) queryStr (Modular.BatchSize cfg)
                    (Modular.ScrollDuration cfg)) in *.
  destruct Hs as [f a e Hf Hp|f a Hf Hp|f a result Hf Hp H0|f a result tot Hf Hp Ht Hfits
                 |f a result tot j why Hf Hp Ht Hfits Hturn
                 |f a result tot j last fin Hf Hp Ht Hfits Hturn Hrel];
    pose proof (releases_fetched c a f eq_refl Hf) as Hr.
  - splits; auto.
    + rewrite releases_app, Hr. reflexivity.
    + exists f, "Failed to perform initial search: %v", e. reflexivity.
  - exact Hr.
  - exact Hr.
  - splits; auto.
    + rewrite releases_app, Hr.
      match goal with |- [] ++ releases (_ :: ?rest) = [] => change (releases rest = []) end.
      rewrite releases_app, releases_writes. reflexivity.
    + apply announced_behind. apply (announced_behind (_ :: _)).
      exists [], "Failed to process hits: %v", (EWrap "failed to write to file" EWrite).
      reflexivity.
  - destruct (turning_ends _ _ _ _ _ _ _ Hturn) as (Hrj & Hx).
    assert (Hall : releases (f ++ Log (SayInts "Processing page %d of %d" 1 tot)
                               :: map Write (lines_of_sources (Client.Hits result)) ++ j)
                   = []).
    { rewrite releases_app, Hr.
      match goal with |- [] ++ releases (_ :: ?rest) = [] => change (releases rest = []) end.
      rewrite releases_app, releases_writes, Hrj. reflexivity. }
    destruct why as [ |code| ]; [exact Hall| |exact Hx].
    destruct Hx as (-> & Ha). splits; auto.
    apply announced_behind. apply (announced_behind (_ :: _)). exact Ha.
  - destruct (turning_ends _ _ _ _ _ _ _ Hturn) as (Hrj & _).
    exists (calls (f ++ Log (SayInts "Processing page %d of %d" 1 tot)
                     :: map Write (lines_of_sources (Client.Hits result)) ++ j)),
           (Client.ScrollID last).
    split.
    + destruct Hrel as (t & t' & [why|res] & ->);
        rewrite !calls_app; cbn [calls flat_map app]; rewrite !calls_app;
        rewrite <- ?app_assoc; cbn [app]; rewrite ?app_nil_r; reflexivity.
    + change (releases (f ++ Log (SayInts "Processing page %d of %d" 1 tot)
                          :: map Write (lines_of_sources (Client.Hits result)) ++ j) = []).
      rewrite releases_app, Hr.
      match goal with |- [] ++ releases (_ :: ?rest) = [] => change (releases rest = []) end.
      rewrite releases_app, releases_writes, Hrj. reflexivity.
Qed.

End ModularEnds.

(** ** The pace of the retrying *)

Section Pace.

Import Backoff Executor Session.

Lemma spaced_notes gap last notes j :
  spaced gap last j -> spaced gap last (map Log notes ++ j).
Proof. induction notes; intros Hj; cbn; auto. Qed.

Lemma retrying_paced c op b v w r w' :
  attempting c op ->
  retrying op b v w r w' ->
  tuned (policy b) ->
  clock w - startTime (policy b) <= 5 * Minute ->
  exists j,
    journal w' = journal w ++ j
    /\ (forall last,
          match last with Some t => t + 500 * Millisecond <= clock w | None => True end ->
          spaced (500 * Millisecond) last j)
    /\ (Z.of_nat (List.length (calls j)) - 1) * (500 * Millisecond)
       <= 5 * Minute - (clock w - startTime (policy b)).
Proof.
  intros Hop.
  induction 1 as [b v w r w' Hround|b v w b1 v1 w1 r w' Hround Hrest IH];
    intros Ht Hin;
    destruct (round_spec c op b v w Hop Ht)
      as (notes & x & w2 & Hround' & Hj & Hnotes & Hc & Hq & He & Hout);
    rewrite Hround in Hround'; injection Hround' as <- <-.
  - exists (Request (clock w) (back w) c (next_answer w) :: map Log notes).
    splits; auto.
    + intros last Hlast. cbn [spaced]. splits; auto.
      * apply back_later.
      * rewrite <- (app_nil_r (map Log notes)). apply spaced_notes. exact I.
    + cbn [calls flat_map app]. fold (calls (map Log notes)). rewrite calls_notes.
      cbn [List.length]. unfold Minute, Second, Millisecond in *. lia.
  - cbn in Hout.
    destruct Hout as (Hfail & Ht1 & Hctx & Hstart & Hin1 & Hlate & Hbefore).
    rewrite <- Hstart in Hin1.
    destruct (IH Ht1 Hin1) as (j & Hj' & Hsp & Hn).
    exists (Request (clock w) (back w) c (next_answer w) :: map Log notes ++ j).
    splits.
    + rewrite Hj', Hj. rewrite <- !app_assoc. reflexivity.
    + intros last Hlast. cbn [spaced]. splits; auto.
      * apply back_later.
      * apply spaced_notes. apply Hsp. exact Hlate.
    + cbn [calls flat_map app]. fold (calls (map Log notes ++ j)).
      rewrite calls_app, calls_notes. cbn [app List.length].
      rewrite Hstart in Hn. pose proof (back_later w).
      unfold Minute, Second, Millisecond in *. lia.
Qed.

Lemma Retry_paced c op b v w :
  attempting c op ->
  configured (policy b) ->
  exists r w' j,
    Retry op b v w = (Ret r, w')
    /\ journal w' = journal w ++ j
    /\ spaced (500 * Millisecond) None j
    /\ (1 <= List.length (calls j) <= 601)%nat
    /\ Forall (eq c) (calls j).
Proof.
  intros Hop Hc.
  destruct (Retry_runs c op Hop b v w Hc) as (r & w' & Hrun & Hrel).
  assert (Ht : tuned (policy (with_policy b (reset_at (clock w) (policy b)))))
    by (destruct b; cbn; apply reset_tuned; assumption).
  assert (Hin : clock w - startTime (policy (with_policy b (reset_at (clock w) (policy b))))
                <= 5 * Minute)
    by (destruct b; cbn; unfold Minute, Second, Millisecond; lia).
  destruct (retrying_paced c op _ _ _ _ _ Hop Hrel Ht Hin) as (j & Hj & Hsp & Hn).
  destruct (retrying_summary c op Hop _ _ _ _ _ Hrel Ht Hin)
    as (_ & _ & _ & _ & pre & t & t' & a & notes & Hj2 & _ & Hpre & _).
  rewrite Hj in Hj2. apply app_inv_head in Hj2.
  exists r, w', j. splits; auto.
  - rewrite Hj2, calls_app. cbn [calls flat_map app]. rewrite length_app. cbn. lia.
  - assert (Hs : startTime (policy (with_policy b (reset_at (clock w) (policy b))))
                 = clock w) by (destruct b; reflexivity).
    rewrite Hs in Hn. unfold Minute, Second, Millisecond in Hn. lia.
  - rewrite Hj2, calls_app. apply Forall_app. split.
    + clear - Hpre. induction Hpre as [|e pre He _ IH]; [constructor|].
      destruct e as [t0 t0' c' a'|l|l]; cbn in *; [|contradiction|exact IH].
      constructor; [congruence|exact IH].
    + cbn [calls flat_map app]. fold (calls (map Log notes)). rewrite calls_notes.
      constructor; [reflexivity|constructor].
Qed.

(** X13.  Every retried request of the three programs is paced the same
    way: one call of retryWithBackoff of refactored/main.go, of
    InitialSearch or Scroll of client/elasticsearch.go, or of backoff.Retry
    around the closures of the single-file main.go issues the same request
    at least once and at most 601 times, and never issues an attempt
    sooner than half a second after the answer to the one before it. *)
Theorem retries_are_paced :
  (forall ctx c w, exists r w' j,
      Refactored.retryWithBackoff ctx (Sys.perform c) w = (Ret r, w')
      /\ journal w' = journal w ++ j
      /\ spaced (500 * Millisecond) None j
      /\ (1 <= List.length (calls j) <= 601)%nat
      /\ Forall (eq c) (calls j))
  /\ (forall cl ctx id w, exists r w' j,
         Client.Scroll cl ctx id w = (r, w')
         /\ journal w' = journal w ++ j
         /\ spaced (500 * Millisecond) None j
         /\ (1 <= List.length (calls j) <= 601)%nat
         /\ Forall (eq (CScroll id (Client.scrollDuration cl))) (calls j))
  /\ (forall cl ctx query w, exists r w' j,
         Client.InitialSearch cl ctx query w = (r, w')
         /\ journal w' = journal w ++ j
         /\ spaced (500 * Millisecond) None j
         /\ (1 <= List.length (calls j) <= 601)%nat
         /\ Forall (eq (CSearch (Client.indexName cl) query (Client.batchSize cl)
                                (Client.scrollDuration cl))) (calls j))
  /\ (forall id cfg v w, configured cfg -> exists r w' j,
         Retry (Monolith.scrollOnce id) (Bare cfg) v w = (Ret r, w')
         /\ journal w' = journal w ++ j
         /\ spaced (500 * Millisecond) None j
         /\ (1 <= List.length (calls j) <= 601)%nat
         /\ Forall (eq (CScroll id Minute)) (calls j)).
Proof.
  assert (Hclient : forall c failure w, exists r w' j,
    (backoffConfig <- Client.newBackoffConfig ;;
     '(err, res) <- Retry (Client.attempt c) (Bare backoffConfig) None ;;
     match err with
     | Some e => ret (inr (EWrap failure e))
     | None => res <- Client.must res ;; Client.parseScrollResponse (Body res)
     end) w = (r, w')
    /\ journal w' = journal w ++ j
    /\ spaced (500 * Millisecond) None j
    /\ (1 <= List.length (calls j) <= 601)%nat
    /\ Forall (eq c) (calls j)).
  { intros c failure w. unfold bind at 1.
    destruct (newBackoffConfig_run w) as (e & -> & He).
    unfold bind at 1.
    destruct (Retry_paced c (Client.attempt c) (Bare e) None w (attempt_attempts c) He)
      as ([err res] & w' & j & -> & Hj & Hsp & Hn & Hall).
    destruct err as [e'|].
    - eexists _, _, j. split; [reflexivity|]. repeat (split; [assumption|]). assumption.
    - unfold bind. rewrite must_run.
      destruct res as [res|]; [rewrite parseScrollResponse_pure|];
        eexists _, _, j; (split; [reflexivity|]);
        repeat (split; [assumption|]); assumption. }
  splits.
  - intros ctx c w. unfold Refactored.retryWithBackoff, bind.
    destruct (backoffCfg_run w) as (e & -> & He).
    destruct (Retry_paced c (Refactored.operation (Sys.perform c)) (WithContext e ctx)
                          None w (operation_attempts c) He)
      as ([err res] & w' & j & -> & Hj & Hsp & Hn & Hall).
    destruct err as [e'|]; eexists _, _, j; (split; [reflexivity|]);
      repeat (split; [assumption|]); assumption.
  - intros cl ctx id w. apply Hclient.
  - intros cl ctx query w. apply Hclient.
  - intros id cfg v w Hcfg.
    apply (Retry_paced _ _ (Bare cfg) v w (scrollOnce_attempts id) Hcfg).
Qed.

End Pace.

(** ** The address of the engine *)

Section Address.

Import Environ.

(** X14.  The two ways of reading the engine's address from the
    environment, getEnv of refactored/main.go and getEnvWithDefault of
    config/config.go, agree except on a variable that is set to the empty
    string: there the former yields the empty address and the latter the
    default.  The configuration of config/config.go never has an empty
    address, and without flags the two programs are configured with the
    same address exactly when ELASTICSEARCH_URL is not set to the empty
    string; their batch sizes differ (100 against 6). *)
Theorem address_defaults env :
  (forall key d,
      getEnv env key d = getEnvWithDefault env key d
      <-> (env key <> Some "" \/ d = ""))
  /\ (forall key d, env key = Some "" -> getEnv env key d = "")
  /\ (forall key d, getEnvWithDefault env key d = "" -> d = "")
  /\ Modular.ElasticsearchURL (NewConfig env) <> ""
  /\ (Refactored.ElasticsearchURL (parseFlags env)
      = Modular.ElasticsearchURL (NewConfig env)
      <-> env "ELASTICSEARCH_URL" <> Some "")
  /\ Refactored.IndexName (parseFlags env) = Modular.IndexName (NewConfig env)
  /\ Refactored.ScrollDuration (parseFlags env) = Modular.ScrollDuration (NewConfig env)
  /\ Refactored.BatchSize (parseFlags env) <> Modular.BatchSize (NewConfig env).
Proof.
  assert (Hagree : forall key d,
             getEnv env key d = getEnvWithDefault env key d
             <-> (env key <> Some "" \/ d = "")).
  { intros key d. unfold getEnv, getEnvWithDefault, Getenv, LookupEnv.
    destruct (env key) as [value|].
    - destruct (String.eqb value "") eqn:E; cbn [negb].
      + apply String.eqb_eq in E. subst value. split.
        * intros <-. right. reflexivity.
        * intros [H| ->]; [destruct H|]; reflexivity.
      + split; [|reflexivity]. intros _. left. intros [= ->]. discriminate.
    - cbn. split; [|reflexivity]. intros _. left. discriminate. }
  assert (Hnonempty : forall key d, getEnvWithDefault env key d = "" -> d = "").
  { intros key d. unfold getEnvWithDefault, Getenv.
    destruct (env key) as [value|]; cbn.
    - destruct (String.eqb value "") eqn:E; cbn; [auto|].
      intros ->. discriminate.
    - auto. }
  splits.
  - exact Hagree.
  - intros key d H. unfold getEnv, LookupEnv. rewrite H. reflexivity.
  - exact Hnonempty.
  - cbn. intros H. apply Hnonempty in H. discriminate.
  - cbn. rewrite Hagree. split; [|auto]. intros [H|H]; [exact H|discriminate].
  - reflexivity.
  - reflexivity.
  - cbn. discriminate.
Qed.

End Address.

(** ** A cancellation during the paging of refactored/main.go *)

Section Cancellation.

Import Backoff Executor Paging Ledger Session Cancelling.











End Cancellation.


